(** * loopback-component-storage: the filesystem provider and the
    upload/download handler, embedded and verified.

  Sources embedded here:
  - [lib/providers/filesystem/index.js] (the filesystem provider:
    [validateName], [populateMetadata] and the provider operations);
  - [lib/storage-handler.js] ([upload], [download], [processError]).

  JavaScript strings are [string], byte buffers are [list Byte.byte], JavaScript
  objects used as maps are [gmap string _], and the event-driven parts
  (streams, the multipart form) are step functions on explicit states. *)

From Stdlib Require Import ZArith Ascii String Lia Bool.
From stdpp Require Import gmap strings list pretty.

Local Open Scope Z_scope.

(** ** JavaScript string primitives used by the sources *)

Module JS.

Fixpoint startsWith (p s : string) : bool :=
  match p, s with
  | EmptyString, _ => true
  | String a p', String b s' => if Ascii.eqb a b then startsWith p' s' else false
  | String _ _, EmptyString => false
  end.


Fixpoint hasChar (c : ascii) (s : string) : bool :=
  match s with
  | EmptyString => false
  | String b s' => Ascii.eqb c b || hasChar c s'
  end.

Fixpoint drop (n : nat) (s : string) : string :=
  match n, s with
  | O, _ => s
  | S n', String _ s' => drop n' s'
  | S _, EmptyString => EmptyString
  end.

(** [s.replace(/p/, '')] for a literal pattern [p]: the first occurrence
    is removed. *)
Fixpoint removeFirst (p s : string) : string :=
  if startsWith p s then drop (String.length p) s
  else match s with
       | EmptyString => EmptyString
       | String c s' => String c (removeFirst p s')
       end.

(** [s.split(c)] for a one-character separator. *)
Fixpoint split (c : ascii) (s : string) : list string :=
  match s with
  | EmptyString => [EmptyString]
  | String b s' =>
      if Ascii.eqb b c then EmptyString :: split c s'
      else match split c s' with
           | [] => [String b EmptyString]
           | w :: ws => String b w :: ws
           end
  end.

Definition lowerChar (c : ascii) : ascii :=
  let n := nat_of_ascii c in
  if (Nat.leb 65 n && Nat.leb n 90)%bool then ascii_of_nat (n + 32) else c.

Fixpoint toLowerCase (s : string) : string :=
  match s with
  | EmptyString => EmptyString
  | String c s' => String (lowerChar c) (toLowerCase s')
  end.

Fixpoint join (sep : string) (l : list string) : string :=
  match l with
  | [] => EmptyString
  | [x] => x
  | x :: rest => x +:+ sep +:+ join sep rest
  end.

(** JavaScript numbers as far as the sources need them: an integer or NaN. *)
Inductive num := NaN | Int (z : Z).

Definition truthy (n : num) : bool :=
  match n with
  | NaN => false
  | Int z => negb (z =? 0)
  end.

Definition isDigit (c : ascii) : bool :=
  let n := nat_of_ascii c in (Nat.leb 48 n && Nat.leb n 57)%bool.

Definition digitVal (c : ascii) : Z := Z.of_nat (nat_of_ascii c) - 48.

Definition isSpace (c : ascii) : bool :=
  let n := nat_of_ascii c in
  (Nat.eqb n 32 || (Nat.leb 9 n && Nat.leb n 13))%bool.

Fixpoint skipSpace (s : string) : string :=
  match s with
  | String c s' => if isSpace c then skipSpace s' else s
  | EmptyString => s
  end.

(** The longest prefix of decimal digits, read as a number; [None] when
    there is no digit. *)
Fixpoint digits (acc : option Z) (s : string) : option Z :=
  match s with
  | String c s' =>
      if isDigit c
      then digits (Some (10 * default 0 acc + digitVal c)) s'
      else acc
  | EmptyString => acc
  end.

(** [parseInt(s, 10)] *)
Definition parseInt (s : string) : num :=
  let s := skipSpace s in
  let '(neg, body) :=
    match s with
    | String "-"%char r => (true, r)
    | String "+"%char r => (false, r)
    | _ => (false, s)
    end in
  match digits None body with
  | None => NaN
  | Some z => Int (if neg then - z else z)
  end.

End JS.

(** ** Node's [path] module (POSIX flavour), as far as the sources use it *)

Module Path.

Inductive platform := posix | win32.

(** [path.sep] *)
Definition sep (pf : platform) : ascii :=
  match pf with
  | posix => "/"%char
  | win32 => "\"%char
  end.

Definition isAbsolute (p : string) : bool :=
  match p with
  | String "/"%char _ => true
  | _ => false
  end.

(** [normalizeString]: the segments of a path with [.] and empty segments
    dropped and [..] resolved; [acc] is the result so far, last segment
    first. *)
Fixpoint normSegs (allowAboveRoot : bool) (acc : list string)
                  (segs : list string) : list string :=
  match segs with
  | [] => rev acc
  | seg :: rest =>
      if String.eqb seg "" || String.eqb seg "." then
        normSegs allowAboveRoot acc rest
      else if String.eqb seg ".." then
        match acc with
        | last :: acc' =>
            if String.eqb last ".."
            then normSegs allowAboveRoot (seg :: acc) rest
            else normSegs allowAboveRoot acc' rest
        | [] =>
            if allowAboveRoot
            then normSegs allowAboveRoot [seg] rest
            else normSegs allowAboveRoot [] rest
        end
      else normSegs allowAboveRoot (seg :: acc) rest
  end.

Fixpoint endsWithSlash (p : string) : bool :=
  match p with
  | EmptyString => false
  | String c EmptyString => Ascii.eqb c "/"
  | String _ p' => endsWithSlash p'
  end.

(** [path.normalize] *)
Definition normalize (p : string) : string :=
  if String.eqb p "" then "."
  else
    let abs := isAbsolute p in
    let trailing := endsWithSlash p in
    let body := JS.join "/" (normSegs (negb abs) [] (JS.split "/" p)) in
    if String.eqb body "" then
      (if abs then "/" else if trailing then "./" else ".")
    else
      let body := if trailing then body +:+ "/" else body in
      if abs then "/" +:+ body else body.

(** [path.join(...args)] *)
Definition join (args : list string) : string :=
  let parts := filter (fun a => a ≠ EmptyString) args in
  match parts with
  | [] => "."
  | _ => normalize (JS.join "/" parts)
  end.

Fixpoint lastDotSuffix (s : string) : option string :=
  match s with
  | EmptyString => None
  | String c s' =>
      match lastDotSuffix s' with
      | Some e => Some e
      | None => if Ascii.eqb c "." then Some s else None
      end
  end.

Fixpoint trimTrailingSlashes (p : string) : string :=
  match p with
  | EmptyString => EmptyString
  | String c p' =>
      match trimTrailingSlashes p' with
      | EmptyString => if Ascii.eqb c "/" then EmptyString else String c EmptyString
      | t => String c t
      end
  end.

(** [path.basename(p)] (one argument). *)
Definition basename (p : string) : string :=
  List.last (JS.split "/" (trimTrailingSlashes p)) EmptyString.

(** [path.extname(p)]: from the last dot of the last segment, unless that
    dot starts the segment or the segment is [..]. *)
Definition extname (p : string) : string :=
  let b := basename p in
  match lastDotSuffix b with
  | None => ""
  | Some e =>
      if Nat.eqb (String.length e) (String.length b) then ""
      else if String.eqb b ".." then ""
      else e
  end.

Fixpoint allSlashes (p : string) : bool :=
  match p with
  | EmptyString => true
  | String c p' => Ascii.eqb c "/" && allSlashes p'
  end.

(** What comes before the last slash of [t] that is followed, after any
    further slashes, by another character; [None] without such a slash. *)
Fixpoint dirPrefix (t : string) : option string :=
  match t with
  | EmptyString => None
  | String c t' =>
      match dirPrefix t' with
      | Some d => Some (String c d)
      | None =>
          if Ascii.eqb c "/" && negb (allSlashes t') then Some EmptyString
          else None
      end
  end.

(** [path.dirname(p)]: the scan runs from the last character down to the
    second, so the first character is never taken for the separator. *)
Definition dirname (p : string) : string :=
  match p with
  | EmptyString => "."
  | String c t =>
      let hasRoot := Ascii.eqb c "/" in
      match dirPrefix t with
      | None => if hasRoot then "/" else "."
      | Some d =>
          if hasRoot && String.eqb d "" then "//" else String c d
      end
  end.

End Path.

(** ** JavaScript values and errors *)

Inductive JsVal :=
| VUndef
| VNum (z : Z)
| VStr (s : string)
| VDate (ms : Z)
| VFun (name : string)
| VObj (tag : string).

(** A JavaScript [Error] with the properties the sources read or write. *)
Record JsError := mkError {
message : string;
code : option string;
statusCode : option Z;
status : option Z
}.

(** [new Error(msg)] *)
Definition newError (msg : string) : JsError :=
{| message := msg; code := None; statusCode := None; status := None |}.

(** ** The filesystem provider *)

Module FileSystemProvider.

(** *** [validateName] *)

(** The members of a regular-expression character class given by its
    source text: a backslash escapes the character after it. *)
Fixpoint classMembers (body : string) : list ascii :=
  match body with
  | EmptyString => []
  | String "\"%char (String c rest) => c :: classMembers rest
  | String c rest => c :: classMembers rest
  end.

(** [namePattern = new RegExp('[^' + path.sep + '/]+')]: the characters the
    negated class excludes. *)
Definition namePattern_excluded (pf : Path.platform) (c : ascii) : bool :=
  existsb (Ascii.eqb c) (classMembers (String (Path.sep pf) "/")).

Fixpoint takeRun (excl : ascii -> bool) (s : string) : string :=
  match s with
  | EmptyString => EmptyString
  | String c s' => if excl c then EmptyString else String c (takeRun excl s')
  end.

(** [namePattern.exec(name)]: the index and text of the leftmost, longest
    run of characters outside the class, or [None] for [null]. *)
Fixpoint namePattern_exec (pf : Path.platform) (s : string)
  : option (nat * string) :=
  match s with
  | EmptyString => None
  | String c s' =>
      if namePattern_excluded pf c then
        match namePattern_exec pf s' with
        | Some (i, m) => Some (S i, m)
        | None => None
        end
      else Some (O, takeRun (namePattern_excluded pf) s)
  end.

(** [[\\\/]] *)
Definition isSlash (c : ascii) : bool :=
  Ascii.eqb c "\" || Ascii.eqb c "/".

(** [\.\.([\\\/]|$)] matched at the start of [s]. *)
Definition dotdotHere (s : string) : bool :=
  match s with
  | String c1 (String c2 rest) =>
      Ascii.eqb c1 "." && Ascii.eqb c2 "." &&
      match rest with
      | EmptyString => true
      | String c _ => isSlash c
      end
  | _ => false
  end.

(** [[\\\/]\.\.([\\\/]|$)] matched somewhere in [s]. *)
Fixpoint dotdotAfterSlash (s : string) : bool :=
  match s with
  | EmptyString => false
  | String c s' => (isSlash c && dotdotHere s') || dotdotAfterSlash s'
  end.

(** [containsDotDotPaths.test(name)] for
    [/(^|[\\\/])\.\.([\\\/]|$)/]. *)
Definition containsDotDotPaths (s : string) : bool :=
  dotdotHere s || dotdotAfterSlash s.

Inductive effect :=
| NextTickCb (e : JsError)
| ConsoleError (msg : string).

Definition effect_message (e : effect) : string :=
  match e with
  | NextTickCb err => message err
  | ConsoleError msg => msg
  end.

(** [validateName(name, cb)]; [cb] tells whether a callback was passed.
    The result is the returned boolean and what was scheduled or logged. *)
Definition validateName (pf : Path.platform) (name : string) (cb : bool)
  : bool * list effect :=
  if String.eqb name "" || containsDotDotPaths name then
    (false,
     if cb then [NextTickCb (newError ("Invalid name: " +:+ name))]
     else [ConsoleError ("FileSystemProvider: Invalid name: " +:+ name)])
  else
    match namePattern_exec pf name with
    | Some (index, m) =>
        if Nat.eqb index 0 && Nat.eqb (String.length m) (String.length name)
        then (true, [])
        else
          (false,
           if cb
           then [NextTickCb (newError ("FileSystemProvider: Invalid name: " +:+ name))]
           else [ConsoleError ("FileSystemProvider: Invalid name: " +:+ name)])
    | None =>
        (false,
         if cb
         then [NextTickCb (newError ("FileSystemProvider: Invalid name: " +:+ name))]
         else [ConsoleError ("FileSystemProvider: Invalid name: " +:+ name)])
    end.

Definition validName (pf : Path.platform) (name : string) : bool :=
  fst (validateName pf name false).

(** *** The naming rule in the words of the specification *)

(** The segments of a name, cut at every path separator of either kind. *)
Fixpoint segments (s : string) : list string :=
  match s with
  | EmptyString => [EmptyString]
  | String c s' =>
      if isSlash c then EmptyString :: segments s'
      else match segments s' with
           | [] => [String c EmptyString]
           | w :: ws => String c w :: ws
           end
  end.

(** Non-empty, no [..] segment, and no [/] anywhere. *)
Definition singleSafeSegment (name : string) : Prop :=
  name ≠ EmptyString ∧ (".." ∉ segments name) ∧ JS.hasChar "/" name = false.

(** *** Metadata and public records *)

(** An [fs.Stats] instance: its kind and its enumerable properties (what a
    [for ... in] loop visits). *)
Record Stats := mkStats {
  isDirectory : bool;
  isFile : bool;
  stat_props : gmap string JsVal
}.

Definition exposed (p : string) : bool :=
  String.eqb p "size" || String.eqb p "atime" ||
  String.eqb p "mtime" || String.eqb p "ctime".

(** [populateMetadata(stat, props)] *)
Definition populateMetadata (stat : Stats) (props : gmap string JsVal)
  : gmap string JsVal :=
  foldl (fun props pv => if exposed pv.1 then <[pv.1 := pv.2]> props else props)
        props (map_to_list (stat_props stat)).

Definition isFunction (v : JsVal) : bool :=
  match v with
  | VFun _ => true
  | _ => false
  end.

(** [File.prototype._setProperties(details)] *)
Definition setProperties (details this : gmap string JsVal) : gmap string JsVal :=
  foldl (fun this kv => if isFunction kv.2 then this else <[kv.1 := kv.2]> this)
        this (map_to_list details).

(** [new File(client, details)]: the base constructor stores the client and
    calls [_setProperties]. *)
Definition newFile (details : gmap string JsVal) : gmap string JsVal :=
  setProperties details {["client" := VObj "FileSystemProvider"]}.

(** Modelled from the spec: [./container] is not among the sources; the
    [Container] record is built like the [File] record of [./file], from the
    same kind of details. *)
Definition newContainer (details : gmap string JsVal) : gmap string JsVal :=
  setProperties details {["client" := VObj "FileSystemProvider"]}.




(** *** Operations *)

Inductive fscall :=
| Stat (p : string)
| Readdir (p : string)
| Mkdir (p : string)
| Unlink (p : string)
| Rmdir (p : string)
| CreateWriteStream (p : string)
| CreateReadStream (p : string) (range : option (JS.num * option JS.num)).

(** What an operation does, in program order. *)
Inductive action :=
| Validate (name : string) (ok : bool)
| Join (args : list string)
| Fs (c : fscall).

(** What the callback of an operation receives. *)
Inductive outcome (A : Type) :=
| Failed (e : JsError)
| Done (a : A).
Arguments Failed {A} e.
Arguments Done {A} a.


(** The filesystem under the provider: what each call answers. *)
Record FsOracle := mkOracle {
  fs_stat : string -> JsError + Stats;
  fs_readdir : string -> JsError + list string;
  fs_mkdir : string -> option JsError;
  fs_unlink : string -> option JsError;
  fs_rmdir : string -> option JsError;
  fs_read : string -> JsError + list Byte.byte
}.

(** The stream returned by [upload]. *)
Inductive WriteStream :=
| WErrorStream (e : JsError)
| WFileStream (path : string) (flags : string).

(** The stream returned by [download]. *)
Inductive ReadStream :=
| RErrorStream (e : JsError)
| RFileStream (path : string) (range : option (JS.num * option JS.num)).

Section Provider.

Variable root : string.
Variable fs : FsOracle.

Definition host : Path.platform := Path.posix.

(** The error a rejected name hands to the callback. *)
Definition nameError (name : string) : JsError :=
  match snd (validateName host name true) with
  | NextTickCb e :: _ => e
  | _ => newError ("Invalid name: " +:+ name)
  end.

(** The first error among the answers of [async.parallel] tasks. *)
Fixpoint firstError {A} (rs : list (JsError + A)) : option JsError :=
  match rs with
  | [] => None
  | inl e :: _ => Some e
  | inr _ :: rest => firstError rest
  end.

Definition rights {A} (rs : list (JsError + A)) : list A :=
  omap (fun r => match r with inr a => Some a | inl _ => None end) rs.

Definition dirEntries (dir : string) : list string :=
  match fs_readdir fs dir with
  | inr names => names
  | inl _ => []
  end.

Definition statAll (dir : string) (names : list string)
  : list action * list (JsError + Stats) :=
  (flat_map (fun f => [Join [dir; f]; Fs (Stat (Path.join [dir; f]))]) names,
   map (fun f => fs_stat fs (Path.join [dir; f])) names).

(** [getContainers(cb)] *)
Definition getContainers : list action * outcome (list (gmap string JsVal)) :=
  let files := dirEntries root in
  let '(tr, stats) := statAll root files in
  (Fs (Readdir root) :: tr,
   match firstError stats with
   | Some e => Failed e
   | None =>
       Done (omap (fun '(name, stat) =>
                     if isDirectory stat
                     then Some (newContainer
                                  (populateMetadata stat {["name" := VStr name]}))
                     else None)
                  (zip files (rights stats)))
   end).

Definition statContainer (name dir : string) : outcome (gmap string JsVal) :=
  match fs_stat fs dir with
  | inl err => Failed err
  | inr stat =>
      Done (newContainer (populateMetadata stat {["name" := VStr name]}))
  end.

(** [createContainer(options, cb)] with [options.name = name]. *)
Definition createContainer (name : string)
  : list action * outcome (gmap string JsVal) :=
  let dir := Path.join [root; name] in
  let ok := validName host name in
  if ok then
    match fs_mkdir fs dir with
    | Some err => ([Join [root; name]; Validate name ok; Fs (Mkdir dir)], Failed err)
    | None =>
        ([Join [root; name]; Validate name ok; Fs (Mkdir dir); Fs (Stat dir)],
         statContainer name dir)
    end
  else ([Join [root; name]; Validate name ok], Failed (nameError name)).

(** [destroyContainer(containerName, cb)] *)
Definition destroyContainer (containerName : string)
  : list action * outcome unit :=
  let ok := validName host containerName in
  if ok then
    let dir := Path.join [root; containerName] in
    let files := dirEntries dir in
    let unlinks :=
      flat_map (fun f => [Join [dir; f]; Fs (Unlink (Path.join [dir; f]))]) files in
    let answers :=
      omap (fun f => fs_unlink fs (Path.join [dir; f])) files in
    let pre := [Validate containerName ok; Join [root; containerName];
                Fs (Readdir dir)] ++ unlinks in
    match answers with
    | err :: _ => (pre, Failed err)
    | [] =>
        (pre ++ [Fs (Rmdir dir)],
         match fs_rmdir fs dir with
         | Some err => Failed err
         | None => Done tt
         end)
    end
  else ([Validate containerName ok], Failed (nameError containerName)).

(** [getContainer(containerName, cb)] *)
Definition getContainer (containerName : string)
  : list action * outcome (gmap string JsVal) :=
  let ok := validName host containerName in
  if ok then
    let dir := Path.join [root; containerName] in
    ([Validate containerName ok; Join [root; containerName]; Fs (Stat dir)],
     statContainer containerName dir)
  else ([Validate containerName ok], Failed (nameError containerName)).

(** [upload(options)] with [options.container], [options.remote] and
    [options.flags], called without a callback as the handler does. *)
Definition upload (container remote : string) (flags : option string)
  : list action * WriteStream :=
  let okc := validName host container in
  if okc then
    let okf := validName host remote in
    if okf then
      let filePath := Path.join [root; container; remote] in
      ([Validate container okc; Validate remote okf;
        Join [root; container; remote]; Fs (CreateWriteStream filePath)],
       WFileStream filePath (default "w+" flags))
    else
      ([Validate container okc; Validate remote okf],
       WErrorStream (newError ("FileSystemProvider: Invalid name: " +:+ remote)))
  else
    ([Validate container okc],
     WErrorStream (newError ("FileSystemProvider: Invalid name: " +:+ container))).

(** [fs.createReadStream] throws on a range that is not a pair of
    non-negative integers in order. *)
Definition badRange (range : option (JS.num * option JS.num)) : bool :=
  match range with
  | None => false
  | Some (JS.Int s, None) => s <? 0
  | Some (JS.Int s, Some (JS.Int e)) => (s <? 0) || (e <? 0) || (e <? s)
  | Some _ => true
  end.

(** [download(options)] with [options.container], [options.remote],
    [options.start] and [options.end], called without a callback as the
    handler does. *)
Definition download (container remote : string)
                    (start end_ : option JS.num)
  : list action * ReadStream :=
  let okc := validName host container in
  if okc then
    let okf := validName host remote in
    if okf then
      let filePath := Path.join [root; container; remote] in
      let range :=
        match start with
        | Some s => if JS.truthy s then Some (s, end_) else None
        | None => None
        end in
      ([Validate container okc; Validate remote okf;
        Join [root; container; remote]; Fs (CreateReadStream filePath range)],
       if badRange range
       then RErrorStream
              {| message := "The value of a range option is out of range";
                 code := Some "ERR_OUT_OF_RANGE";
                 statusCode := None; status := None |}
       else RFileStream filePath range)
    else
      ([Validate container okc; Validate remote okf],
       RErrorStream (newError ("FileSystemProvider: Invalid name: " +:+ remote)))
  else
    ([Validate container okc],
     RErrorStream (newError ("FileSystemProvider: Invalid name: " +:+ container))).

(** [getFiles(container, cb)] *)
Definition getFiles (container : string)
  : list action * outcome (list (gmap string JsVal)) :=
  let ok := validName host container in
  if ok then
    let dir := Path.join [root; container] in
    let entries := dirEntries dir in
    let '(tr, stats) := statAll dir entries in
    ([Validate container ok; Join [root; container]; Fs (Readdir dir)] ++ tr,
     match firstError stats with
     | Some e => Failed e
     | None =>
         Done (omap (fun '(name, stat) =>
                       if isFile stat
                       then Some (newFile
                                    (populateMetadata stat
                                       {["container" := VStr container;
                                         "name" := VStr name]}))
                       else None)
                    (zip entries (rights stats)))
     end)
  else ([Validate container ok], Failed (nameError container)).

(** [getFile(container, file, cb)] *)
Definition getFile (container file : string)
  : list action * outcome (gmap string JsVal) :=
  let okc := validName host container in
  if okc then
    let okf := validName host file in
    if okf then
      let filePath := Path.join [root; container; file] in
      ([Validate container okc; Validate file okf;
        Join [root; container; file]; Fs (Stat filePath)],
       match fs_stat fs filePath with
       | inl err => Failed err
       | inr stat =>
           Done (newFile (populateMetadata stat
                            {["container" := VStr container;
                              "name" := VStr file]}))
       end)
    else ([Validate container okc; Validate file okf], Failed (nameError file))
  else ([Validate container okc], Failed (nameError container)).

(** [getUrl(options)] with [options.container] and [options.path]. *)
Definition getUrl (container path : string) : list action * string :=
  ([Join [root; container; path]], Path.join [root; container; path]).

(** [removeFile(container, file, cb)] *)
Definition removeFile (container file : string)
  : list action * outcome unit :=
  let okc := validName host container in
  if okc then
    let okf := validName host file in
    if okf then
      let filePath := Path.join [root; container; file] in
      ([Validate container okc; Validate file okf;
        Join [root; container; file]; Fs (Unlink filePath)],
       match fs_unlink fs filePath with
       | Some err => Failed err
       | None => Done tt
       end)
    else ([Validate container okc; Validate file okf], Failed (nameError file))
  else ([Validate container okc], Failed (nameError container)).

(** The bytes a stream returned by [download] produces, or the error it
    emits. Both ends of a range are inclusive; reading stops at the end of
    the file. *)
Definition readBytes (r : ReadStream) : JsError + list Byte.byte :=
  match r with
  | RErrorStream e => inl e
  | RFileStream p range =>
      match fs_read fs p with
      | inl e => inl e
      | inr data =>
          match range with
          | Some (JS.Int s, Some (JS.Int e)) =>
              inr (take (Z.to_nat (e - s + 1)) (drop (Z.to_nat s) data))
          | Some (JS.Int s, _) => inr (drop (Z.to_nat s) data)
          | _ => inr data
          end
      end
  end.

End Provider.

(** *** The constructor *)

(** [new FileSystemProvider(options)] with [options.root = root];
    [mainFilename] is [require.main.filename]. The result is [this.root], or
    the message of the error thrown. *)
Definition newProvider (mainFilename : string) (fs : FsOracle) (root : string)
  : string + string :=
  let root :=
    if Path.isAbsolute root then root
    else Path.join [Path.dirname (Path.dirname mainFilename); root] in
  match fs_stat fs root with
  | inl _ => inl ("FileSystemProvider: Path does not exist: " +:+ root)
  | inr stat =>
      if isDirectory stat then inr root
      else inl ("FileSystemProvider: Invalid directory: " +:+ root)
  end.

(** *** Validation before action *)

Definition isFsCall (a : action) : Prop :=
  match a with
  | Fs _ => True
  | _ => False
  end.

(** An operation on [names] is guarded when its trace, after the prefix
    [pre], starts with the successful validation of each name in order, or,
    if some name is invalid, contains no filesystem call at all and the
    operation has [failed]. *)
Definition guarded (names : list string) (pre tr : list action)
                   (failed : Prop) : Prop :=
  if forallb (validName host) names
  then exists rest, tr = pre ++ map (fun n => Validate n true) names ++ rest
  else Forall (fun a => ¬ isFsCall a) tr ∧ failed.

(** *** A sample filesystem for the examples

    One directory [/srv/storage/album1] holding one file [test.jpg] with the
    given content; everything else is missing. *)

Definition enoent (call path : string) : JsError :=
  {| message := "ENOENT: no such file or directory, " +:+ call +:+ " '" +:+ path +:+ "'";
     code := Some "ENOENT"; statusCode := None; status := None |}.

Definition sampleStats (dir : bool) (size : Z) : Stats :=
  {| isDirectory := dir;
     isFile := negb dir;
     stat_props :=
       {[ "dev" := VNum 2049; "mode" := VNum 33188; "nlink" := VNum 1;
          "uid" := VNum 1000; "gid" := VNum 1000; "size" := VNum size;
          "atime" := VDate 1700000000000; "mtime" := VDate 1700000000001;
          "ctime" := VDate 1700000000002; "birthtime" := VDate 1700000000003;
          "isDirectory" := VFun "isDirectory"; "isFile" := VFun "isFile" ]} |}.

Definition sampleFs (data : list Byte.byte) : FsOracle :=
  {| fs_stat p :=
       if String.eqb p "/srv/storage/album1/test.jpg"
       then inr (sampleStats false (Z.of_nat (length data)))
       else if String.eqb p "/srv/storage/album1"
       then inr (sampleStats true 4096)
       else inl (enoent "stat" p);
     fs_readdir p :=
       if String.eqb p "/srv/storage" then inr ["album1"]
       else if String.eqb p "/srv/storage/album1" then inr ["test.jpg"]
       else inl (enoent "scandir" p);
     fs_mkdir p := None;
     fs_unlink p :=
       if String.eqb p "/srv/storage/album1/test.jpg" then None
       else Some (enoent "unlink" p);
     fs_rmdir p := None;
     fs_read p :=
       if String.eqb p "/srv/storage/album1/test.jpg" then inr data
       else inl (enoent "open" p) |}.

(** The sample filesystem with one more entry in [album1], [gone], that is
    listed but cannot be examined or removed. *)
Definition brokenEntryFs : FsOracle :=
  {| fs_stat := fs_stat (sampleFs []);
     fs_readdir p :=
       if String.eqb p "/srv/storage/album1" then inr ["test.jpg"; "gone"]
       else fs_readdir (sampleFs []) p;
     fs_mkdir := fs_mkdir (sampleFs []);
     fs_unlink := fs_unlink (sampleFs []);
     fs_rmdir := fs_rmdir (sampleFs []);
     fs_read := fs_read (sampleFs []) |}.

End FileSystemProvider.

(** ** The storage handler: [download] *)

Module Download.
Import FileSystemProvider.

(** [processError(err, fileName)] *)
Definition processError (err : JsError) (fileName : string) : JsError :=
  if decide (code err = Some "ENOENT") then
    {| message := "File not found: " +:+ fileName;
       code := code err;
       statusCode := Some 404;
       status := Some 404 |}
  else err.

(** The request as [download] reads it: [req.params.container],
    [req.params.file], and [req.headers] with its [range] entry, either of
    which may be missing. *)
Record Request := mkRequest {
  params_container : string;
  params_file : string;
  req_headers : option (option string)
}.

Record Params := mkParams {
  p_container : string;
  p_remote : string;
  p_start : option JS.num;
  p_end : option JS.num
}.

Record Response := mkResponse {
  res_status : option Z;
  res_headers : list (string * string);
  res_type : option string;
  res_body : list Byte.byte
}.

Definition emptyResponse : Response :=
  {| res_status := None; res_headers := []; res_type := None; res_body := [] |}.

(** [a || b] on strings: the empty string is falsy. *)
Definition orElse (a b : string) : string :=
  if String.eqb a "" then b else a.

Definition numToString (n : JS.num) : string :=
  match n with
  | JS.NaN => "NaN"
  | JS.Int z => pretty z
  end.

Definition numSub (a b : JS.num) : JS.num :=
  match a, b with
  | JS.Int x, JS.Int y => JS.Int (x - y)
  | _, _ => JS.NaN
  end.

Definition numAdd (a b : JS.num) : JS.num :=
  match a, b with
  | JS.Int x, JS.Int y => JS.Int (x + y)
  | _, _ => JS.NaN
  end.

(** [res.set(name, value)] *)
Definition setHeader (name value : string) (res : Response) : Response :=
  {| res_status := res_status res;
     res_headers := res_headers res ++ [(name, value)];
     res_type := res_type res;
     res_body := res_body res |}.

(** [stats.size] of the record [getFile] hands over. *)
Definition statsSize (stats : gmap string JsVal) : JS.num :=
  match stats !! "size" with
  | Some (VNum z) => JS.Int z
  | _ => JS.NaN
  end.

(** [setupPartialDownload(params, stats, res)] for the header value [range]. *)
Definition setupPartialDownload (range : string) (params : Params)
                                (stats : gmap string JsVal) (res : Response)
  : Params * Response :=
  let total := statsSize stats in
  let parts := JS.split "-" (JS.removeFirst "bytes=" range) in
  let partialstart := parts !! 0%nat in
  let partialend := parts !! 1%nat in
  let start := JS.parseInt (default "undefined" partialstart) in
  let end_ :=
    match partialend with
    | Some e => if String.eqb e "" then numSub total (JS.Int 1) else JS.parseInt e
    | None => numSub total (JS.Int 1)
    end in
  let chunksize := numAdd (numSub end_ start) (JS.Int 1) in
  let res := {| res_status := Some 206;
                res_headers := res_headers res;
                res_type := res_type res;
                res_body := res_body res |} in
  let res := setHeader "Content-Range"
               ("bytes " +:+ numToString start +:+ "-" +:+ numToString end_
                 +:+ "/" +:+ numToString total) res in
  let res := setHeader "Accept-Ranges" "bytes" res in
  let res := setHeader "Content-Length" (numToString chunksize) res in
  ({| p_container := p_container params;
      p_remote := p_remote params;
      p_start := Some start;
      p_end := Some end_ |}, res).

(** One [download] in progress: the calls the caller's callback has
    received, whether the variable [cb] still holds that callback, the
    response, the stream being piped, and the provider's actions. *)
Record Session := mkSession {
  cb_calls : list (option JsError);
  cb_armed : bool;
  response : Response;
  reader : option ReadStream;
  sparams : Params;
  trace : list action
}.

Inductive ReaderEvent :=
| OnData (chunk : list Byte.byte)
| OnError (e : JsError)
| OnEnd.

Definition terminal (ev : ReaderEvent) : bool :=
  match ev with
  | OnData _ => false
  | _ => true
  end.

(** The call the callback gets from the first terminal event. *)
Definition firstCall (remote : string) (evs : list ReaderEvent)
  : list (option JsError) :=
  match filter (fun ev => terminal ev = true) evs with
  | OnError e :: _ => [Some (processError e remote)]
  | OnEnd :: _ => [None]
  | _ => []
  end.

Section Handler.

Variable root : string.
Variable fs : FsOracle.

(** The inner [download(params)]: open the stream, set the content type,
    pipe. *)
Definition startStream (fileName : string) (params : Params) (res : Response)
                       (tr : list action) : Session :=
  let '(tr', rd) :=
    FileSystemProvider.download root (p_container params) (p_remote params)
                                (p_start params) (p_end params) in
  {| cb_calls := [];
     cb_armed := true;
     response := {| res_status := res_status res;
                    res_headers := res_headers res;
                    res_type := Some fileName;
                    res_body := res_body res |};
     reader := Some rd;
     sparams := params;
     trace := tr ++ tr' |}.

(** [exports.download(provider, req, res, container, file, cb)] up to its
    return; [req] is [None] when no request is passed. *)
Definition download_begin (req : option Request) (res : Response)
                          (container file : string) : Session :=
  let fileName := Path.basename file in
  match req with
  | None =>
      {| cb_calls := []; cb_armed := true; response := res;
         reader := None;
         sparams := {| p_container := container; p_remote := file;
                       p_start := None; p_end := None |};
         trace := [] |}
  | Some rq =>
      let params := {| p_container := orElse container (params_container rq);
                       p_remote := orElse file (params_file rq);
                       p_start := None; p_end := None |} in
      let range :=
        match req_headers rq with
        | Some h => default "" h
        | None => ""
        end in
      if String.eqb range "" then startStream fileName params res []
      else
        let '(tr, r) := getFile root fs (p_container params) (p_remote params) in
        match r with
        | Failed err =>
            {| cb_calls := [Some (processError err (p_remote params))];
               cb_armed := true; response := res; reader := None;
               sparams := params; trace := tr |}
        | Done stats =>
            let '(params', res') := setupPartialDownload range params stats res in
            startStream fileName params' res' tr
        end
  end.

(** The listeners of the stream: [pipe] for data, [onReaderError] and
    [onReaderEnd]; without a stream there is no listener. *)
Definition on_event (s : Session) (ev : ReaderEvent) : Session :=
  match reader s with
  | None => s
  | Some _ =>
      match ev with
      | OnData chunk =>
          {| cb_calls := cb_calls s; cb_armed := cb_armed s;
             response := {| res_status := res_status (response s);
                            res_headers := res_headers (response s);
                            res_type := res_type (response s);
                            res_body := res_body (response s) ++ chunk |};
             reader := reader s; sparams := sparams s; trace := trace s |}
      | OnError err =>
          {| cb_calls :=
               if cb_armed s
               then cb_calls s ++
                      [Some (processError err (p_remote (sparams s)))]
               else cb_calls s;
             cb_armed := false;
             response := response s; reader := reader s;
             sparams := sparams s; trace := trace s |}
      | OnEnd =>
          {| cb_calls := if cb_armed s then cb_calls s ++ [None] else cb_calls s;
             cb_armed := false;
             response := response s; reader := reader s;
             sparams := sparams s; trace := trace s |}
      end
  end.

Definition run (s : Session) (evs : list ReaderEvent) : Session :=
  foldl on_event s evs.

(** What the stream emits when nothing but the filesystem interferes: its
    bytes and then [end], or its error. *)
Definition streamEvents (r : ReadStream) : list ReaderEvent :=
  match readBytes fs r with
  | inl e => [OnError e]
  | inr data => [OnData data; OnEnd]
  end.

(** A whole [download]: the call, then the events of the stream it opened. *)
Definition download (req : option Request) (res : Response)
                    (container file : string) : Session :=
  let s := download_begin req res container file in
  match reader s with
  | Some r => run s (streamEvents r)
  | None => s
  end.

End Handler.
End Download.

(** ** The storage handler: [upload] *)

Module Upload.
Import FileSystemProvider.

(** The [file] object built for a file part. *)
Record FileInfo := mkFile {
  f_container : string;
  f_name : string;
  f_type : string;
  f_field : string;
  f_originalFilename : option string;
  f_acl : option string;
  f_size : option Z;
  f_md5 : option string;
  f_sha256 : option string;
  f_providerResponse : option JsVal
}.

(** An option that is a value or a function of the file (the request and
    the response it also receives do not change during one upload). *)
Inductive dyn (T : Type) :=
| Fixed (v : T)
| Computed (f : FileInfo -> T).
Arguments Fixed {T} v.
Arguments Computed {T} f.

Definition resolve {T} (d : dyn T) (file : FileInfo) : T :=
  match d with
  | Fixed v => v
  | Computed f => f file
  end.

(** A JavaScript value that may or may not be an array of strings. *)
Inductive arrayish :=
| NotArray
| Arr (l : list string).

(** The options of [upload]. [o_aws] lists the pass-through options
    ([StorageClass], [CacheControl], ...) that are set; they are copied
    into the parameters of [provider.upload], of which the filesystem
    provider reads the container and the remote name only. *)
Record Options := mkOptions {
  o_container : option string;
  o_maxFileSize : option (dyn Z);
  o_forbidExtnames : option arrayish;
  o_allowedContentTypes : option (dyn arrayish);
  o_getFilename : option (FileInfo -> string);
  o_nameConflict : option string;
  o_acl : option (dyn string);
  o_aws : list (string * string)
}.

(** A part as the multipart parser hands it to [handlePart]:
    [part.filename] is [None] when the part has no file name. *)
Record Part := mkPart {
  part_name : string;
  part_filename : option string;
  part_mime : string
}.

(** What lies outside the sources: the digests, the unique-name generator
    and the string decoder (its state is the bytes of an unfinished
    character). *)
Record Env := mkEnv {
  md5hex : list Byte.byte -> string;
  sha256hex : list Byte.byte -> string;
  uuid_v4 : nat -> string;
  decoder_write : list Byte.byte -> list Byte.byte -> list Byte.byte * string
}.

(** The state of a backend write stream. *)
Record Writer := mkWriter {
  w_stream : WriteStream;
  w_ended : bool;
  w_destroyed : bool;
  w_finished : bool
}.

(** The closure of one [handlePart] call. *)
Record FileCtx := mkFileCtx {
  c_part : Part;
  c_file : FileInfo;
  c_maxFileSize : Z;
  c_fileSize : Z;
  c_hashed : list Byte.byte;
  c_writer : option Writer
}.

Record FieldCtx := mkFieldCtx {
  d_part : Part;
  d_value : string;
  d_decoder : list Byte.byte
}.

Inductive PartCtx :=
| IsField (d : FieldCtx)
| IsFile (c : FileCtx).

(** What the caller's callback receives. *)
Inductive CbCall :=
| CbErr (e : JsError)
| CbOk (files : gmap string (list FileInfo)) (fields : gmap string (list string)).

(** One upload in progress. [up_error], [up_ended], [up_flushing] and
    [up_fieldsSize] are the form's own fields; [up_filename] and [up_writer]
    are the properties the handler adds to it; [up_files] holds references
    (indices into [up_parts]) to the [file] objects, which keep changing
    after they are listed. *)
Record State := mkState {
  up_error : option JsError;
  up_ended : bool;
  up_flushing : nat;
  up_fieldsSize : Z;
  up_filename : option string;
  up_writer : option nat;
  up_fields : gmap string (list string);
  up_files : gmap string (list nat);
  up_parsedFiles : list string;
  up_parts : list PartCtx;
  up_current : option nat;
  up_uuids : nat;
  up_callbacks : list CbCall;
  up_console : list string;
  up_backend : list action;
  up_store : gmap string (list Byte.byte)
}.

(** What happens to an upload. The parser begins a part, delivers a chunk
    of the part it is parsing, or ends it; the request ends, or fails (an
    error, an abort or a malformed body, each handed to [_error]); the
    writer of a part signals success, emits an error, or closes. *)
Inductive Event :=
| EvPart (p : Part)
| EvData (buf : list Byte.byte)
| EvEnd
| EvRequestEnd
| EvRequestError (err : JsError)
| EvWriterSuccess (id : nat)
| EvWriterError (id : nat) (err : JsError)
| EvWriterClose (id : nat).

Definition defaultMaxFileSize : Z := 10 * 1024 * 1024.

Definition dquote : string := String (ascii_of_nat 34) EmptyString.

Definition truthyDynZ (d : option (dyn Z)) : bool :=
  match d with
  | None => false
  | Some (Fixed z) => negb (z =? 0)
  | Some (Computed _) => true
  end.

Definition truthyDynStr (d : option (dyn string)) : bool :=
  match d with
  | None => false
  | Some (Fixed s) => negb (String.eqb s "")
  | Some (Computed _) => true
  end.

Definition truthyStr (s : option string) : bool :=
  match s with
  | None => false
  | Some s => negb (String.eqb s "")
  end.

Definition inList (x : string) (l : list string) : bool :=
  existsb (String.eqb x) l.

(** [options.maxFileSize] after the default has been filled in. *)
Definition effectiveMaxFileSize (opts : Options) : dyn Z :=
  if truthyDynZ (o_maxFileSize opts)
  then default (Fixed defaultMaxFileSize) (o_maxFileSize opts)
  else Fixed defaultMaxFileSize.

(** The filesystem behind the provider, read off the store. *)
Definition storeOracle (store : gmap string (list Byte.byte)) : FsOracle :=
  {| fs_stat p :=
       match store !! p with
       | Some data =>
           inr {| isDirectory := false; isFile := true;
                  stat_props := {["size" := VNum (Z.of_nat (length data))]} |}
       | None => inl (enoent "stat" p)
       end;
     fs_readdir p := inl (enoent "scandir" p);
     fs_mkdir p := None;
     fs_unlink p :=
       match store !! p with
       | Some _ => None
       | None => Some (enoent "unlink" p)
       end;
     fs_rmdir p := None;
     fs_read p :=
       match store !! p with
       | Some data => inr data
       | None => inl (enoent "open" p)
       end |}.

(** The effect of the provider's filesystem calls on the store: opening a
    write stream with [w+] leaves an empty file, unlinking removes it. *)
Fixpoint applyFs (tr : list action) (store : gmap string (list Byte.byte))
  : gmap string (list Byte.byte) :=
  match tr with
  | [] => store
  | Fs (CreateWriteStream p) :: tr' => applyFs tr' (<[p := []]> store)
  | Fs (Unlink p) :: tr' => applyFs tr' (delete p store)
  | _ :: tr' => applyFs tr' store
  end.

(** Field updates of [State]. *)

Definition set_error (v : option JsError) (st : State) : State :=
  {| up_error := v;
     up_ended := up_ended st;
     up_flushing := up_flushing st;
     up_fieldsSize := up_fieldsSize st;
     up_filename := up_filename st;
     up_writer := up_writer st;
     up_fields := up_fields st;
     up_files := up_files st;
     up_parsedFiles := up_parsedFiles st;
     up_parts := up_parts st;
     up_current := up_current st;
     up_uuids := up_uuids st;
     up_callbacks := up_callbacks st;
     up_console := up_console st;
     up_backend := up_backend st;
     up_store := up_store st |}.

Definition set_ended (v : bool) (st : State) : State :=
  {| up_error := up_error st;
     up_ended := v;
     up_flushing := up_flushing st;
     up_fieldsSize := up_fieldsSize st;
     up_filename := up_filename st;
     up_writer := up_writer st;
     up_fields := up_fields st;
     up_files := up_files st;
     up_parsedFiles := up_parsedFiles st;
     up_parts := up_parts st;
     up_current := up_current st;
     up_uuids := up_uuids st;
     up_callbacks := up_callbacks st;
     up_console := up_console st;
     up_backend := up_backend st;
     up_store := up_store st |}.

Definition set_flushing (v : nat) (st : State) : State :=
  {| up_error := up_error st;
     up_ended := up_ended st;
     up_flushing := v;
     up_fieldsSize := up_fieldsSize st;
     up_filename := up_filename st;
     up_writer := up_writer st;
     up_fields := up_fields st;
     up_files := up_files st;
     up_parsedFiles := up_parsedFiles st;
     up_parts := up_parts st;
     up_current := up_current st;
     up_uuids := up_uuids st;
     up_callbacks := up_callbacks st;
     up_console := up_console st;
     up_backend := up_backend st;
     up_store := up_store st |}.

Definition set_fieldsSize (v : Z) (st : State) : State :=
  {| up_error := up_error st;
     up_ended := up_ended st;
     up_flushing := up_flushing st;
     up_fieldsSize := v;
     up_filename := up_filename st;
     up_writer := up_writer st;
     up_fields := up_fields st;
     up_files := up_files st;
     up_parsedFiles := up_parsedFiles st;
     up_parts := up_parts st;
     up_current := up_current st;
     up_uuids := up_uuids st;
     up_callbacks := up_callbacks st;
     up_console := up_console st;
     up_backend := up_backend st;
     up_store := up_store st |}.

Definition set_filename (v : option string) (st : State) : State :=
  {| up_error := up_error st;
     up_ended := up_ended st;
     up_flushing := up_flushing st;
     up_fieldsSize := up_fieldsSize st;
     up_filename := v;
     up_writer := up_writer st;
     up_fields := up_fields st;
     up_files := up_files st;
     up_parsedFiles := up_parsedFiles st;
     up_parts := up_parts st;
     up_current := up_current st;
     up_uuids := up_uuids st;
     up_callbacks := up_callbacks st;
     up_console := up_console st;
     up_backend := up_backend st;
     up_store := up_store st |}.

Definition set_writer (v : option nat) (st : State) : State :=
  {| up_error := up_error st;
     up_ended := up_ended st;
     up_flushing := up_flushing st;
     up_fieldsSize := up_fieldsSize st;
     up_filename := up_filename st;
     up_writer := v;
     up_fields := up_fields st;
     up_files := up_files st;
     up_parsedFiles := up_parsedFiles st;
     up_parts := up_parts st;
     up_current := up_current st;
     up_uuids := up_uuids st;
     up_callbacks := up_callbacks st;
     up_console := up_console st;
     up_backend := up_backend st;
     up_store := up_store st |}.

Definition set_fields (v : gmap string (list string)) (st : State) : State :=
  {| up_error := up_error st;
     up_ended := up_ended st;
     up_flushing := up_flushing st;
     up_fieldsSize := up_fieldsSize st;
     up_filename := up_filename st;
     up_writer := up_writer st;
     up_fields := v;
     up_files := up_files st;
     up_parsedFiles := up_parsedFiles st;
     up_parts := up_parts st;
     up_current := up_current st;
     up_uuids := up_uuids st;
     up_callbacks := up_callbacks st;
     up_console := up_console st;
     up_backend := up_backend st;
     up_store := up_store st |}.

Definition set_files (v : gmap string (list nat)) (st : State) : State :=
  {| up_error := up_error st;
     up_ended := up_ended st;
     up_flushing := up_flushing st;
     up_fieldsSize := up_fieldsSize st;
     up_filename := up_filename st;
     up_writer := up_writer st;
     up_fields := up_fields st;
     up_files := v;
     up_parsedFiles := up_parsedFiles st;
     up_parts := up_parts st;
     up_current := up_current st;
     up_uuids := up_uuids st;
     up_callbacks := up_callbacks st;
     up_console := up_console st;
     up_backend := up_backend st;
     up_store := up_store st |}.

Definition set_parsedFiles (v : list string) (st : State) : State :=
  {| up_error := up_error st;
     up_ended := up_ended st;
     up_flushing := up_flushing st;
     up_fieldsSize := up_fieldsSize st;
     up_filename := up_filename st;
     up_writer := up_writer st;
     up_fields := up_fields st;
     up_files := up_files st;
     up_parsedFiles := v;
     up_parts := up_parts st;
     up_current := up_current st;
     up_uuids := up_uuids st;
     up_callbacks := up_callbacks st;
     up_console := up_console st;
     up_backend := up_backend st;
     up_store := up_store st |}.

Definition set_parts (v : list PartCtx) (st : State) : State :=
  {| up_error := up_error st;
     up_ended := up_ended st;
     up_flushing := up_flushing st;
     up_fieldsSize := up_fieldsSize st;
     up_filename := up_filename st;
     up_writer := up_writer st;
     up_fields := up_fields st;
     up_files := up_files st;
     up_parsedFiles := up_parsedFiles st;
     up_parts := v;
     up_current := up_current st;
     up_uuids := up_uuids st;
     up_callbacks := up_callbacks st;
     up_console := up_console st;
     up_backend := up_backend st;
     up_store := up_store st |}.

Definition set_current (v : option nat) (st : State) : State :=
  {| up_error := up_error st;
     up_ended := up_ended st;
     up_flushing := up_flushing st;
     up_fieldsSize := up_fieldsSize st;
     up_filename := up_filename st;
     up_writer := up_writer st;
     up_fields := up_fields st;
     up_files := up_files st;
     up_parsedFiles := up_parsedFiles st;
     up_parts := up_parts st;
     up_current := v;
     up_uuids := up_uuids st;
     up_callbacks := up_callbacks st;
     up_console := up_console st;
     up_backend := up_backend st;
     up_store := up_store st |}.

Definition set_uuids (v : nat) (st : State) : State :=
  {| up_error := up_error st;
     up_ended := up_ended st;
     up_flushing := up_flushing st;
     up_fieldsSize := up_fieldsSize st;
     up_filename := up_filename st;
     up_writer := up_writer st;
     up_fields := up_fields st;
     up_files := up_files st;
     up_parsedFiles := up_parsedFiles st;
     up_parts := up_parts st;
     up_current := up_current st;
     up_uuids := v;
     up_callbacks := up_callbacks st;
     up_console := up_console st;
     up_backend := up_backend st;
     up_store := up_store st |}.

Definition set_callbacks (v : list CbCall) (st : State) : State :=
  {| up_error := up_error st;
     up_ended := up_ended st;
     up_flushing := up_flushing st;
     up_fieldsSize := up_fieldsSize st;
     up_filename := up_filename st;
     up_writer := up_writer st;
     up_fields := up_fields st;
     up_files := up_files st;
     up_parsedFiles := up_parsedFiles st;
     up_parts := up_parts st;
     up_current := up_current st;
     up_uuids := up_uuids st;
     up_callbacks := v;
     up_console := up_console st;
     up_backend := up_backend st;
     up_store := up_store st |}.

Definition set_console (v : list string) (st : State) : State :=
  {| up_error := up_error st;
     up_ended := up_ended st;
     up_flushing := up_flushing st;
     up_fieldsSize := up_fieldsSize st;
     up_filename := up_filename st;
     up_writer := up_writer st;
     up_fields := up_fields st;
     up_files := up_files st;
     up_parsedFiles := up_parsedFiles st;
     up_parts := up_parts st;
     up_current := up_current st;
     up_uuids := up_uuids st;
     up_callbacks := up_callbacks st;
     up_console := v;
     up_backend := up_backend st;
     up_store := up_store st |}.

Definition set_backend (v : list action) (st : State) : State :=
  {| up_error := up_error st;
     up_ended := up_ended st;
     up_flushing := up_flushing st;
     up_fieldsSize := up_fieldsSize st;
     up_filename := up_filename st;
     up_writer := up_writer st;
     up_fields := up_fields st;
     up_files := up_files st;
     up_parsedFiles := up_parsedFiles st;
     up_parts := up_parts st;
     up_current := up_current st;
     up_uuids := up_uuids st;
     up_callbacks := up_callbacks st;
     up_console := up_console st;
     up_backend := v;
     up_store := up_store st |}.

Definition set_store (v : gmap string (list Byte.byte)) (st : State) : State :=
  {| up_error := up_error st;
     up_ended := up_ended st;
     up_flushing := up_flushing st;
     up_fieldsSize := up_fieldsSize st;
     up_filename := up_filename st;
     up_writer := up_writer st;
     up_fields := up_fields st;
     up_files := up_files st;
     up_parsedFiles := up_parsedFiles st;
     up_parts := up_parts st;
     up_current := up_current st;
     up_uuids := up_uuids st;
     up_callbacks := up_callbacks st;
     up_console := up_console st;
     up_backend := up_backend st;
     up_store := v |}.

Definition defaultMaxFieldsSize : Z := 20 * 1024 * 1024.

Definition sizeError (fileSize maxFileSize : Z) : JsError :=
  newError ("maxFileSize exceeded, received " +:+ pretty fileSize +:+
            " bytes of field data (max is " +:+ pretty maxFileSize +:+ ")").

Definition fieldsSizeError (fieldsSize : Z) : JsError :=
  newError ("maxFieldsSize exceeded, received " +:+ pretty fieldsSize +:+
            " bytes of field data").

Definition extnameError (extname : string) (forbidden : list string) : JsError :=
  newError ("extname " +:+ dquote +:+ extname +:+ dquote +:+
            " is not allowed (Must not be in [" +:+ JS.join ", " forbidden +:+ "])").

Definition contentTypeError (type : string) (allowed : list string) : JsError :=
  newError ("contentType " +:+ dquote +:+ type +:+ dquote +:+
            " is not allowed (Must be in [" +:+ JS.join ", " allowed +:+ "])").

Definition noFileError : JsError :=
  {| message := "No file content uploaded"; code := None;
     statusCode := Some 400; status := None |}.

Definition isEmpty {A} (l : list A) : bool :=
  match l with
  | [] => true
  | _ => false
  end.

Definition fileOf (parts : list PartCtx) (id : nat) : option FileInfo :=
  match parts !! id with
  | Some (IsFile c) => Some (c_file c)
  | _ => None
  end.

(** The [files] object as the callback sees it when it is called. *)
Definition filesView (st : State) : gmap string (list FileInfo) :=
  (fun ids : list nat => omap (fileOf (up_parts st)) ids) <$> up_files st.

(** [obj[key].push(v)], creating the array when the key is new. *)
Definition pushTo {A} (key : string) (v : A) (m : gmap string (list A))
  : gmap string (list A) :=
  match m !! key with
  | None => <[key := [v]]> m
  | Some values => <[key := values ++ [v]]> m
  end.

Section Handler.

Variable env : Env.
Variable root : string.
Variable options : Options.
Variable maxFieldsSize : Z.
Variable reqContainer : string.

(** [options.container || req.params.container] *)
Definition container : string :=
  if truthyStr (o_container options)
  then default "" (o_container options)
  else reqContainer.

Definition updateFile (id : nat) (f : FileCtx -> FileCtx) (st : State) : State :=
  match up_parts st !! id with
  | Some (IsFile c) => set_parts (<[id := IsFile (f c)]> (up_parts st)) st
  | _ => st
  end.

Definition writerOf (st : State) (id : nat) : option Writer :=
  match up_parts st !! id with
  | Some (IsFile c) => c_writer c
  | _ => None
  end.

(** [form.writer.destroy()] unless it is destroyed already. *)
Definition destroyWriter (id : nat) (st : State) : State :=
  match writerOf st id with
  | Some w =>
      if w_destroyed w then st
      else
        updateFile id
          (fun c => {| c_part := c_part c; c_file := c_file c;
                       c_maxFileSize := c_maxFileSize c;
                       c_fileSize := c_fileSize c;
                       c_hashed := c_hashed c;
                       c_writer :=
                         option_map
                           (fun w => {| w_stream := w_stream w;
                                        w_ended := w_ended w;
                                        w_destroyed := true;
                                        w_finished := w_finished w |})
                           (c_writer c) |}) st
  | None => st
  end.

(** The listener [form.on('error', ...)] installed by [upload]. *)
Definition onFormError (st : State) : State :=
  let st :=
    match up_writer st with
    | Some id => destroyWriter id st
    | None => st
    end in
  if truthyStr (up_filename st) then
    let '(tr, r) := removeFile root (storeOracle (up_store st)) container
                               (default "" (up_filename st)) in
    let st := set_backend (up_backend st ++ tr) st in
    let st := set_store (applyFs tr (up_store st)) st in
    match r with
    | Failed removeErr => set_console (up_console st ++ [message removeErr]) st
    | Done _ => st
    end
  else st.

(** [self.emit('error', err)]: the listener of [upload], then the one of
    [form.parse], which hands the error to the caller's callback. *)
Definition emitError (err : JsError) (st : State) : State :=
  let st := onFormError st in
  let st := set_console (up_console st ++ [message err]) st in
  set_callbacks (up_callbacks st ++ [CbErr err]) st.

(** [self._error(err)] *)
Definition formError (err : JsError) (st : State) : State :=
  match up_error st with
  | Some _ => st
  | None =>
      if up_ended st then st
      else emitError err (set_error (Some err) st)
  end.

(** [self.emit('end')]: the callback passed to [form.parse]. *)
Definition emitEnd (st : State) : State :=
  if isEmpty (up_parsedFiles st)
  then set_callbacks (up_callbacks st ++ [CbErr noFileError]) st
  else set_callbacks (up_callbacks st ++ [CbOk (filesView st) (up_fields st)]) st.

(** [self._maybeEnd()] *)
Definition maybeEnd (st : State) : State :=
  if negb (up_ended st) || negb (Nat.eqb (up_flushing st) 0)
     || bool_decide (is_Some (up_error st))
  then st
  else emitEnd st.

(** The field branch of [handlePart]: nothing but the closure. *)
Definition beginField (part : Part) (st : State) : State :=
  let id := length (up_parts st) in
  let st := set_parts (up_parts st ++
                         [IsField {| d_part := part; d_value := "";
                                     d_decoder := [] |}]) st in
  set_current (Some id) st.

(** The stored name of a file part: the renamer, else a unique name, else
    the original one. The second component is the number of unique names
    drawn so far. *)
Definition nameFile (file : FileInfo) (uuids : nat) : FileInfo * nat :=
  let renamed (name : string) :=
    {| f_container := f_container file; f_name := name;
       f_type := f_type file; f_field := f_field file;
       f_originalFilename := Some (f_name file);
       f_acl := f_acl file; f_size := f_size file; f_md5 := f_md5 file;
       f_sha256 := f_sha256 file;
       f_providerResponse := f_providerResponse file |} in
  match o_getFilename options with
  | Some getFilename => (renamed (getFilename (renamed (f_name file))), uuids)
  | None =>
      if bool_decide (o_nameConflict options = Some "makeUnique")
      then (renamed (uuid_v4 env uuids +:+ Path.extname (f_name file)), S uuids)
      else (file, uuids)
  end.

(** The extension check: [Some err] when the part is to be rejected. *)
Definition checkExtname (extname : string) : option JsError :=
  match o_forbidExtnames options with
  | Some (Arr forbidExtnames) =>
      if negb (isEmpty forbidExtnames) &&
         inList (JS.toLowerCase extname) (map JS.toLowerCase forbidExtnames)
      then Some (extnameError extname forbidExtnames)
      else None
  | _ => None
  end.

(** The content-type check. *)
Definition checkContentType (file : FileInfo) : option JsError :=
  match o_allowedContentTypes options with
  | Some allowed =>
      match resolve allowed file with
      | Arr allowedContentTypes =>
          if negb (isEmpty allowedContentTypes) &&
             negb (inList (f_type file) allowedContentTypes)
          then Some (contentTypeError (f_type file) allowedContentTypes)
          else None
      | NotArray => None
      end
  | None => None
  end.

Definition withAcl (file : FileInfo) : FileInfo :=
  if truthyDynStr (o_acl options) then
    {| f_container := f_container file; f_name := f_name file;
       f_type := f_type file; f_field := f_field file;
       f_originalFilename := f_originalFilename file;
       f_acl := option_map (fun a => resolve a file) (o_acl options);
       f_size := f_size file; f_md5 := f_md5 file;
       f_sha256 := f_sha256 file;
       f_providerResponse := f_providerResponse file |}
  else file.

(** A part rejected before a writer exists: the closure has no listeners. *)
Definition rejectPart (part : Part) (file : FileInfo) (err : JsError)
                      (st : State) : State :=
  let id := length (up_parts st) in
  let st := set_parts (up_parts st ++
                         [IsFile {| c_part := part; c_file := file;
                                    c_maxFileSize := 0; c_fileSize := 0;
                                    c_hashed := []; c_writer := None |}]) st in
  let st := set_current (Some id) st in
  formError err st.

(** The [file] object as [handlePart] first builds it. *)
Definition newFileInfo (part : Part) (filename : string) : FileInfo :=
  {| f_container := container; f_name := filename;
     f_type := part_mime part; f_field := part_name part;
     f_originalFilename := None; f_acl := None; f_size := None;
     f_md5 := None; f_sha256 := None;
     f_providerResponse := None |}.

(** The file branch of [handlePart]. *)
Definition beginFile (part : Part) (filename : string) (st : State) : State :=
  let id := length (up_parts st) in
  let st := set_flushing (S (up_flushing st)) st in
  let file := newFileInfo part filename in
  let extname := Path.extname filename in
  let '(file, uuids) := nameFile file (up_uuids st) in
  let st := set_uuids uuids st in
  let st := set_filename (Some (f_name file)) st in
  match checkExtname extname with
  | Some err => rejectPart part file err st
  | None =>
      match checkContentType file with
      | Some err => rejectPart part file err st
      | None =>
          let maxFileSize := resolve (effectiveMaxFileSize options) file in
          let file := withAcl file in
          let '(tr, writer) := upload root container (f_name file) None in
          let st := set_backend (up_backend st ++ tr) st in
          let st := set_store (applyFs tr (up_store st)) st in
          let st := set_writer (Some id) st in
          let st := set_parts
                      (up_parts st ++
                         [IsFile {| c_part := part; c_file := file;
                                    c_maxFileSize := maxFileSize;
                                    c_fileSize := 0; c_hashed := [];
                                    c_writer :=
                                      Some {| w_stream := writer;
                                              w_ended := false;
                                              w_destroyed := false;
                                              w_finished := false |} |}]) st in
          set_current (Some id) st
      end
  end.

(** [form.handlePart(part)] *)
Definition handlePart (part : Part) (st : State) : State :=
  match part_filename part with
  | None => beginField part st
  | Some filename =>
      if String.eqb filename "" then beginField part st
      else beginFile part filename st
  end.

(** The [data] listener of a field part. *)
Definition fieldData (id : nat) (d : FieldCtx) (buffer : list Byte.byte)
                     (st : State) : State :=
  let st := set_fieldsSize (up_fieldsSize st + Z.of_nat (length buffer)) st in
  if maxFieldsSize <? up_fieldsSize st
  then formError (fieldsSizeError (up_fieldsSize st)) st
  else
    let '(dec, text) := decoder_write env (d_decoder d) buffer in
    set_parts (<[id := IsField {| d_part := d_part d;
                                  d_value := d_value d +:+ text;
                                  d_decoder := dec |}]> (up_parts st)) st.

(** The [end] listener of a field part. *)
Definition fieldEnd (d : FieldCtx) (st : State) : State :=
  set_fields (pushTo (part_name (d_part d)) (d_value d) (up_fields st)) st.

Definition withSize (size : Z) (file : FileInfo) : FileInfo :=
  {| f_container := f_container file; f_name := f_name file;
     f_type := f_type file; f_field := f_field file;
     f_originalFilename := f_originalFilename file; f_acl := f_acl file;
     f_size := Some size; f_md5 := f_md5 file; f_sha256 := f_sha256 file;
     f_providerResponse := f_providerResponse file |}.

Definition withDigests (md5 sha256 : string) (file : FileInfo) : FileInfo :=
  {| f_container := f_container file; f_name := f_name file;
     f_type := f_type file; f_field := f_field file;
     f_originalFilename := f_originalFilename file; f_acl := f_acl file;
     f_size := f_size file; f_md5 := Some md5; f_sha256 := Some sha256;
     f_providerResponse := f_providerResponse file |}.

Definition withProviderResponse (r : JsVal) (file : FileInfo) : FileInfo :=
  {| f_container := f_container file; f_name := f_name file;
     f_type := f_type file; f_field := f_field file;
     f_originalFilename := f_originalFilename file; f_acl := f_acl file;
     f_size := f_size file; f_md5 := f_md5 file; f_sha256 := f_sha256 file;
     f_providerResponse := Some r |}.

(** The first [data] listener of a file part, installed when
    [maxFileSize] is truthy: count, record the size, reject past the limit. *)
Definition meterData (id : nat) (buffer : list Byte.byte) (st : State) : State :=
  match up_parts st !! id with
  | Some (IsFile c) =>
      if c_maxFileSize c =? 0 then st
      else
        let fileSize := c_fileSize c + Z.of_nat (length buffer) in
        let st :=
          updateFile id
            (fun c => {| c_part := c_part c;
                         c_file := withSize fileSize (c_file c);
                         c_maxFileSize := c_maxFileSize c;
                         c_fileSize := fileSize;
                         c_hashed := c_hashed c;
                         c_writer := c_writer c |}) st in
        if c_maxFileSize c <? fileSize
        then formError (sizeError fileSize (c_maxFileSize c)) st
        else st
  | _ => st
  end.

(** The second [data] listener: both digests take the chunk. *)
Definition hashData (id : nat) (buffer : list Byte.byte) (st : State) : State :=
  updateFile id
    (fun c => {| c_part := c_part c; c_file := c_file c;
                 c_maxFileSize := c_maxFileSize c;
                 c_fileSize := c_fileSize c;
                 c_hashed := c_hashed c ++ buffer;
                 c_writer := c_writer c |}) st.

(** The listener installed by [part.pipe(writer, {end: false})]: the chunk
    goes to the writer while it is writable. *)
Definition pipeData (id : nat) (buffer : list Byte.byte) (st : State) : State :=
  match up_parts st !! id with
  | Some (IsFile c) =>
      match c_writer c with
      | Some w =>
          match w_stream w with
          | WFileStream path _ =>
              if w_destroyed w || w_ended w then st
              else set_store (alter (fun data => data ++ buffer) path
                                    (up_store st)) st
          | WErrorStream _ => st
          end
      | None => st
      end
  | _ => st
  end.

(** [part.emit('data', buffer)] for the part being parsed. *)
Definition onData (buffer : list Byte.byte) (st : State) : State :=
  match up_current st with
  | None => st
  | Some id =>
      match up_parts st !! id with
      | Some (IsField d) => fieldData id d buffer st
      | Some (IsFile c) =>
          match c_writer c with
          | Some _ => pipeData id buffer (hashData id buffer (meterData id buffer st))
          | None => st
          end
      | None => st
      end
  end.

(** The [end] listener of a file part: [writer.end()], then the digests. *)
Definition fileEnd (id : nat) (st : State) : State :=
  updateFile id
    (fun c => {| c_part := c_part c;
                 c_file := withDigests (md5hex env (c_hashed c))
                                       (sha256hex env (c_hashed c)) (c_file c);
                 c_maxFileSize := c_maxFileSize c;
                 c_fileSize := c_fileSize c;
                 c_hashed := c_hashed c;
                 c_writer :=
                   option_map
                     (fun w => {| w_stream := w_stream w;
                                  w_ended := negb (w_destroyed w) || w_ended w;
                                  w_destroyed := w_destroyed w;
                                  w_finished := w_finished w |})
                     (c_writer c) |}) st.

(** [part.emit('end')] for the part being parsed. *)
Definition onEnd (st : State) : State :=
  match up_current st with
  | None => st
  | Some id =>
      let st' :=
        match up_parts st !! id with
        | Some (IsField d) => fieldEnd d st
        | Some (IsFile c) =>
            match c_writer c with
            | Some _ => fileEnd id st
            | None => st
            end
        | None => st
        end in
      set_current None st'
  end.

(** [endFunc(providerFile)], run by the [success] listener of the writer;
    the filesystem provider emits [success] without an argument. *)
Definition endFunc (id : nat) (c : FileCtx) (st : State) : State :=
  let st := set_flushing (pred (up_flushing st)) st in
  let st := updateFile id
              (fun c => {| c_part := c_part c;
                           c_file := withProviderResponse VUndef (c_file c);
                           c_maxFileSize := c_maxFileSize c;
                           c_fileSize := c_fileSize c;
                           c_hashed := c_hashed c;
                           c_writer :=
                             option_map
                               (fun w => {| w_stream := w_stream w;
                                            w_ended := w_ended w;
                                            w_destroyed := w_destroyed w;
                                            w_finished := true |})
                               (c_writer c) |}) st in
  let st := set_files (pushTo (part_name (c_part c)) id (up_files st)) st in
  let st := set_parsedFiles (up_parsedFiles st ++ [part_name (c_part c)]) st in
  maybeEnd st.

(** One event of the upload. The writer of a part has listeners for
    [error] and [success] only; [close] has none. *)
Definition step (st : State) (ev : Event) : State :=
  match ev with
  | EvPart part => handlePart part st
  | EvData buffer => onData buffer st
  | EvEnd => onEnd st
  | EvRequestEnd => maybeEnd (set_ended true st)
  | EvRequestError err => formError err st
  | EvWriterSuccess id =>
      match up_parts st !! id with
      | Some (IsFile c) =>
          match c_writer c with
          | Some _ => endFunc id c st
          | None => st
          end
      | _ => st
      end
  | EvWriterError id err =>
      match writerOf st id with
      | Some _ => emitError err st
      | None => st
      end
  | EvWriterClose _ => st
  end.

(** When an event can happen. The parser handles one part at a time; it
    takes no chunk once an error is recorded, but goes on through the chunk
    it is parsing, so parts, data and ends may still follow an error. The
    end of the request is ignored once an error is recorded. A write stream
    finishes (and the provider signals [success]) only after [end()] was
    called on it, in a later turn of the event loop, and never once
    destroyed. *)
Definition enabled (st : State) (ev : Event) : bool :=
  match ev with
  | EvPart _ =>
      negb (up_ended st) && bool_decide (up_current st = None)
  | EvData _ | EvEnd =>
      bool_decide (is_Some (up_current st))
  | EvRequestEnd =>
      bool_decide (up_error st = None) && negb (up_ended st) &&
      bool_decide (up_current st = None)
  | EvRequestError _ => true
  | EvWriterSuccess id =>
      match writerOf st id with
      | Some w =>
          match w_stream w with
          | WFileStream _ _ =>
              w_ended w && negb (w_destroyed w) && negb (w_finished w)
          | WErrorStream _ => false
          end
      | None => false
      end
  | EvWriterError id _ | EvWriterClose id =>
      bool_decide (is_Some (writerOf st id))
  end.

(** A run: every event must be enabled when it happens. *)
Fixpoint run (st : State) (evs : list Event) : option State :=
  match evs with
  | [] => Some st
  | ev :: evs' => if enabled st ev then run (step st ev) evs' else None
  end.

(** The state in which [upload] leaves the form before the first event. *)
Definition init (store : gmap string (list Byte.byte)) : State :=
  {| up_error := None; up_ended := false; up_flushing := 0;
     up_fieldsSize := 0; up_filename := None; up_writer := None;
     up_fields := ∅; up_files := ∅; up_parsedFiles := [];
     up_parts := []; up_current := None; up_uuids := 0;
     up_callbacks := []; up_console := []; up_backend := [];
     up_store := store |}.



(** What the error path leaves alone. *)
Definition sameForm (st st' : State) : Prop :=
  up_files st' = up_files st ∧ up_current st' = up_current st ∧
  up_ended st' = up_ended st ∧ up_flushing st' = up_flushing st ∧
  up_parsedFiles st' = up_parsedFiles st ∧ up_fields st' = up_fields st ∧
  up_filename st' = up_filename st ∧ up_writer st' = up_writer st ∧
  up_uuids st' = up_uuids st ∧ up_fieldsSize st' = up_fieldsSize st ∧
  length (up_parts st') = length (up_parts st).

(** *** Invariants of an upload *)

(** Both digests of the file are those of the bytes hashed so far. *)
Definition digestsFinal (c : FileCtx) : Prop :=
  f_md5 (c_file c) = Some (md5hex env (c_hashed c)) ∧
  f_sha256 (c_file c) = Some (sha256hex env (c_hashed c)).

(** Once [end()] was called on the writer of a part, the part is no longer
    the one being parsed and its digests are final. *)
Definition partsOK (st : State) : Prop :=
  forall id c w,
    up_parts st !! id = Some (IsFile c) -> c_writer c = Some w ->
    w_ended w = true ->
    digestsFinal c ∧ up_current st <> Some id.

(** Every listed file belongs to a part whose writer was ended and has
    signalled success. *)
Definition listedOK (st : State) : Prop :=
  forall field ids id,
    up_files st !! field = Some ids -> id ∈ ids ->
    exists c w,
      up_parts st !! id = Some (IsFile c) ∧ c_writer c = Some w ∧
      w_finished w = true ∧ w_ended w = true.

(** The two invariants together. *)
Definition Inv (st : State) : Prop := partsOK st ∧ listedOK st.


(** [form.writer] and [form.filename] are those of the part being parsed,
    and every writer is the stream the provider returned for the stored
    name of its part. *)
Definition writersOK (st : State) : Prop :=
  forall id c w,
    up_parts st !! id = Some (IsFile c) -> c_writer c = Some w ->
    w_stream w = snd (upload root container (f_name (c_file c)) None) ∧
    (up_current st = Some id ->
     up_writer st = Some id ∧ up_filename st = Some (f_name (c_file c))).

(** The limit of a part is the effective [maxFileSize], resolved for its
    file; when the limit is not zero, the byte count of the part is the
    number of bytes hashed for it. *)
Definition sizesOK (st : State) : Prop :=
  forall id c w,
    up_parts st !! id = Some (IsFile c) -> c_writer c = Some w ->
    (exists file, c_maxFileSize c = resolve (effectiveMaxFileSize options) file) ∧
    (c_maxFileSize c <> 0 -> c_fileSize c = Z.of_nat (length (c_hashed c))).

(** The part with index [id] is referenced from [files]. *)
Definition listed (st : State) (id : nat) : Prop :=
  exists field ids, up_files st !! field = Some ids ∧ id ∈ ids.


End Handler.

(** What never changes in the closure of a part: the stored name, the
    size limit and the stream of the writer. *)
Definition static (p : PartCtx) : option (string * Z * option WriteStream) :=
  match p with
  | IsField _ => None
  | IsFile c =>
      Some (f_name (c_file c), c_maxFileSize c, option_map w_stream (c_writer c))
  end.

Definition hashedOf (p : PartCtx) : list Byte.byte :=
  match p with
  | IsFile c => c_hashed c
  | IsField _ => []
  end.

(** The byte count [fileSize] of a file part. *)
Definition sizeOf (p : PartCtx) : Z :=
  match p with
  | IsFile c => c_fileSize c
  | IsField _ => 0
  end.

Definition hasWriter (p : PartCtx) : bool :=
  match p with
  | IsFile c => bool_decide (is_Some (c_writer c))
  | IsField _ => false
  end.

(** The existing parts keep their static data, the bytes hashed and the
    byte count. *)
Definition keeps (st st' : State) : Prop :=
  forall id p,
    up_parts st !! id = Some p ->
    exists p', up_parts st' !! id = Some p' ∧ static p' = static p ∧
               hashedOf p' = hashedOf p ∧ sizeOf p' = sizeOf p ∧
               (forall d, p = IsField d -> exists d', p' = IsField d').

(** [st'] is [st] with one more part, now the one being parsed. *)
Definition opened (st st' : State) : Prop :=
  (exists p, up_parts st' !! length (up_parts st) = Some p ∧
             hashedOf p = [] ∧ sizeOf p = 0) ∧
  length (up_parts st') = S (length (up_parts st)) ∧
  up_current st' = Some (length (up_parts st)) ∧
  keeps st st'.

(** Everything but the parts and the count of field bytes is the same. *)
Definition sameOutside (st st' : State) : Prop :=
  up_error st' = up_error st ∧ up_ended st' = up_ended st ∧
  up_flushing st' = up_flushing st ∧ up_filename st' = up_filename st ∧
  up_writer st' = up_writer st ∧ up_fields st' = up_fields st ∧
  up_files st' = up_files st ∧ up_parsedFiles st' = up_parsedFiles st ∧
  up_current st' = up_current st ∧ up_uuids st' = up_uuids st ∧
  up_callbacks st' = up_callbacks st ∧ up_console st' = up_console st ∧
  up_backend st' = up_backend st ∧ up_store st' = up_store st.

(** The part being parsed exists. *)
Definition curOK (st : State) : Prop :=
  forall id, up_current st = Some id -> (id < length (up_parts st))%nat.


(** A path the upload handler may act on: the file of a name that passes
    validation, in the container of the upload, whose name passes too. *)
Definition managed (root : string) (options : Options) (reqContainer : string)
                   (p : string) : Prop :=
  validName host (container options reqContainer) = true ∧
  exists name, validName host name = true ∧
               p = Path.join [root; container options reqContainer; name].

(** The filesystem calls in [tr] create or unlink managed paths only. *)
Definition managedCalls (root : string) (options : Options) (reqContainer : string)
                        (tr : list action) : Prop :=
  forall a, Fs a ∈ tr ->
    exists p, managed root options reqContainer p ∧
              (a = CreateWriteStream p ∨ a = Unlink p).

(** From [st] to [st'] the store changes at managed paths only, and the
    backend is asked for nothing but calls on managed paths. *)
Definition tame (root : string) (options : Options) (reqContainer : string)
                (st st' : State) : Prop :=
  (forall p, ¬ managed root options reqContainer p ->
             up_store st' !! p = up_store st !! p) ∧
  exists tr, up_backend st' = up_backend st ++ tr ∧
             managedCalls root options reqContainer tr.


(** What the count of parts being flushed depends on in a part: the field
    of a file part and whether its writer has signalled success. *)
Definition progress (p : PartCtx) : option (string * option bool) :=
  match p with
  | IsField _ => None
  | IsFile c => Some (part_name (c_part c), option_map w_finished (c_writer c))
  end.

(** A file part whose writer has not signalled success. *)
Definition isPending (p : PartCtx) : bool :=
  match p with
  | IsField _ => false
  | IsFile c =>
      match c_writer c with
      | Some w => negb (w_finished w)
      | None => true
      end
  end.

Definition pending (parts : list PartCtx) : nat :=
  length (filter (fun p => isPending p = true) parts).

(** [_flushing] counts the file parts whose writer has not signalled
    success; a part whose writer has is listed under its field; and once
    the callback has received a result, the request has ended and nothing
    is left to flush. *)
Definition settled (st : State) : Prop :=
  up_flushing st = pending (up_parts st) ∧
  (forall id c w,
     up_parts st !! id = Some (IsFile c) -> c_writer c = Some w ->
     w_finished w = true ->
     exists ids, up_files st !! part_name (c_part c) = Some ids ∧ id ∈ ids) ∧
  (forall files fields,
     CbOk files fields ∈ up_callbacks st ->
     up_ended st = true ∧ up_flushing st = 0%nat).

(** From [st] to [st'] no part changes its progress, and the count, the
    listed files, the end of the request and the results handed to the
    callback stay as they are. *)
Definition calm (st st' : State) : Prop :=
  progress <$> up_parts st' = progress <$> up_parts st ∧
  up_flushing st' = up_flushing st ∧ up_files st' = up_files st ∧
  up_ended st' = up_ended st ∧
  (forall files fields,
     CbOk files fields ∈ up_callbacks st' -> CbOk files fields ∈ up_callbacks st).



(** The bytes the parser delivers for the part with index [id], read off
    the events: parts are numbered in order of arrival, and [data] belongs
    to the part begun last. [next] is the index of the next part and [cur]
    the part being parsed. *)
Fixpoint receivedFrom (id next : nat) (cur : option nat) (evs : list Event)
  : list Byte.byte :=
  match evs with
  | [] => []
  | EvPart _ :: evs' => receivedFrom id (S next) (Some next) evs'
  | EvData buf :: evs' =>
      (if bool_decide (cur = Some id) then buf else [])
        ++ receivedFrom id next cur evs'
  | EvEnd :: evs' => receivedFrom id next None evs'
  | _ :: evs' => receivedFrom id next cur evs'
  end.

Definition received (evs : list Event) (id : nat) : list Byte.byte :=
  receivedFrom id 0 None evs.

(** *** Stand-ins for the examples *)

(** Digests, names and decoding that are easy to read in an example; the
    theorems hold for any [Env]. *)
Definition sampleEnv : Env :=
  {| md5hex bytes := "md5-of-" +:+ pretty (length bytes) +:+ "-bytes";
     sha256hex bytes := "sha256-of-" +:+ pretty (length bytes) +:+ "-bytes";
     uuid_v4 n := "uuid-" +:+ pretty n;
     decoder_write pending buffer :=
       ([], String.string_of_list_byte (pending ++ buffer)) |}.

Definition noOptions : Options :=
  {| o_container := None; o_maxFileSize := None; o_forbidExtnames := None;
     o_allowedContentTypes := None; o_getFilename := None;
     o_nameConflict := None; o_acl := None; o_aws := [] |}.

Definition samplePart : Part :=
  {| part_name := "image"; part_filename := Some "test.jpg";
     part_mime := "image/jpeg" |}.

(** [allowedContentTypes: []] *)
Definition emptyAllowList : Options :=
  {| o_container := None; o_maxFileSize := None; o_forbidExtnames := None;
     o_allowedContentTypes := Some (Fixed (Arr []));
     o_getFilename := None; o_nameConflict := None; o_acl := None;
     o_aws := [] |}.

(** [allowedContentTypes: ['image/png', 'image/jpeg']], as a function. *)
Definition imagesOnly : Options :=
  {| o_container := None; o_maxFileSize := None; o_forbidExtnames := None;
     o_allowedContentTypes :=
       Some (Computed (fun _ => Arr ["image/png"; "image/jpeg"]));
     o_getFilename := None; o_nameConflict := None; o_acl := None;
     o_aws := [] |}.

Definition textPart : Part :=
  {| part_name := "notes"; part_filename := Some "notes.txt";
     part_mime := "text/plain" |}.


(** [maxFileSize: 3] *)
Definition threeBytes : Options :=
  {| o_container := None; o_maxFileSize := Some (Fixed 3);
     o_forbidExtnames := None; o_allowedContentTypes := None;
     o_getFilename := None; o_nameConflict := None; o_acl := None;
     o_aws := [] |}.

(** An upload under [maxFileSize: 3]: two bytes have arrived. *)
Definition exceedPre : list Event :=
  [EvPart samplePart; EvData [Byte.x41; Byte.x42]].

Definition exceedState : State :=
  default (init ∅)
          (run sampleEnv "/srv/storage" threeBytes defaultMaxFieldsSize "album1"
               (init ∅) exceedPre).



(** What follows the chunk that passes the limit: the part ends, the
    client gives up, the destroyed writer closes. *)
Definition exceedPost : list Event :=
  [EvEnd; EvRequestError (newError "Request aborted"); EvWriterClose 0].

(** Two more bytes arrive, and the rest follows. *)
Definition exceedFinal : State :=
  default (init ∅)
          (run sampleEnv "/srv/storage" threeBytes defaultMaxFieldsSize "album1"
               exceedState (EvData [Byte.x43; Byte.x44] :: exceedPost)).

(** The same chunk goes on with another part of the same file name. *)
Definition exceedReopened : State :=
  default (init ∅)
          (run sampleEnv "/srv/storage" threeBytes defaultMaxFieldsSize "album1"
               exceedState
               [EvData [Byte.x43; Byte.x44]; EvEnd; EvPart samplePart]).


Definition sampleUpload : list Event :=
  [EvPart samplePart; EvData [Byte.x41; Byte.x42]; EvEnd; EvRequestEnd;
   EvWriterSuccess 0].

Definition sampleFinal : State :=
  default (init ∅)
          (run sampleEnv "/srv/storage" noOptions defaultMaxFieldsSize "album1"
               (init ∅) sampleUpload).

(** [forbidExtnames: ['.exe', '.bat']] *)
Definition noExecutables : Options :=
  {| o_container := None; o_maxFileSize := None;
     o_forbidExtnames := Some (Arr [".exe"; ".bat"]);
     o_allowedContentTypes := None; o_getFilename := None;
     o_nameConflict := None; o_acl := None; o_aws := [] |}.

Definition exePart : Part :=
  {| part_name := "tool"; part_filename := Some "Setup.EXE";
     part_mime := "application/octet-stream" |}.




(** Two files in one request; the writer of the second finishes first. *)
Definition twoFiles : list Event :=
  [EvPart samplePart; EvData [Byte.x41; Byte.x42]; EvEnd;
   EvPart textPart; EvData [Byte.x43]; EvEnd; EvRequestEnd;
   EvWriterSuccess 1; EvWriterSuccess 0].

Definition twoFilesFinal : State :=
  default (init ∅)
          (run sampleEnv "/srv/storage" noOptions defaultMaxFieldsSize "album1"
               (init ∅) twoFiles).

End Upload.

(** ** The connector: [initialize] *)

Module Connector.
Import FileSystemProvider.

(** A member of [StorageService.prototype] as the loop of [initialize] sees
    it: its value and, for a function, the enumerable properties the
    function carries (its remoting metadata). *)
Record Member := mkMember {
  m_value : JsVal;
  m_props : gmap string JsVal
}.

(** [method.bind(connector)] with the properties of [method] copied onto
    it by the inner loop. *)
Definition bound (method : Member) : gmap string JsVal :=
  foldl (fun f kv => <[kv.1 := kv.2]> f) ∅ (map_to_list (m_props method)).

(** The members [initialize] puts on [connector.DataAccessObject]. *)
Definition dataAccessObject (prototype : gmap string Member)
  : gmap string (gmap string JsVal) :=
  foldl (fun dao mm =>
           if isFunction (m_value mm.2) then <[mm.1 := bound mm.2]> dao
           else dao)
        ∅ (map_to_list prototype).

(** A prototype with two methods and a constant. *)
Definition samplePrototype : gmap string Member :=
  {[ "upload" := {| m_value := VFun "upload";
                    m_props := {[ "http" := VObj "post /:container/upload";
                                  "shared" := VNum 1 ]} |};
     "download" := {| m_value := VFun "download";
                      m_props := {[ "http" := VObj "get /:container/download/:file" ]} |};
     "version" := {| m_value := VStr "3"; m_props := ∅ |} ]}.

End Connector.

(** * Part II: properties *)

(** ** Facts about the string primitives *)

Module JSFacts.
Import JS.







Lemma app_assoc (s t u : string) : (s +:+ t) +:+ u = s +:+ (t +:+ u).
Proof.
  induction s as [|a s IH]; [done|].
  change (String a ((s +:+ t) +:+ u) = String a (s +:+ (t +:+ u))).
  by rewrite IH.
Qed.

Lemma app_nil_r (s : string) : s +:+ "" = s.
Proof.
  induction s as [|a s IH]; [done|].
  change (String a (s +:+ "") = String a s). by rewrite IH.
Qed.


(** *** Splitting and joining *)

Lemma split_nonempty c s : split c s <> [].
Proof.
  destruct s as [|b s]; [done|]. cbn.
  destruct (Ascii.eqb b c); [done|]. by destruct (split c s).
Qed.

Lemma split_app c s t : split c (s +:+ String c t) = split c s ++ split c t.
Proof.
  induction s as [|b s IH].
  - change (split c (String c t) = [EmptyString] ++ split c t).
    cbn [split]. by rewrite Ascii.eqb_refl.
  - change (split c (String b (s +:+ String c t)) =
            split c (String b s) ++ split c t).
    cbn [split]. rewrite IH. destruct (Ascii.eqb b c); [done|].
    pose proof (split_nonempty c s) as Hne.
    by destruct (split c s).
Qed.

Lemma split_none c s : hasChar c s = false -> split c s = [s].
Proof.
  induction s as [|b s IH]; [done|]. cbn. intros H.
  apply orb_false_iff in H as [Hb Hs]. rewrite Ascii.eqb_sym, Hb.
  by rewrite (IH Hs).
Qed.

Lemma split_join c x (names : list string) :
  Forall (fun n => hasChar c n = false) names ->
  split c (join (String c EmptyString) (x :: names)) = split c x ++ names.
Proof.
  revert x. induction names as [|n ns IH]; intros x Hn.
  - cbn. by rewrite List.app_nil_r.
  - apply Forall_cons in Hn as [Hn Hns].
    change (join (String c EmptyString) (x :: n :: ns))
      with (x +:+ String c (join (String c EmptyString) (n :: ns))).
    rewrite split_app, (IH n Hns), (split_none c n Hn). done.
Qed.


End JSFacts.

(** ** Facts about [path] *)

Module PathFacts.
Import Path.

Example join_ex1 : join ["/srv/storage"; "album1"; "test.jpg"] = "/srv/storage/album1/test.jpg".
Proof. reflexivity. Qed.
Example join_ex2 : join ["/srv/storage"; ".."; "passwd"] = "/srv/passwd".
Proof. reflexivity. Qed.
Example extname_ex1 : extname "test.HEHE" = ".HEHE".
Proof. reflexivity. Qed.
Example extname_ex2 : extname ".bashrc" = "".
Proof. reflexivity. Qed.
Example extname_ex3 : extname "a/b.tar.gz" = ".gz".
Proof. reflexivity. Qed.
Example basename_ex : basename "dir/sub/f.txt" = "f.txt".
Proof. reflexivity. Qed.



(** *** Joining names that hold no separator *)

Lemma normSegs_app a acc l1 l2 :
  normSegs a acc (l1 ++ l2) = normSegs a (rev (normSegs a acc l1)) l2.
Proof.
  revert acc. induction l1 as [|seg l1 IH]; intros acc.
  - cbn. by rewrite rev_involutive.
  - cbn [app normSegs].
    destruct (String.eqb seg "" || String.eqb seg "."); [apply IH|].
    destruct (String.eqb seg ".."); [|apply IH].
    destruct acc as [|l acc]; [destruct a; apply IH|].
    destruct (String.eqb l ".."); apply IH.
Qed.

Lemma normSegs_names a acc (names : list string) :
  Forall (fun n => n <> "" ∧ n <> "..") names ->
  normSegs a acc names = rev acc ++ filter (fun n => n <> ".") names.
Proof.
  revert acc. induction names as [|n ns IH]; intros acc Hn.
  - cbn. by rewrite app_nil_r.
  - apply Forall_cons in Hn as [[Hn1 Hn2] Hns]. cbn [normSegs].
    destruct (String.eqb_spec n ""); [done|].
    destruct (String.eqb_spec n ".") as [->|Hdot]; cbn [orb].
    + rewrite (IH _ Hns). by rewrite filter_cons_False by (by intros ?).
    + destruct (String.eqb_spec n ".."); [done|].
      rewrite (IH _ Hns), filter_cons_True by done. cbn [rev].
      by rewrite <- app_assoc.
Qed.

Lemma endsWithSlash_app s t : t <> "" -> endsWithSlash (s +:+ t) = endsWithSlash t.
Proof.
  intros Ht. induction s as [|c s IH]; [done|].
  change (endsWithSlash (String c (s +:+ t)) = endsWithSlash t).
  cbn [endsWithSlash]. rewrite IH.
  destruct (s +:+ t) eqn:E; [|done].
  destruct s; [by cbn in E|discriminate].
Qed.

Lemma endsWithSlash_none n : JS.hasChar "/" n = false -> endsWithSlash n = false.
Proof.
  induction n as [|c n IH]; [done|]. cbn. intros H.
  apply orb_false_iff in H as [Hc Hn]. rewrite (IH Hn).
  destruct n; [|done]. by rewrite Ascii.eqb_sym.
Qed.

Lemma endsWithSlash_join x (names : list string) :
  names <> [] ->
  Forall (fun n => n <> "" ∧ JS.hasChar "/" n = false) names ->
  endsWithSlash (JS.join "/" (x :: names)) = false.
Proof.
  revert x. induction names as [|n ns IH]; intros x Hne Hn; [done|].
  apply Forall_cons in Hn as [[Hn1 Hn2] Hns].
  change (JS.join "/" (x :: n :: ns)) with (x +:+ "/" +:+ JS.join "/" (n :: ns)).
  destruct ns as [|m ns].
  - cbn [JS.join]. rewrite endsWithSlash_app by (by destruct n).
    change ("/" +:+ n) with (String "/" n).
    cbn [endsWithSlash]. destruct n; [done|]. by apply endsWithSlash_none.
  - rewrite endsWithSlash_app.
    + change ("/" +:+ JS.join "/" (n :: m :: ns))
        with (String "/" (JS.join "/" (n :: m :: ns))).
      cbn [endsWithSlash]. rewrite (IH n) by done.
      change (JS.join "/" (n :: m :: ns)) with (n +:+ "/" +:+ JS.join "/" (m :: ns)).
      by destruct n.
    + done.
Qed.

(** The path joined from an absolute root and names that are non-empty,
    hold no slash and are not [..]: the segments of the normalized root,
    then the names, those equal to [.] left out. *)
Lemma join_names root (names : list string) :
  isAbsolute root = true -> names <> [] ->
  Forall (fun n => n <> "" ∧ n <> ".." ∧ JS.hasChar "/" n = false) names ->
  join (root :: names) =
    "/" +:+ JS.join "/" (normSegs false [] (JS.split "/" root)
                          ++ filter (fun n => n <> ".") names).
Proof.
  intros Habs Hne Hn.
  assert (Hkeep : filter (fun a : string => a <> EmptyString) names = names).
  { clear Hne. induction names as [|n ns IH]; [done|].
    apply Forall_cons in Hn as [[Hn1 _] Hns].
    by rewrite filter_cons_True, IH by done. }
  destruct root as [|c root]; [discriminate|].
  unfold join. rewrite filter_cons_True, Hkeep by done.
  set (p := JS.join "/" (String c root :: names)).
  assert (Hp : exists t, p = String c t).
  { subst p. destruct names as [|n ns]; [done|].
    change (JS.join "/" (String c root :: n :: ns))
      with (String c (root +:+ "/" +:+ JS.join "/" (n :: ns))).
    by eexists. }
  destruct Hp as [t Hp].
  assert (Hsplit : JS.split "/" p =
                   JS.split "/" (String c root) ++ names).
  { subst p. apply (JSFacts.split_join "/"%char).
    eapply Forall_impl; [exact Hn|]. by intros n (_ & _ & ?). }
  assert (Htrail : endsWithSlash p = false).
  { subst p. apply endsWithSlash_join; [done|].
    eapply Forall_impl; [exact Hn|]. by intros n (? & _ & ?). }
  unfold normalize. rewrite Htrail, Hsplit, Hp.
  change (String.eqb (String c t) "") with false. cbn [isAbsolute] in *.
  destruct c as [[] [] [] [] [] [] [] []]; try discriminate. cbn [negb].
  rewrite normSegs_app, normSegs_names, rev_involutive.
  - by destruct (String.eqb _ "") eqn:E; [apply String.eqb_eq in E as ->|].
  - eapply Forall_impl; [exact Hn|]. by intros n (? & ? & _).
Qed.

(** *** The directory of the main script *)

Lemma dirname_absolute p : isAbsolute p = true -> isAbsolute (dirname p) = true.
Proof.
  destruct p as [|c t]; [done|]. cbn [isAbsolute]. intros Hc.
  destruct c as [[] [] [] [] [] [] [] []]; try discriminate.
  unfold dirname. cbn.
  destruct (dirPrefix t) as [d|]; [|done]. by destruct (String.eqb d "").
Qed.

Lemma join_isAbsolute base rest :
  isAbsolute base = true -> isAbsolute (join (base :: rest)) = true.
Proof.
  intros Habs. destruct base as [|c base]; [discriminate|].
  unfold join. rewrite filter_cons_True by done.
  set (p := JS.join "/" (String c base :: filter _ rest)).
  assert (Hp : isAbsolute p = true ∧ p <> "").
  { subst p. destruct (filter _ rest) as [|x l]; [done|].
    change (JS.join "/" (String c base :: x :: l))
      with (String c (base +:+ "/" +:+ JS.join "/" (x :: l))). done. }
  destruct Hp as [Hp Hne]. unfold normalize.
  destruct (String.eqb_spec p ""); [done|]. rewrite Hp. cbn [negb].
  destruct (String.eqb _ ""); [done|]. by destruct (endsWithSlash p).
Qed.

End PathFacts.

(** ** The filesystem provider *)

Module ProviderFacts.
Import FileSystemProvider.

Example validateName_ex1 : validName Path.posix "album1" = true.
Proof. reflexivity. Qed.
Example validateName_ex2 : validName Path.posix ".." = false.
Proof. reflexivity. Qed.
Example validateName_ex3 : validName Path.posix "a/../b" = false.
Proof. reflexivity. Qed.
Example validateName_ex4 : validName Path.posix "a/b" = false.
Proof. reflexivity. Qed.
Example validateName_ex5 : validName Path.posix "" = false.
Proof. reflexivity. Qed.
Example validateName_ex6 : validName Path.posix "..\x" = false.
Proof. reflexivity. Qed.
Example validateName_ex7 : validName Path.posix "a..b" = true.
Proof. reflexivity. Qed.
(** With [path.sep] a backslash, the backslash escapes the slash inside
    the class of [namePattern]: the class still excludes the slash only. *)
Example validateName_ex8 : validName Path.win32 "a\b" = true.
Proof. reflexivity. Qed.

(** *** The name validator *)

Lemma excluded_slash pf c : namePattern_excluded pf c = Ascii.eqb c "/".
Proof.
  destruct pf; unfold namePattern_excluded; simpl;
    destruct (Ascii.eqb c "/"); reflexivity.
Qed.

Lemma takeRun_length pf s :
  String.length (takeRun (namePattern_excluded pf) s) = String.length s <->
  JS.hasChar "/" s = false.
Proof.
  induction s as [|c s IH]; [done|].
  cbn [takeRun String.length JS.hasChar].
  rewrite excluded_slash, (Ascii.eqb_sym "/" c).
  destruct (Ascii.eqb c "/"); cbn [orb String.length].
  - split; [lia|discriminate].
  - rewrite <- IH. split; [by intros [= ->]|by intros ->].
Qed.

Lemma namePattern_whole pf s :
  s <> EmptyString ->
  (match namePattern_exec pf s with
   | Some (index, m) =>
       Nat.eqb index 0 && Nat.eqb (String.length m) (String.length s)
   | None => false
   end = true) <-> JS.hasChar "/" s = false.
Proof.
  destruct s as [|c s]; [done|intros _].
  pose proof (takeRun_length pf (String c s)) as Hrun.
  cbn [namePattern_exec]. cbn [takeRun JS.hasChar] in *.
  rewrite excluded_slash in *. rewrite (Ascii.eqb_sym "/" c) in *.
  destruct (Ascii.eqb c "/"); cbn [orb] in *.
  - split; [|discriminate].
    destruct (namePattern_exec pf s) as [[i m]|]; discriminate.
  - cbn [Nat.eqb andb]. rewrite Nat.eqb_eq. exact Hrun.
Qed.

Lemma segments_cons c s :
  segments (String c s) =
  if isSlash c then EmptyString :: segments s
  else String c (hd EmptyString (segments s)) :: tl (segments s).
Proof.
  cbn [segments]. destruct (isSlash c); [done|].
  destruct s as [|b s]; [done|]. cbn [segments].
  destruct (isSlash b); [done|]. by destruct (segments s).
Qed.

Lemma segments_head s : hd EmptyString (segments s) = takeRun isSlash s.
Proof.
  induction s as [|c s IH]; [done|].
  rewrite segments_cons. cbn [takeRun].
  destruct (isSlash c); [done|]. cbn [hd]. by rewrite IH.
Qed.

Lemma dotdotHere_run s : dotdotHere s = true <-> takeRun isSlash s = "..".
Proof.
  destruct s as [|c1 [|c2 [|c3 s]]]; cbn [dotdotHere takeRun];
    repeat match goal with
    | |- context [Ascii.eqb ?c "."] =>
        is_var c; destruct (Ascii.eqb_spec c "."); subst
    end;
    repeat match goal with
    | |- context [isSlash ?c] => is_var c; destruct (isSlash c) eqn:?
    end;
    cbn; split; intros; try discriminate; try congruence.
Qed.

Lemma dotdotAfterSlash_tail s :
  dotdotAfterSlash s = true <-> ".." ∈ tl (segments s).
Proof.
  induction s as [|c s IH]; cbn [dotdotAfterSlash].
  - cbn. split; [discriminate|]. by intros ?%elem_of_nil.
  - rewrite segments_cons.
    destruct (isSlash c); cbn [andb tl].
    + rewrite orb_true_iff, IH, dotdotHere_run, <- segments_head.
      destruct (segments s) as [|w ws]; cbn [hd tl].
      * split; [intros [?|?%elem_of_nil]; done|by intros ?%elem_of_nil].
      * rewrite elem_of_cons. split; intros [?|?]; auto.
    + cbn [orb]. exact IH.
Qed.

Lemma containsDotDotPaths_segments s :
  containsDotDotPaths s = true <-> ".." ∈ segments s.
Proof.
  unfold containsDotDotPaths.
  rewrite orb_true_iff, dotdotHere_run, dotdotAfterSlash_tail, <- segments_head.
  destruct (segments s) as [|w ws] eqn:Hs; cbn [hd tl].
  - destruct s as [|c s]; [discriminate|].
    rewrite segments_cons in Hs. by destruct (isSlash c).
  - rewrite elem_of_cons. split; intros [?|?]; auto.
Qed.


Lemma validName_iff pf name :
  validName pf name = true <-> singleSafeSegment name.
Proof.
  unfold validName, validateName, singleSafeSegment.
  rewrite <- containsDotDotPaths_segments.
  destruct (String.eqb_spec name "") as [->|Hne]; cbn [orb].
  { split; [discriminate|]. by intros [? _]. }
  destruct (containsDotDotPaths name) eqn:Hdd.
  { cbn. split; [discriminate|]. by intros (_ & ? & _). }
  rewrite <- (namePattern_whole pf name Hne).
  destruct (namePattern_exec pf name) as [[i m]|]; cbn [fst].
  - destruct (Nat.eqb i 0 && Nat.eqb (String.length m) (String.length name));
      cbn [fst]; split; try done; intros (_ & _ & ?); done.
  - split; [discriminate|]. intros (_ & _ & ?); done.
Qed.



(** *** Metadata *)





Lemma exposed_not_name_keys k :
  exposed k = true -> k <> "name" ∧ k <> "container" ∧ k <> "client".
Proof.
  unfold exposed. intros H. repeat split; intros ->; discriminate.
Qed.






(** *** Which operations validate their names *)

Example getFile_sample :
  fst (getFile "/srv/storage" (sampleFs []) "album1" "test.jpg") =
    [Validate "album1" true; Validate "test.jpg" true;
     Join ["/srv/storage"; "album1"; "test.jpg"];
     Fs (Stat "/srv/storage/album1/test.jpg")] ∧
  exists rec,
    snd (getFile "/srv/storage" (sampleFs []) "album1" "test.jpg") = Done rec ∧
    rec !! "name" = Some (VStr "test.jpg") ∧
    rec !! "size" = Some (VNum 0) ∧
    rec !! "uid" = None.
Proof.
  split; [reflexivity|]. eexists. split; [reflexivity|].
  repeat split; vm_compute; reflexivity.
Qed.

(** X1. The operations other than [getUrl] start by validating every name they
    are given ([createContainer] joins the path first but calls validation
    before [mkdir]); a rejected name ends the operation with an error and
    without any filesystem call. *)
Lemma siblings_validate_first (root : string) (fs : FsOracle) (c f : string)
                              (flags : option string) (s e : option JS.num) :
  guarded [c] [Join [root; c]] (fst (createContainer root fs c))
          (exists err, snd (createContainer root fs c) = Failed err) ∧
  guarded [c] [] (fst (destroyContainer root fs c))
          (exists err, snd (destroyContainer root fs c) = Failed err) ∧
  guarded [c] [] (fst (getContainer root fs c))
          (exists err, snd (getContainer root fs c) = Failed err) ∧
  guarded [c] [] (fst (getFiles root fs c))
          (exists err, snd (getFiles root fs c) = Failed err) ∧
  guarded [c; f] [] (fst (getFile root fs c f))
          (exists err, snd (getFile root fs c f) = Failed err) ∧
  guarded [c; f] [] (fst (removeFile root fs c f))
          (exists err, snd (removeFile root fs c f) = Failed err) ∧
  guarded [c; f] [] (fst (upload root c f flags))
          (exists err, snd (upload root c f flags) = WErrorStream err) ∧
  guarded [c; f] [] (fst (download root c f s e))
          (exists err, snd (download root c f s e) = RErrorStream err).
Proof.
  unfold guarded, createContainer, destroyContainer, getContainer, getFiles,
    getFile, removeFile, upload, download, statAll.
  cbn [forallb]. rewrite !andb_true_r.
  destruct (validName host c) eqn:Hc; cbn [andb].
  - repeat split.
    + destruct (fs_mkdir fs _); by eexists.
    + destruct (omap _ _); by eexists.
    + by eexists.
    + by eexists.
    + destruct (validName host f); [by eexists|].
      split; [|by eexists]. repeat constructor; by intros [].
    + destruct (validName host f); [by eexists|].
      split; [|by eexists]. repeat constructor; by intros [].
    + destruct (validName host f); [by eexists|].
      split; [|by eexists]. repeat constructor; by intros [].
    + destruct (validName host f); [by eexists|].
      split; [|by eexists]. repeat constructor; by intros [].
  - repeat split; try (by eexists); repeat constructor; by intros [].
Qed.

(** C3. [getUrl] builds and returns the path under the storage root from
    the names it is given without running the name validator and without
    reporting an error: for the container name [..], which the validator
    rejects, it returns a path outside the root. *)
Theorem getUrl_not_validated :
  (forall root container path name ok,
     Validate name ok ∉ fst (getUrl root container path)) ∧
  validName host ".." = false ∧
  getUrl "/srv/storage" ".." "passwd" =
    ([Join ["/srv/storage"; ".."; "passwd"]], "/srv/passwd").
Proof.
  split; [|split; reflexivity].
  intros root container path name ok H. cbn in H.
  apply list_elem_of_singleton in H. discriminate.
Qed.

(** *** Where validated names lead *)

Lemma validName_plain name :
  validName host name = true ->
  name <> "" ∧ name <> ".." ∧ JS.hasChar "/" name = false.
Proof.
  intros H. apply validName_iff in H as (Hne & Hdd & Hslash).
  repeat split; try done. intros ->. apply Hdd. cbn.
  apply list_elem_of_singleton. reflexivity.
Qed.

(** X2. Every path the provider joins from an absolute root and validated
    names is made of the segments of the normalized root followed by the
    names: nothing climbs out of the root. A name [.] is valid and is left
    out, so it designates the directory above it. *)
Theorem validated_path_under_root (root c f : string) :
  Path.isAbsolute root = true ->
  validName host c = true -> validName host f = true ->
  let rootSegs := Path.normSegs false [] (JS.split "/" root) in
  Path.join [root; c] =
    "/" +:+ JS.join "/" (rootSegs ++ filter (fun n => n <> ".") [c]) ∧
  Path.join [root; c; f] =
    "/" +:+ JS.join "/" (rootSegs ++ filter (fun n => n <> ".") [c; f]).
Proof.
  intros Habs Hc Hf. cbv zeta.
  apply validName_plain in Hc, Hf.
  split; apply PathFacts.join_names; try done; repeat constructor; tauto.
Qed.

Lemma validated_path_under_root_witness :
  Path.join ["/srv/storage/"; "album1"] =
    "/" +:+ JS.join "/" (["srv"; "storage"] ++ ["album1"]) ∧
  Path.join ["/srv/storage/"; "album1"; "."] =
    "/" +:+ JS.join "/" (["srv"; "storage"] ++ ["album1"]).
Proof.
  exact (validated_path_under_root "/srv/storage/" "album1" "."
           eq_refl eq_refl eq_refl).
Defined.

(** *** What a record holds *)

Lemma populateMetadata_fold (l : list (string * JsVal)) (props : gmap string JsVal) k :
  NoDup l.*1 ->
  foldl (fun props pv => if exposed pv.1 then <[pv.1 := pv.2]> props else props)
        props l !! k =
    if exposed k
    then match (list_to_map l : gmap string JsVal) !! k with
         | Some v => Some v
         | None => props !! k
         end
    else props !! k.
Proof.
  revert props. induction l as [|[p w] l IH]; intros props Hnd.
  - cbn. rewrite lookup_empty. by destruct (exposed k).
  - apply NoDup_cons in Hnd as [Hp Hnd]. cbn [foldl fst snd].
    rewrite (IH _ Hnd). cbn [list_to_map foldr uncurry]. cbn [fst snd] in *.
    destruct (decide (p = k)) as [->|Hne].
    + rewrite lookup_insert_eq, (not_elem_of_list_to_map_1 _ _ Hp).
      destruct (exposed k); [by rewrite lookup_insert_eq|done].
    + rewrite (lookup_insert_ne _ p k) by done.
      destruct (exposed p); [by rewrite lookup_insert_ne|done].
Qed.

Lemma populateMetadata_spec stat (props : gmap string JsVal) k :
  populateMetadata stat props !! k =
    if exposed k
    then match stat_props stat !! k with
         | Some v => Some v
         | None => props !! k
         end
    else props !! k.
Proof.
  unfold populateMetadata.
  rewrite populateMetadata_fold by apply NoDup_fst_map_to_list.
  by rewrite list_to_map_to_list.
Qed.

Lemma setProperties_fold (l : list (string * JsVal)) (this : gmap string JsVal) k :
  NoDup l.*1 ->
  foldl (fun this kv => if isFunction kv.2 then this else <[kv.1 := kv.2]> this)
        this l !! k =
    match (list_to_map l : gmap string JsVal) !! k with
    | Some v => if isFunction v then this !! k else Some v
    | None => this !! k
    end.
Proof.
  revert this. induction l as [|[p w] l IH]; intros this Hnd.
  - cbn. by rewrite lookup_empty.
  - apply NoDup_cons in Hnd as [Hp Hnd]. cbn [foldl fst snd].
    rewrite (IH _ Hnd). cbn [list_to_map foldr uncurry]. cbn [fst snd] in *.
    destruct (decide (p = k)) as [->|Hne].
    + rewrite lookup_insert_eq, (not_elem_of_list_to_map_1 _ _ Hp).
      destruct (isFunction w); [done|by rewrite lookup_insert_eq].
    + rewrite (lookup_insert_ne _ p k) by done.
      destruct (list_to_map l !! k) as [v|];
        destruct (isFunction w); try done; by rewrite lookup_insert_ne.
Qed.

Lemma setProperties_spec (details this : gmap string JsVal) k :
  setProperties details this !! k =
    match details !! k with
    | Some v => if isFunction v then this !! k else Some v
    | None => this !! k
    end.
Proof.
  unfold setProperties.
  rewrite setProperties_fold by apply NoDup_fst_map_to_list.
  by rewrite list_to_map_to_list.
Qed.

Lemma newFile_lookup stat c f k :
  newFile (populateMetadata stat {["container" := VStr c; "name" := VStr f]}) !! k =
    if String.eqb k "name" then Some (VStr f)
    else if String.eqb k "container" then Some (VStr c)
    else if exposed k
    then match stat_props stat !! k with
         | Some v => if isFunction v then None else Some v
         | None => None
         end
    else if String.eqb k "client" then Some (VObj "FileSystemProvider")
    else None.
Proof.
  unfold newFile. rewrite setProperties_spec, populateMetadata_spec.
  destruct (String.eqb_spec k "name") as [->|Hn]; [done|].
  destruct (String.eqb_spec k "container") as [->|Hc]; [done|].
  assert (({["container" := VStr c; "name" := VStr f]} : gmap string JsVal) !! k
          = None) as ->.
  { rewrite lookup_insert_ne by done. by apply lookup_singleton_ne. }
  destruct (exposed k) eqn:He.
  - apply exposed_not_name_keys in He as (_ & _ & Hcl).
    rewrite lookup_singleton_ne by done.
    by destruct (stat_props stat !! k).
  - destruct (String.eqb_spec k "client") as [->|Hcl].
    + by rewrite lookup_singleton_eq.
    + by rewrite lookup_singleton_ne.
Qed.

Lemma newContainer_lookup stat name k :
  newContainer (populateMetadata stat {["name" := VStr name]}) !! k =
    if String.eqb k "name" then Some (VStr name)
    else if exposed k
    then match stat_props stat !! k with
         | Some v => if isFunction v then None else Some v
         | None => None
         end
    else if String.eqb k "client" then Some (VObj "FileSystemProvider")
    else None.
Proof.
  unfold newContainer. rewrite setProperties_spec, populateMetadata_spec.
  destruct (String.eqb_spec k "name") as [->|Hn]; [done|].
  rewrite (lookup_singleton_ne "name" k) by done.
  destruct (exposed k) eqn:He.
  - apply exposed_not_name_keys in He as (_ & _ & Hcl).
    rewrite lookup_singleton_ne by done.
    by destruct (stat_props stat !! k).
  - destruct (String.eqb_spec k "client") as [->|Hcl].
    + by rewrite lookup_singleton_eq.
    + by rewrite lookup_singleton_ne.
Qed.

(** X3. The record [getFile] hands over for a file that exists: its name, its
    container, and each of [size], [atime], [mtime] and [ctime] exactly as
    the stat structure has it (left out when the structure lacks it). *)
Theorem getFile_record (root : string) (fs : FsOracle) (c f : string) (stat : Stats) :
  validName host c = true -> validName host f = true ->
  fs_stat fs (Path.join [root; c; f]) = inr stat ->
  exists rec,
    snd (getFile root fs c f) = Done rec ∧
    rec !! "name" = Some (VStr f) ∧
    rec !! "container" = Some (VStr c) ∧
    (forall k v, exposed k = true -> stat_props stat !! k = Some v ->
                 isFunction v = false -> rec !! k = Some v) ∧
    (forall k, exposed k = true -> stat_props stat !! k = None -> rec !! k = None).
Proof.
  intros Hc Hf Hstat. unfold getFile. rewrite Hc, Hf. cbn [snd]. rewrite Hstat.
  eexists. split; [done|].
  split; [by rewrite newFile_lookup|]. split; [by rewrite newFile_lookup|].
  split.
  - intros k v He Hk Hv. rewrite newFile_lookup.
    destruct (exposed_not_name_keys k He) as (Hn & Hcn & _).
    destruct (String.eqb_spec k "name"); [done|].
    destruct (String.eqb_spec k "container"); [done|].
    by rewrite He, Hk, Hv.
  - intros k He Hk. rewrite newFile_lookup.
    destruct (exposed_not_name_keys k He) as (Hn & Hcn & _).
    destruct (String.eqb_spec k "name"); [done|].
    destruct (String.eqb_spec k "container"); [done|].
    by rewrite He, Hk.
Qed.

Lemma getFile_record_witness :
  exists rec,
    snd (getFile "/srv/storage" (sampleFs [Byte.x41]) "album1" "test.jpg") = Done rec ∧
    rec !! "name" = Some (VStr "test.jpg") ∧
    rec !! "container" = Some (VStr "album1") ∧
    (forall k v, exposed k = true ->
                 stat_props (sampleStats false 1) !! k = Some v ->
                 isFunction v = false -> rec !! k = Some v) ∧
    (forall k, exposed k = true ->
               stat_props (sampleStats false 1) !! k = None -> rec !! k = None).
Proof.
  exact (getFile_record "/srv/storage" (sampleFs [Byte.x41]) "album1" "test.jpg"
           (sampleStats false 1) eq_refl eq_refl eq_refl).
Defined.

(** *** Listings *)

Lemma statAll_answers (fs : FsOracle) dir names (stats : string -> Stats) :
  (forall n, n ∈ names -> fs_stat fs (Path.join [dir; n]) = inr (stats n)) ->
  firstError (snd (statAll fs dir names)) = None ∧
  zip names (rights (snd (statAll fs dir names))) = (fun n => (n, stats n)) <$> names.
Proof.
  unfold statAll. cbn [snd]. induction names as [|n ns IH]; intros H; [done|].
  cbn [map firstError]. rewrite (H n) by (apply elem_of_cons; by left).
  destruct IH as [IH1 IH2].
  { intros m Hm. apply H, elem_of_cons. by right. }
  split; [exact IH1|]. unfold rights in *. cbn. by rewrite IH2.
Qed.

Lemma firstError_failed {A} (rs : list (JsError + A)) e i :
  rs !! i = Some (inl e) -> exists e', firstError rs = Some e' ∧ inl e' ∈ rs.
Proof.
  revert i. induction rs as [|[e0|a] rs IH]; intros i Hi; [done|..].
  - exists e0. split; [done|]. apply elem_of_cons. by left.
  - destruct i as [|i]; [done|]. destruct (IH i Hi) as (e' & ? & ?).
    exists e'. split; [done|]. apply elem_of_cons. by right.
Qed.

(** X4. [getFiles] on a directory whose entries can all be examined returns
    one record for each regular file, in the order of the directory, with
    its name and the container; other entries (subdirectories) are left
    out. *)
Theorem getFiles_lists_regular_files
        (root : string) (fs : FsOracle) (c : string) (names : list string)
        (stats : string -> Stats) :
  validName host c = true ->
  fs_readdir fs (Path.join [root; c]) = inr names ->
  (forall n, n ∈ names ->
     fs_stat fs (Path.join [Path.join [root; c]; n]) = inr (stats n)) ->
  exists recs,
    snd (getFiles root fs c) = Done recs ∧
    (fun r : gmap string JsVal => r !! "name") <$> recs =
      (fun n => Some (VStr n)) <$> filter (fun n => isFile (stats n) = true) names ∧
    Forall (fun r : gmap string JsVal => r !! "container" = Some (VStr c)) recs.
Proof.
  intros Hc Hdir Hstats. unfold getFiles, dirEntries. rewrite Hc, Hdir.
  destruct (statAll_answers fs _ names stats Hstats) as [Hfe Hzip].
  destruct (statAll fs _ names) as [tr rs]. cbn [snd] in *.
  rewrite Hfe, Hzip. eexists. split; [done|]. clear.
  induction names as [|n ns [IH1 IH2]]; [done|]. cbn [fmap list_fmap omap list_omap].
  destruct (isFile (stats n)) eqn:Hf.
  - rewrite filter_cons_True by done. cbn. rewrite newFile_lookup. cbn.
    split; [by rewrite IH1|]. constructor; [by rewrite newFile_lookup|done].
  - rewrite filter_cons_False by (by rewrite Hf). done.
Qed.

Lemma getFiles_lists_regular_files_witness :
  exists recs,
    snd (getFiles "/srv/storage" (sampleFs []) "album1") = Done recs ∧
    (fun r : gmap string JsVal => r !! "name") <$> recs =
      (fun n => Some (VStr n)) <$>
        filter (fun n => isFile (sampleStats false 0) = true) ["test.jpg"] ∧
    Forall (fun r : gmap string JsVal => r !! "container" = Some (VStr "album1")) recs.
Proof.
  apply (getFiles_lists_regular_files "/srv/storage" (sampleFs []) "album1"
           ["test.jpg"] (fun _ => sampleStats false 0)).
  - reflexivity.
  - reflexivity.
  - intros n Hn. apply list_elem_of_singleton in Hn as ->. reflexivity.
Defined.

(** X5. [getContainers] returns one record for each directory under the root
    whose entries can all be examined, in the order of the root directory;
    plain files under the root are left out. *)
Theorem getContainers_lists_directories
        (root : string) (fs : FsOracle) (names : list string)
        (stats : string -> Stats) :
  fs_readdir fs root = inr names ->
  (forall n, n ∈ names -> fs_stat fs (Path.join [root; n]) = inr (stats n)) ->
  exists recs,
    snd (getContainers root fs) = Done recs ∧
    (fun r : gmap string JsVal => r !! "name") <$> recs =
      (fun n => Some (VStr n)) <$>
        filter (fun n => isDirectory (stats n) = true) names.
Proof.
  intros Hdir Hstats. unfold getContainers, dirEntries. rewrite Hdir.
  destruct (statAll_answers fs _ names stats Hstats) as [Hfe Hzip].
  destruct (statAll fs _ names) as [tr rs]. cbn [snd] in *.
  rewrite Hfe, Hzip. eexists. split; [done|]. clear.
  induction names as [|n ns IH]; [done|]. cbn [fmap list_fmap omap list_omap].
  destruct (isDirectory (stats n)) eqn:Hf.
  - rewrite filter_cons_True by done. cbn. rewrite newContainer_lookup. cbn.
    by rewrite IH.
  - rewrite filter_cons_False by (by rewrite Hf). done.
Qed.

Lemma getContainers_lists_directories_witness :
  exists recs,
    snd (getContainers "/srv/storage" (sampleFs [])) = Done recs ∧
    (fun r : gmap string JsVal => r !! "name") <$> recs =
      (fun n => Some (VStr n)) <$>
        filter (fun n => isDirectory (sampleStats true 4096) = true) ["album1"].
Proof.
  apply (getContainers_lists_directories "/srv/storage" (sampleFs [])
           ["album1"] (fun _ => sampleStats true 4096)).
  - reflexivity.
  - intros n Hn. apply list_elem_of_singleton in Hn as ->. reflexivity.
Defined.

(** X6. When the directory of a container cannot be read (it does not exist,
    say), [getFiles] does not report the error: it answers with the empty
    list, after the one [readdir] call. *)
Theorem getFiles_unreadable_is_empty
        (root : string) (fs : FsOracle) (c : string) (e : JsError) :
  validName host c = true ->
  fs_readdir fs (Path.join [root; c]) = inl e ->
  getFiles root fs c =
    ([Validate c true; Join [root; c]; Fs (Readdir (Path.join [root; c]))], Done []).
Proof.
  intros Hc Hdir. unfold getFiles, dirEntries, statAll. by rewrite Hc, Hdir.
Qed.

Lemma getFiles_unreadable_is_empty_witness :
  getFiles "/srv/storage" (sampleFs []) "album9" =
    ([Validate "album9" true; Join ["/srv/storage"; "album9"];
      Fs (Readdir (Path.join ["/srv/storage"; "album9"]))], Done []).
Proof.
  exact (getFiles_unreadable_is_empty "/srv/storage" (sampleFs []) "album9"
           (enoent "scandir" "/srv/storage/album9") eq_refl eq_refl).
Defined.

(** X7. One entry that cannot be examined fails the whole listing: [getFiles]
    hands over the error of such an entry and no record at all. *)
Theorem getFiles_fails_on_stat_error
        (root : string) (fs : FsOracle) (c : string) (names : list string)
        (n : string) (e : JsError) :
  validName host c = true ->
  fs_readdir fs (Path.join [root; c]) = inr names ->
  n ∈ names ->
  fs_stat fs (Path.join [Path.join [root; c]; n]) = inl e ->
  exists n' e',
    n' ∈ names ∧ fs_stat fs (Path.join [Path.join [root; c]; n']) = inl e' ∧
    snd (getFiles root fs c) = Failed e'.
Proof.
  intros Hc Hdir Hn He. unfold getFiles, dirEntries, statAll. rewrite Hc, Hdir.
  cbn [snd]. apply list_elem_of_lookup in Hn as [i Hi].
  set (rs := map _ names).
  assert (rs !! i = Some (inl e)) as Hrs.
  { subst rs. change (map ?f ?l) with (f <$> l).
    by rewrite list_lookup_fmap, Hi; cbn; rewrite He. }
  destruct (firstError_failed rs e i Hrs) as (e' & Hfe & Hin).
  rewrite Hfe. subst rs. change (map ?f ?l) with (f <$> l) in Hin.
  apply list_elem_of_fmap in Hin as (n' & Hn' & Hin'). by exists n', e'.
Qed.

Lemma getFiles_fails_on_stat_error_witness :
  exists n' e',
    n' ∈ ["test.jpg"; "gone"] ∧
    fs_stat (brokenEntryFs) (Path.join [Path.join ["/srv/storage"; "album1"]; n'])
      = inl e' ∧
    snd (getFiles "/srv/storage" brokenEntryFs "album1") = Failed e'.
Proof.
  apply (getFiles_fails_on_stat_error "/srv/storage" brokenEntryFs "album1"
           ["test.jpg"; "gone"] "gone" (enoent "stat" "/srv/storage/album1/gone")).
  - reflexivity.
  - reflexivity.
  - apply elem_of_cons. right. apply elem_of_cons. by left.
  - reflexivity.
Defined.

(** *** Removing a container *)

Lemma omap_nil_iff {A B} (g : A -> option B) (l : list A) :
  omap g l = [] <-> forall x, x ∈ l -> g x = None.
Proof.
  induction l as [|a l IH]; cbn.
  - split; [|done]. intros _ x Hx. by apply elem_of_nil in Hx.
  - destruct (g a) eqn:Hg.
    + split; [done|]. intros H. specialize (H a (list_elem_of_here _ _)). congruence.
    + rewrite IH. split.
      * intros H x Hx. apply elem_of_cons in Hx as [->|Hx]; [done|by apply H].
      * intros H x Hx. apply H, elem_of_cons. by right.
Qed.

Lemma omap_head {A B} (g : A -> option B) (l : list A) b bs :
  omap g l = b :: bs -> exists x, x ∈ l ∧ g x = Some b.
Proof.
  intros H. assert (b ∈ omap g l) as Hin by (rewrite H; apply list_elem_of_here).
  apply list_elem_of_omap in Hin as (x & ? & ?). by exists x.
Qed.

(** X8. [destroyContainer] asks to unlink every entry of the directory, and
    removes the directory only when every one of these calls succeeded;
    otherwise it fails with the error of an entry, the directory stays, and
    so do the entries it could not unlink (a subdirectory, say). An error it
    reports is the error of an [unlink] or of the [rmdir]. *)
Theorem destroyContainer_removes_directory_last
        (root : string) (fs : FsOracle) (c : string) :
  validName host c = true ->
  let dir := Path.join [root; c] in
  let files := dirEntries fs dir in
  let r := destroyContainer root fs c in
  (forall f, f ∈ files -> Fs (Unlink (Path.join [dir; f])) ∈ fst r) ∧
  (Fs (Rmdir dir) ∈ fst r <->
   forall f, f ∈ files -> fs_unlink fs (Path.join [dir; f]) = None) ∧
  (forall e, snd r = Failed e ->
     (exists f, f ∈ files ∧ fs_unlink fs (Path.join [dir; f]) = Some e) ∨
     ((forall f, f ∈ files -> fs_unlink fs (Path.join [dir; f]) = None) ∧
      fs_rmdir fs dir = Some e)).
Proof.
  intros Hc. cbv zeta. unfold destroyContainer. rewrite Hc.
  set (dir := Path.join [root; c]). set (files := dirEntries fs dir).
  set (unlinks := flat_map _ files).
  assert (Hun : forall a, a ∈ unlinks <->
            exists f, f ∈ files ∧
              (a = Join [dir; f] ∨ a = Fs (Unlink (Path.join [dir; f])))).
  { intros a. subst unlinks. rewrite list_elem_of_In, in_flat_map. split.
    - intros (f & Hf & Ha). exists f. rewrite list_elem_of_In. split; [done|].
      destruct Ha as [<-|[<-|[]]]; [by left|by right].
    - intros (f & Hf & Ha). exists f. rewrite <- list_elem_of_In. split; [done|].
      destruct Ha as [->| ->]; cbn; tauto. }
  destruct (omap _ files) as [|e0 es] eqn:Hans; cbn [fst snd].
  - pose proof (proj1 (omap_nil_iff _ _) Hans) as Hall. split; [|split].
    + intros f Hf. rewrite !elem_of_app. left. right. apply Hun.
      exists f. split; [done|by right].
    + split; [done|]. intros _. rewrite !elem_of_app. right.
      apply list_elem_of_singleton. reflexivity.
    + intros e He. right. split; [done|].
      destruct (fs_rmdir fs dir); [by injection He as ->|done].
  - apply omap_head in Hans as (f0 & Hf0 & He0). split; [|split].
    + intros f Hf. rewrite elem_of_app. right. apply Hun.
      exists f. split; [done|by right].
    + split.
      * intros Hin. apply elem_of_app in Hin as [Hin|Hin].
        -- repeat (apply elem_of_cons in Hin as [Hin|Hin]; [done|]).
           by apply elem_of_nil in Hin.
        -- apply Hun in Hin as (f & _ & [Hin|Hin]); done.
      * intros Hall. rewrite (Hall f0 Hf0) in He0. done.
    + intros e [= <-]. left. by exists f0.
Qed.

Lemma destroyContainer_removes_directory_last_witness :
  let dir := Path.join ["/srv/storage"; "album1"] in
  let files := dirEntries brokenEntryFs dir in
  let r := destroyContainer "/srv/storage" brokenEntryFs "album1" in
  (forall f, f ∈ files -> Fs (Unlink (Path.join [dir; f])) ∈ fst r) ∧
  (Fs (Rmdir dir) ∈ fst r <->
   forall f, f ∈ files -> fs_unlink brokenEntryFs (Path.join [dir; f]) = None) ∧
  (forall e, snd r = Failed e ->
     (exists f, f ∈ files ∧ fs_unlink brokenEntryFs (Path.join [dir; f]) = Some e) ∨
     ((forall f, f ∈ files -> fs_unlink brokenEntryFs (Path.join [dir; f]) = None) ∧
      fs_rmdir brokenEntryFs dir = Some e)).
Proof.
  exact (destroyContainer_removes_directory_last "/srv/storage" brokenEntryFs
           "album1" eq_refl).
Defined.

(** The sample with the entry that cannot be unlinked: the other file is
    unlinked all the same, the directory is kept and the error is the one
    of the stuck entry. *)
Example destroyContainer_partial :
  destroyContainer "/srv/storage" brokenEntryFs "album1" =
    ([Validate "album1" true; Join ["/srv/storage"; "album1"];
      Fs (Readdir "/srv/storage/album1");
      Join ["/srv/storage/album1"; "test.jpg"];
      Fs (Unlink "/srv/storage/album1/test.jpg");
      Join ["/srv/storage/album1"; "gone"];
      Fs (Unlink "/srv/storage/album1/gone")],
     Failed (enoent "unlink" "/srv/storage/album1/gone")).
Proof. reflexivity. Qed.

(** *** The constructor *)

(** X9. A provider that was constructed has an absolute root, which exists and
    is a directory; a root given as an absolute path is kept as it is, a
    relative one is resolved against the directory two levels above the
    main script. *)
Theorem newProvider_root
        (mainFilename : string) (fs : FsOracle) (root r : string) :
  Path.isAbsolute mainFilename = true ->
  newProvider mainFilename fs root = inr r ->
  Path.isAbsolute r = true ∧
  (exists stat, fs_stat fs r = inr stat ∧ isDirectory stat = true) ∧
  r = (if Path.isAbsolute root then root
       else Path.join [Path.dirname (Path.dirname mainFilename); root]).
Proof.
  intros Hmain. unfold newProvider.
  set (r0 := if Path.isAbsolute root then root else _).
  assert (Habs : Path.isAbsolute r0 = true).
  { subst r0. destruct (Path.isAbsolute root) eqn:Hr; [done|].
    by apply PathFacts.join_isAbsolute, PathFacts.dirname_absolute,
             PathFacts.dirname_absolute. }
  destruct (fs_stat fs r0) as [e|stat] eqn:Hstat; [done|].
  destruct (isDirectory stat) eqn:Hdir; [|done].
  intros [= <-]. split; [done|]. split; [by exists stat|done].
Qed.

Lemma newProvider_root_witness :
  Path.isAbsolute "/srv/storage/album1" = true ∧
  (exists stat, fs_stat (sampleFs []) "/srv/storage/album1" = inr stat ∧
                isDirectory stat = true) ∧
  "/srv/storage/album1" =
    (if Path.isAbsolute "storage/album1" then "storage/album1"
     else Path.join [Path.dirname (Path.dirname "/srv/app/server.js");
                     "storage/album1"]).
Proof.
  exact (newProvider_root "/srv/app/server.js" (sampleFs []) "storage/album1"
           "/srv/storage/album1" eq_refl eq_refl).
Defined.

End ProviderFacts.

(** ** The download handler *)

Module DownloadFacts.
Import FileSystemProvider Download.

Section Handler.

Variable root : string.
Variable fs : FsOracle.

Lemma run_disarmed s evs :
  cb_armed s = false -> cb_calls (run s evs) = cb_calls s.
Proof.
  revert s. induction evs as [|ev evs IH]; intros s Hs; [done|].
  cbn [run foldl]. change (foldl on_event ?a ?l) with (run a l).
  rewrite IH.
  - unfold on_event. destruct (reader s); [|done].
    destruct ev; cbn; by rewrite ?Hs.
  - unfold on_event. destruct (reader s); [|done].
    destruct ev; by cbn.
Qed.

Lemma run_no_reader s evs : reader s = None -> run s evs = s.
Proof.
  intros Hs. induction evs as [|ev evs IH]; [done|].
  cbn [run foldl]. unfold on_event at 2. by rewrite Hs.
Qed.

Lemma run_armed s evs r :
  reader s = Some r -> cb_armed s = true ->
  cb_calls (run s evs) = cb_calls s ++ firstCall (p_remote (sparams s)) evs.
Proof.
  revert s. induction evs as [|ev evs IH]; intros s Hr Ha.
  - cbn. by rewrite app_nil_r.
  - cbn [run foldl]. change (foldl on_event ?a ?l) with (run a l).
    destruct ev as [chunk|err|].
    + rewrite IH; unfold on_event; rewrite Hr; try done.
    + rewrite run_disarmed by (unfold on_event; by rewrite Hr).
      unfold on_event. rewrite Hr. cbn. by rewrite Ha.
    + rewrite run_disarmed by (unfold on_event; by rewrite Hr).
      unfold on_event. rewrite Hr. cbn. by rewrite Ha.
Qed.

Lemma firstCall_length remote evs : (length (firstCall remote evs) <= 1)%nat.
Proof.
  unfold firstCall. destruct (filter _ evs) as [|[| |] ?]; cbn; lia.
Qed.

Lemma download_begin_cases rq res container file :
  let s0 := download_begin root fs (Some rq) res container file in
  p_remote (sparams s0) = orElse file (params_file rq) ∧
  ((reader s0 = None ∧ exists e, cb_calls s0 = [Some e]) ∨
   (exists r, reader s0 = Some r ∧ cb_calls s0 = [] ∧ cb_armed s0 = true)).
Proof.
  cbv zeta. unfold download_begin, startStream.
  destruct (String.eqb _ "").
  - destruct (FileSystemProvider.download _ _ _ _ _) as [tr rd].
    cbn. split; [done|]. right. by eexists.
  - destruct (getFile _ _ _ _) as [tr [err|stats]].
    + cbn. split; [done|]. left. split; [done|]. by eexists.
    + destruct (setupPartialDownload _ _ _ _) as [params' res'] eqn:Hs.
      assert (p_remote params' = orElse file (params_file rq)) as Hrem
        by (unfold setupPartialDownload in Hs; by injection Hs as <- _).
      destruct (FileSystemProvider.download _ _ _ _ _) as [tr' rd].
      cbn. split; [done|]. right. by eexists.
Qed.

(** With a request, the callback is called at most once whatever the
    stream emits and in whatever order; once a stream is open, the call is
    the one of its first [error] or [end]. *)
Lemma callback_one_shot rq res container file evs :
  let s0 := download_begin root fs (Some rq) res container file in
  (length (cb_calls (run s0 evs)) <= 1)%nat ∧
  (forall r, reader s0 = Some r ->
     cb_calls (run s0 evs) = firstCall (orElse file (params_file rq)) evs).
Proof.
  cbv zeta.
  destruct (download_begin_cases rq res container file)
    as [Hrem [[Hr [e He]]|[r [Hr [Hc Ha]]]]].
  - rewrite run_no_reader by done. rewrite He, Hr. split; [cbn; lia|done].
  - rewrite (run_armed _ _ _ Hr Ha), Hc, Hrem. cbn [app].
    split; [apply firstCall_length|done].
Qed.

(** C6. When [download] is called without a request it returns at once:
    no stream is opened and the callback is never called, neither with an
    error nor without, whatever happens afterwards. *)
Theorem download_without_request_is_silent
        (res : Response) (container file : string) (evs : list ReaderEvent) :
  cb_calls (download root fs None res container file) = [] ∧
  cb_calls (run (download_begin root fs None res container file) evs) = [] ∧
  reader (download_begin root fs None res container file) = None.
Proof.
  split; [done|]. split; [|done]. by rewrite run_no_reader.
Qed.







(** From a positive start on, the stream produces exactly the bytes of the
    inclusive range. *)
Lemma download_range_positive c f (s e : Z) data :
  validName host c = true -> validName host f = true ->
  0 < s <= e ->
  fs_read fs (Path.join [root; c; f]) = inr data ->
  readBytes fs (snd (FileSystemProvider.download root c f
                       (Some (JS.Int s)) (Some (JS.Int e)))) =
    inr (take (Z.to_nat (e - s + 1)) (drop (Z.to_nat s) data)).
Proof.
  intros Hc Hf Hse Hrd. unfold FileSystemProvider.download.
  rewrite Hc, Hf. cbn [JS.truthy].
  destruct (Z.eqb_spec s 0) as [->|Hs]; [lia|]. cbn [negb snd badRange].
  destruct (Z.ltb_spec s 0); [lia|].
  destruct (Z.ltb_spec e 0); [lia|].
  destruct (Z.ltb_spec e s); [lia|].
  cbn. by rewrite Hrd.
Qed.

End Handler.

(** C1. A download with the header [Range: bytes=0-99] announces a partial
    answer of 100 bytes (status 206, [Content-Length: 100]) but opens the
    stream without a range, because the start offset 0 is falsy: the whole
    file is sent, whatever its length. *)
Theorem range_from_zero_sends_whole_file (data : list Byte.byte) :
  let rq := mkRequest "album1" "test.jpg" (Some (Some "bytes=0-99")) in
  let s := download "/srv/storage" (sampleFs data) (Some rq) emptyResponse
                    "album1" "test.jpg" in
  res_status (response s) = Some 206 ∧
  res_headers (response s) !! 2%nat = Some ("Content-Length", "100") ∧
  reader s = Some (RFileStream "/srv/storage/album1/test.jpg" None) ∧
  res_body (response s) = data ∧
  ((100 < length data)%nat -> res_body (response s) <> take 100 data).
Proof.
  cbv zeta.
  assert (Hbody : res_body (response
            (download "/srv/storage" (sampleFs data)
               (Some (mkRequest "album1" "test.jpg" (Some (Some "bytes=0-99"))))
               emptyResponse "album1" "test.jpg")) = data)
    by (vm_compute; reflexivity).
  repeat split; try (vm_compute; reflexivity).
  rewrite Hbody. intros Hlen Heq.
  apply (f_equal length) in Heq. rewrite length_take in Heq. lia.
Qed.

Example range_ten_to_nineteen (data : list Byte.byte) :
  let rq := mkRequest "album1" "test.jpg" (Some (Some "bytes=10-19")) in
  let s := download "/srv/storage" (sampleFs data) (Some rq) emptyResponse
                    "album1" "test.jpg" in
  res_headers (response s) !! 2%nat = Some ("Content-Length", "10") ∧
  res_body (response s) = take 10 (drop 10 data).
Proof. cbv zeta. split; vm_compute; reflexivity. Qed.


(** *** Whole downloads *)

Section Whole.

Variable root : string.
Variable fs : FsOracle.

(** The [Range] header as [download] reads it. *)
Local Abbreviation rangeOf rq :=
  (match req_headers rq with
   | Some h => default "" h
   | None => ""
   end).

(** X10. A download without a [Range] header of a validly named file opens one
    read stream on the whole file, sets the content type from the base name
    of the [file] argument and leaves status and headers alone. The callback
    is called exactly once: with no argument after all the bytes of the file
    were written to the response, or with the error of the read ([ENOENT]
    turned into a 404) and nothing written. *)
Theorem download_whole_file
        (rq : Request) (res : Response) (container file : string) :
  rangeOf rq = "" ->
  validName host (orElse container (params_container rq)) = true ->
  validName host (orElse file (params_file rq)) = true ->
  let c := orElse container (params_container rq) in
  let f := orElse file (params_file rq) in
  let path := Path.join [root; c; f] in
  let s := download root fs (Some rq) res container file in
  trace s = [Validate c true; Validate f true; Join [root; c; f];
             Fs (CreateReadStream path None)] ∧
  res_type (response s) = Some (Path.basename file) ∧
  res_status (response s) = res_status res ∧
  res_headers (response s) = res_headers res ∧
  match fs_read fs path with
  | inr data =>
      cb_calls s = [None] ∧ res_body (response s) = res_body res ++ data
  | inl e =>
      cb_calls s = [Some (processError e f)] ∧
      res_body (response s) = res_body res
  end.
Proof.
  intros Hrange Hc Hf. cbv zeta.
  unfold download, download_begin, startStream. rewrite Hrange.
  cbn [String.eqb p_container p_remote p_start p_end].
  unfold FileSystemProvider.download. rewrite Hc, Hf. cbn [badRange reader].
  unfold streamEvents, readBytes.
  destruct (fs_read fs _) as [e|data]; cbn; by rewrite ?app_nil_r.
Qed.

(** *** Partial downloads *)



(** X12. A download with a [Range] header of a file that cannot be examined
    (it does not exist, say) stops after the [stat] call: the callback gets
    that error once ([ENOENT] as a 404), no stream is opened and the
    response is not touched: no status 206, no range headers. *)
Theorem download_range_of_missing_file
        (rq : Request) (res : Response) (container file : string) (err : JsError) :
  rangeOf rq <> "" ->
  validName host (orElse container (params_container rq)) = true ->
  validName host (orElse file (params_file rq)) = true ->
  fs_stat fs (Path.join [root; orElse container (params_container rq);
                         orElse file (params_file rq)]) = inl err ->
  let c := orElse container (params_container rq) in
  let f := orElse file (params_file rq) in
  let d := download root fs (Some rq) res container file in
  cb_calls d = [Some (processError err f)] ∧
  response d = res ∧ reader d = None ∧
  trace d = [Validate c true; Validate f true; Join [root; c; f];
             Fs (Stat (Path.join [root; c; f]))].
Proof.
  intros Hrange Hc Hf Hstat. cbv zeta. unfold download, download_begin.
  destruct (String.eqb_spec (rangeOf rq) ""); [done|].
  cbn [p_container p_remote]. unfold getFile. rewrite Hc, Hf, Hstat. done.
Qed.

(** *** Names that fail validation *)



End Whole.

Lemma download_whole_file_witness :
  let s := download "/srv/storage" (sampleFs [Byte.x41; Byte.x42])
                    (Some (mkRequest "album1" "test.jpg" None)) emptyResponse
                    "" "" in
  trace s = [Validate "album1" true; Validate "test.jpg" true;
             Join ["/srv/storage"; "album1"; "test.jpg"];
             Fs (CreateReadStream (Path.join ["/srv/storage"; "album1"; "test.jpg"])
                                  None)] ∧
  res_type (response s) = Some (Path.basename "") ∧
  res_status (response s) = None ∧
  res_headers (response s) = [] ∧
  match fs_read (sampleFs [Byte.x41; Byte.x42])
                (Path.join ["/srv/storage"; "album1"; "test.jpg"]) with
  | inr data => cb_calls s = [None] ∧ res_body (response s) = [] ++ data
  | inl e => cb_calls s = [Some (processError e "test.jpg")] ∧
             res_body (response s) = []
  end.
Proof.
  exact (download_whole_file "/srv/storage" (sampleFs [Byte.x41; Byte.x42])
           (mkRequest "album1" "test.jpg" None) emptyResponse "" ""
           eq_refl eq_refl eq_refl).
Defined.


Lemma download_range_of_missing_file_witness :
  let d := download "/srv/storage" (sampleFs [])
                    (Some (mkRequest "album1" "nope.jpg" (Some (Some "bytes=1-5"))))
                    emptyResponse "" "" in
  cb_calls d =
    [Some (processError (enoent "stat" "/srv/storage/album1/nope.jpg") "nope.jpg")] ∧
  response d = emptyResponse ∧ reader d = None ∧
  trace d = [Validate "album1" true; Validate "nope.jpg" true;
             Join ["/srv/storage"; "album1"; "nope.jpg"];
             Fs (Stat (Path.join ["/srv/storage"; "album1"; "nope.jpg"]))].
Proof.
  apply (download_range_of_missing_file "/srv/storage" (sampleFs [])
           (mkRequest "album1" "nope.jpg" (Some (Some "bytes=1-5")))
           emptyResponse "" "" (enoent "stat" "/srv/storage/album1/nope.jpg")).
  - discriminate.
  - reflexivity.
  - reflexivity.
  - reflexivity.
Defined.


End DownloadFacts.

(** ** The upload handler *)

Module UploadFacts.
Import FileSystemProvider Upload.

Section Handler.

Variable env : Env.
Variable root : string.
Variable options : Options.
Variable maxFieldsSize : Z.
Variable reqContainer : string.

Local Abbreviation stepU := (step env root options maxFieldsSize reqContainer).
Local Abbreviation runU := (run env root options maxFieldsSize reqContainer).
Local Abbreviation emitErrorU := (emitError root options reqContainer).
Local Abbreviation formErrorU := (formError root options reqContainer).
Local Abbreviation onFormErrorU := (onFormError root options reqContainer).
Local Abbreviation handlePartU := (handlePart env root options reqContainer).
Local Abbreviation beginFileU := (beginFile env root options reqContainer).
Local Abbreviation onDataU := (onData env root options maxFieldsSize reqContainer).
Local Abbreviation meterDataU := (meterData root options reqContainer).
Local Abbreviation containerU := (container options reqContainer).

(** *** How the handlers touch the parts *)

Lemma updateFile_current id f st :
  up_current (updateFile id f st) = up_current st.
Proof. unfold updateFile. by destruct (up_parts st !! id) as [[|]|]. Qed.

Lemma updateFile_files id f st :
  up_files (updateFile id f st) = up_files st.
Proof. unfold updateFile. by destruct (up_parts st !! id) as [[|]|]. Qed.

Lemma updateFile_lookup_ne id f st j :
  j <> id -> up_parts (updateFile id f st) !! j = up_parts st !! j.
Proof.
  intros Hne. unfold updateFile.
  destruct (up_parts st !! id) as [[|c]|]; try done.
  cbn. by rewrite list_lookup_insert_ne.
Qed.

Lemma updateFile_lookup_eq id f st :
  up_parts (updateFile id f st) !! id =
  match up_parts st !! id with
  | Some (IsFile c) => Some (IsFile (f c))
  | o => o
  end.
Proof.
  unfold updateFile.
  destruct (up_parts st !! id) as [[|c]|] eqn:E; try done.
  cbn. apply list_lookup_insert_eq. by eapply lookup_lt_Some.
Qed.

Lemma updateFile_length id f st :
  length (up_parts (updateFile id f st)) = length (up_parts st).
Proof.
  unfold updateFile. destruct (up_parts st !! id) as [[|c]|]; try done.
  cbn. apply length_insert.
Qed.

Lemma updateFile_partsOK id f st :
  partsOK env st ->
  (forall c w',
     up_parts st !! id = Some (IsFile c) -> c_writer (f c) = Some w' ->
     w_ended w' = true -> digestsFinal env (f c) ∧ up_current st <> Some id) ->
  partsOK env (updateFile id f st).
Proof.
  intros Hok Hf j c w Hj Hw He. rewrite updateFile_current.
  destruct (decide (j = id)) as [->|Hne].
  - rewrite updateFile_lookup_eq in Hj.
    destruct (up_parts st !! id) as [[|c0]|] eqn:E; try done.
    injection Hj as <-. by eapply Hf.
  - rewrite updateFile_lookup_ne in Hj by done. by eapply Hok.
Qed.

Lemma updateFile_listedOK id f st :
  listedOK st ->
  (forall c w,
     up_parts st !! id = Some (IsFile c) -> c_writer c = Some w ->
     w_finished w = true -> w_ended w = true ->
     exists w', c_writer (f c) = Some w' ∧ w_finished w' = true ∧ w_ended w' = true) ->
  listedOK (updateFile id f st).
Proof.
  intros Hok Hf field ids j Hids Hj. rewrite updateFile_files in Hids.
  destruct (Hok field ids j Hids Hj) as (c & w & Hc & Hw & Hfin & Hend).
  destruct (decide (j = id)) as [->|Hne].
  - destruct (Hf c w Hc Hw Hfin Hend) as (w' & Hw' & ? & ?).
    exists (f c), w'. rewrite updateFile_lookup_eq, Hc. done.
  - exists c, w. by rewrite updateFile_lookup_ne.
Qed.

Lemma partsOK_frame st st' :
  up_parts st' = up_parts st -> up_current st' = up_current st ->
  partsOK env st -> partsOK env st'.
Proof. intros Hp Hc Hok id c w. rewrite Hp, Hc. apply Hok. Qed.

Lemma listedOK_frame st st' :
  up_parts st' = up_parts st -> up_files st' = up_files st ->
  listedOK st -> listedOK st'.
Proof. intros Hp Hf Hok field ids id. rewrite Hp, Hf. apply Hok. Qed.

Local Abbreviation Inv := (Inv env).

Lemma Inv_frame st st' :
  up_parts st' = up_parts st -> up_current st' = up_current st ->
  up_files st' = up_files st -> Inv st -> Inv st'.
Proof.
  intros Hp Hc Hf [H1 H2]. split; [by eapply partsOK_frame|by eapply listedOK_frame].
Qed.

Lemma destroyWriter_Inv id st : Inv st -> Inv (destroyWriter id st).
Proof.
  intros [H1 H2]. unfold destroyWriter.
  destruct (writerOf st id) as [w|]; [|done].
  destruct (w_destroyed w); [done|]. split.
  - apply updateFile_partsOK; [done|]. intros c w' Hc Hw' He. cbn in *.
    destruct (c_writer c) as [w0|] eqn:Hw0; [|done]. injection Hw' as <-.
    cbn in He. destruct (H1 id c w0 Hc Hw0 He) as [Hd Hcur].
    split; [exact Hd|exact Hcur].
  - apply updateFile_listedOK; [done|]. intros c w0 Hc Hw0 Hfin Hend. cbn.
    rewrite Hw0. cbn. by eexists.
Qed.

Lemma destroyWriter_same id st :
  up_current (destroyWriter id st) = up_current st ∧
  up_files (destroyWriter id st) = up_files st ∧
  up_callbacks (destroyWriter id st) = up_callbacks st ∧
  up_error (destroyWriter id st) = up_error st ∧
  up_ended (destroyWriter id st) = up_ended st ∧
  up_store (destroyWriter id st) = up_store st ∧
  up_filename (destroyWriter id st) = up_filename st ∧
  up_writer (destroyWriter id st) = up_writer st ∧
  up_flushing (destroyWriter id st) = up_flushing st ∧
  up_parsedFiles (destroyWriter id st) = up_parsedFiles st.
Proof.
  unfold destroyWriter. destruct (writerOf st id) as [w|]; [|done].
  destruct (w_destroyed w); [done|]. unfold updateFile.
  by destruct (up_parts st !! id) as [[|]|].
Qed.

Lemma onFormError_Inv st : Inv st -> Inv (onFormErrorU st).
Proof.
  intros H. unfold onFormError.
  set (st1 := match up_writer st with Some id => destroyWriter id st | None => st end).
  assert (Inv st1) as H1 by (subst st1; destruct (up_writer st); [by apply destroyWriter_Inv|done]).
  destruct (truthyStr (up_filename st1)); [|done].
  destruct (removeFile _ _ _ _) as [tr [e|u]]; by eapply Inv_frame; [..|exact H1].
Qed.

Lemma emitError_Inv err st : Inv st -> Inv (emitErrorU err st).
Proof.
  intros H. unfold emitError.
  eapply Inv_frame; [..|apply onFormError_Inv, H]; done.
Qed.

Lemma formError_Inv err st : Inv st -> Inv (formErrorU err st).
Proof.
  intros H. unfold formError. destruct (up_error st); [done|].
  destruct (up_ended st); [done|].
  apply emitError_Inv. by eapply Inv_frame; [..|exact H].
Qed.

Lemma maybeEnd_same st :
  up_parts (maybeEnd st) = up_parts st ∧
  up_current (maybeEnd st) = up_current st ∧
  up_files (maybeEnd st) = up_files st.
Proof.
  unfold maybeEnd, emitEnd.
  destruct (_ || _); [done|]. by destruct (isEmpty _).
Qed.

Lemma maybeEnd_Inv st : Inv st -> Inv (maybeEnd st).
Proof.
  destruct (maybeEnd_same st) as (? & ? & ?). by apply Inv_frame.
Qed.

Lemma sameForm_refl st : sameForm st st.
Proof. by repeat split. Qed.

Lemma sameForm_trans st1 st2 st3 :
  sameForm st1 st2 -> sameForm st2 st3 -> sameForm st1 st3.
Proof.
  unfold sameForm. intros H1 H2. destruct_and!.
  repeat split; etrans; eauto.
Qed.

Lemma updateFile_sameForm id f st : sameForm st (updateFile id f st).
Proof.
  unfold sameForm. rewrite updateFile_length. unfold updateFile.
  by destruct (up_parts st !! id) as [[|]|].
Qed.

Lemma destroyWriter_sameForm id st : sameForm st (destroyWriter id st).
Proof.
  unfold destroyWriter. destruct (writerOf st id) as [w|]; [|apply sameForm_refl].
  destruct (w_destroyed w); [apply sameForm_refl|apply updateFile_sameForm].
Qed.

Lemma onFormError_sameForm st : sameForm st (onFormErrorU st).
Proof.
  unfold onFormError.
  set (st1 := match up_writer st with Some id => destroyWriter id st | None => st end).
  assert (sameForm st st1) as H1
    by (subst st1; destruct (up_writer st);
        [apply destroyWriter_sameForm|apply sameForm_refl]).
  destruct (truthyStr (up_filename st1)); [|done].
  destruct (removeFile _ _ _ _) as [tr [e|u]]; exact H1.
Qed.

Lemma emitError_sameForm err st : sameForm st (emitErrorU err st).
Proof. unfold emitError. exact (onFormError_sameForm st). Qed.

Lemma formError_sameForm err st : sameForm st (formErrorU err st).
Proof.
  unfold formError. destruct (up_error st); [apply sameForm_refl|].
  destruct (up_ended st); [apply sameForm_refl|].
  exact (emitError_sameForm err (set_error (Some err) st)).
Qed.

Lemma formError_files err st : up_files (formErrorU err st) = up_files st.
Proof. apply formError_sameForm. Qed.

Lemma formError_current err st : up_current (formErrorU err st) = up_current st.
Proof. apply formError_sameForm. Qed.

Lemma emitError_files err st : up_files (emitErrorU err st) = up_files st.
Proof. apply emitError_sameForm. Qed.

Lemma emitError_current err st : up_current (emitErrorU err st) = up_current st.
Proof. apply emitError_sameForm. Qed.

Lemma onFormError_callbacks st :
  up_callbacks (onFormErrorU st) = up_callbacks st ∧
  up_error (onFormErrorU st) = up_error st.
Proof.
  unfold onFormError.
  set (st1 := match up_writer st with Some id => destroyWriter id st | None => st end).
  assert (up_callbacks st1 = up_callbacks st ∧ up_error st1 = up_error st) as H1.
  { subst st1. destruct (up_writer st) as [id|]; [|done].
    destruct (destroyWriter_same id st) as (_ & _ & ? & ? & _). done. }
  destruct (truthyStr (up_filename st1)); [|done].
  destruct (removeFile _ _ _ _) as [tr [e|u]]; exact H1.
Qed.

Lemma emitError_callbacks err st :
  up_callbacks (emitErrorU err st) = up_callbacks st ++ [CbErr err] ∧
  up_error (emitErrorU err st) = up_error st.
Proof.
  unfold emitError. cbn.
  destruct (onFormError_callbacks st) as [-> ->]. done.
Qed.

Lemma set_store_id st : set_store (up_store st) st = st.
Proof. by destruct st. Qed.

Lemma pipeData_store id buf st :
  exists s, pipeData id buf st = set_store s st.
Proof.
  unfold pipeData.
  destruct (up_parts st !! id) as [[|c']|];
    try (exists (up_store st); by rewrite set_store_id).
  destruct (c_writer c') as [w'|];
    try (exists (up_store st); by rewrite set_store_id).
  destruct (w_stream w');
    try (exists (up_store st); by rewrite set_store_id).
  destruct (_ || _); [exists (up_store st); by rewrite set_store_id|].
  by eexists.
Qed.

Lemma maybeEnd_files st : up_files (maybeEnd st) = up_files st.
Proof. by destruct (maybeEnd_same st) as (_ & _ & ?). Qed.

(** Only the [success] of a writer adds to [files]; in particular the
    [close] of a writer changes nothing at all. *)
Lemma step_files_same st ev :
  (forall id, ev <> EvWriterSuccess id) ->
  up_files (stepU st ev) = up_files st.
Proof.
  intros Hev. destruct ev as [part|buf| | |rerr|id|id err|id];
    try (by exfalso; eapply Hev); cbn [step].
  - unfold handlePart, beginField, beginFile, rejectPart.
    destruct (part_filename part) as [fn|]; [|done].
    destruct (String.eqb fn ""); [done|].
    destruct (nameFile _ _ _ _) as [file uu].
    destruct (checkExtname _ _); [by rewrite formError_files|].
    destruct (checkContentType _ _); [by rewrite formError_files|].
    by destruct (upload _ _ _ _).
  - unfold onData. destruct (up_current st) as [id|]; [|done].
    destruct (up_parts st !! id) as [[d|c]|] eqn:Hid; [| |done].
    + unfold fieldData. cbn.
      destruct (maxFieldsSize <? _).
      * by rewrite formError_files.
      * by destruct (decoder_write _ _ _).
    + destruct (c_writer c) as [w0|]; [|done].
      transitivity (up_files (hashData id buf (meterDataU id buf st))).
      { by destruct (pipeData_store id buf (hashData id buf (meterDataU id buf st)))
          as [s ->]. }
      unfold hashData. rewrite updateFile_files.
      unfold meterData. rewrite Hid.
      destruct (c_maxFileSize c =? 0); [done|].
      destruct (c_maxFileSize c <? _).
      * rewrite formError_files. apply updateFile_files.
      * apply updateFile_files.
  - unfold onEnd. destruct (up_current st) as [id|]; [|done]. cbn.
    destruct (up_parts st !! id) as [[d|c]|]; [done| |done].
    destruct (c_writer c); [|done]. unfold fileEnd. apply updateFile_files.
  - by rewrite maybeEnd_files.
  - apply formError_files.
  - destruct (writerOf st id); [|done]. apply emitError_files.
  - done.
Qed.

(** *** The invariants hold in every run *)

Lemma append_Inv st st' p :
  Inv st ->
  up_parts st' = up_parts st ++ [p] ->
  up_current st' = Some (length (up_parts st)) ->
  up_files st' = up_files st ->
  (forall c w, p = IsFile c -> c_writer c = Some w -> w_ended w = false) ->
  Inv st'.
Proof.
  intros [H1 H2] Hp Hc Hf Hnew. split.
  - intros id c w Hid Hw He. rewrite Hp in Hid. rewrite Hc.
    apply lookup_app_Some in Hid as [Hid|[Hlen Hid]].
    + destruct (H1 id c w Hid Hw He) as [Hd _]. split; [done|].
      apply lookup_lt_Some in Hid. intros [= ?]. lia.
    + destruct (id - length (up_parts st))%nat eqn:E; [|done].
      injection Hid as ->. by rewrite (Hnew c w) in He.
  - intros field ids id Hids Hid. rewrite Hf in Hids.
    destruct (H2 field ids id Hids Hid) as (c & w & Hc' & ?).
    exists c, w. split; [|done]. rewrite Hp. by apply lookup_app_l_Some.
Qed.

Lemma handlePart_Inv part st : Inv st -> Inv (handlePartU part st).
Proof.
  intros H. unfold handlePart, beginField, beginFile, rejectPart.
  assert (Hf : Inv (set_current (Some (length (up_parts st)))
                      (set_parts (up_parts st ++
                                    [IsField {| d_part := part; d_value := "";
                                                d_decoder := [] |}]) st)))
    by (eapply append_Inv; [exact H|done..]).
  destruct (part_filename part) as [fn|]; [|done].
  destruct (String.eqb fn ""); [done|].
  destruct (nameFile _ _ _ _) as [file uu].
  destruct (checkExtname _ _).
  { apply formError_Inv. eapply append_Inv; [exact H|try done..].
    by intros c w [= <-]. }
  destruct (checkContentType _ _).
  { apply formError_Inv. eapply append_Inv; [exact H|try done..].
    by intros c w [= <-]. }
  destruct (upload _ _ _ _) as [tr wr].
  eapply append_Inv; [exact H|try done..].
  intros c w [= <-] [= <-]. done.
Qed.

Lemma insert_field_Inv st id d d' :
  up_parts st !! id = Some (IsField d) ->
  Inv st -> Inv (set_parts (<[id := IsField d']> (up_parts st)) st).
Proof.
  intros Hid [H1 H2]. split.
  - intros j c w Hj Hw He. cbn in *.
    destruct (decide (j = id)) as [->|Hne].
    + rewrite list_lookup_insert_eq in Hj by (by eapply lookup_lt_Some). done.
    + rewrite list_lookup_insert_ne in Hj by done. by eapply H1.
  - intros field ids j Hids Hj. cbn in *.
    destruct (H2 field ids j Hids Hj) as (c & w & Hc & ?).
    exists c, w. split; [|done].
    rewrite list_lookup_insert_ne; [done|]. intros ->. congruence.
Qed.

Lemma meterData_sameForm id buf st : sameForm st (meterDataU id buf st).
Proof.
  unfold meterData. destruct (up_parts st !! id) as [[|c]|]; try apply sameForm_refl.
  destruct (c_maxFileSize c =? 0); [apply sameForm_refl|].
  destruct (_ <? _); [|apply updateFile_sameForm].
  eapply sameForm_trans; [apply updateFile_sameForm|apply formError_sameForm].
Qed.

Lemma meterData_Inv id buf st : Inv st -> Inv (meterDataU id buf st).
Proof.
  intros [H1 H2]. unfold meterData.
  destruct (up_parts st !! id) as [[|c]|] eqn:Hid; try done.
  destruct (c_maxFileSize c =? 0); [done|].
  match goal with
  | |- Inv (if _ then formErrorU _ ?s else _) => assert (Inv s) as Hs
  end.
  { split.
    - apply updateFile_partsOK; [done|]. intros c0 w' Hc0 Hw' He.
      exact (H1 id c0 w' Hc0 Hw' He).
    - apply updateFile_listedOK; [done|]. intros c0 w Hc0 Hw ? ?. by exists w. }
  destruct (_ <? _); [by apply formError_Inv|done].
Qed.

Lemma onData_Inv buf st : Inv st -> Inv (onDataU buf st).
Proof.
  intros H. unfold onData.
  destruct (up_current st) as [id|] eqn:Hcur; [|done].
  destruct (up_parts st !! id) as [[d|c]|] eqn:Hid; [| |done].
  - unfold fieldData. cbn.
    destruct (maxFieldsSize <? _).
    + apply formError_Inv. by eapply Inv_frame; [..|exact H].
    + destruct (decoder_write _ _ _) as [dec text].
      eapply Inv_frame;
        [..|exact (insert_field_Inv st id d
                     {| d_part := d_part d; d_value := d_value d +:+ text;
                        d_decoder := dec |} Hid H)]; done.
  - destruct (c_writer c) as [w0|]; [|done].
    pose proof (meterData_Inv id buf st H) as Hm.
    pose proof (meterData_sameForm id buf st) as (_ & Hmc & _).
    set (st1 := meterDataU id buf st) in *.
    assert (Inv (hashData id buf st1)) as Hh.
    { destruct Hm as [Hm1 Hm2]. split.
      - apply updateFile_partsOK; [done|]. intros c0 w' Hc0 Hw' He. cbn in *.
        destruct (Hm1 id c0 w' Hc0 Hw' He) as [_ Hne]. congruence.
      - apply updateFile_listedOK; [done|]. intros c0 w Hc0 Hw ? ?. by exists w. }
    destruct (pipeData_store id buf (hashData id buf st1)) as [s ->].
    by eapply Inv_frame; [..|exact Hh].
Qed.

Lemma onEnd_Inv st : Inv st -> Inv (onEnd env st).
Proof.
  intros H. unfold onEnd.
  destruct (up_current st) as [id|] eqn:Hcur; [|done].
  destruct (up_parts st !! id) as [[d|c]|] eqn:Hid.
  - destruct H as [H1 H2]. split.
    + intros j c w Hj Hw He. split; [by eapply H1|done].
    + exact H2.
  - destruct (c_writer c) as [w0|] eqn:Hw0.
    + destruct H as [H1 H2]. split.
      * intros j c' w Hj Hw He. cbn. split; [|done].
        unfold fileEnd in Hj. cbn in Hj.
        destruct (decide (j = id)) as [->|Hne].
        -- rewrite updateFile_lookup_eq, Hid in Hj. injection Hj as <-. done.
        -- rewrite updateFile_lookup_ne in Hj by done. by eapply H1.
      * eapply listedOK_frame with (st := fileEnd env id st); [done..|].
        apply updateFile_listedOK; [done|]. intros c0 w Hc0 Hw Hfin Hend. cbn.
        rewrite Hw. cbn. eexists. split; [done|]. cbn. by rewrite Hend, orb_true_r.
    + destruct H as [H1 H2]. split.
      * intros j c' w Hj Hw He. split; [by eapply H1|done].
      * exact H2.
  - destruct H as [H1 H2]. split.
    + intros j c w Hj Hw He. split; [by eapply H1|done].
    + exact H2.
Qed.

Lemma pushTo_lookup {A} key (v : A) (m : gmap string (list A)) k l :
  pushTo key v m !! k = Some l ->
  (k <> key ∧ m !! k = Some l) ∨
  (k = key ∧ l = default [] (m !! key) ++ [v]).
Proof.
  unfold pushTo. destruct (m !! key) as [values|] eqn:E; intros H.
  - destruct (decide (key = k)) as [<-|Hne].
    + rewrite lookup_insert_eq in H. injection H as <-. by right.
    + rewrite lookup_insert_ne in H by done. left. split; [congruence|done].
  - destruct (decide (key = k)) as [<-|Hne].
    + rewrite lookup_insert_eq in H. injection H as <-. by right.
    + rewrite lookup_insert_ne in H by done. left. split; [congruence|done].
Qed.

Lemma endFunc_Inv id c w st :
  up_parts st !! id = Some (IsFile c) -> c_writer c = Some w ->
  w_ended w = true ->
  Inv st -> Inv (endFunc id c st).
Proof.
  intros Hid Hw Hend [H1 H2]. unfold endFunc. apply maybeEnd_Inv.
  set (f := fun c0 : FileCtx => _).
  set (st1 := updateFile id f (set_flushing (pred (up_flushing st)) st)).
  assert (Hp1 : partsOK env st1).
  { apply updateFile_partsOK; [exact H1|]. intros c0 w' Hc0 Hw' He.
    cbn in Hc0. subst f. cbn in *.
    destruct (c_writer c0) as [w0|] eqn:Hw0; [|done]. injection Hw' as <-.
    exact (H1 id c0 w0 Hc0 Hw0 He). }
  assert (Hl1 : listedOK st1).
  { apply updateFile_listedOK; [exact H2|]. intros c0 w0 Hc0 Hw0 ? ?.
    subst f. cbn. rewrite Hw0. cbn. by eexists. }
  split.
  - eapply partsOK_frame; [..|exact Hp1]; done.
  - intros field ids j Hids Hj. cbn in Hids.
    unfold st1 in Hids. rewrite updateFile_files in Hids. cbn in Hids.
    assert (Hnew : exists c' w', up_parts st1 !! id = Some (IsFile c') ∧
                     c_writer c' = Some w' ∧ w_finished w' = true ∧ w_ended w' = true).
    { exists (f c). subst st1. rewrite updateFile_lookup_eq. cbn. rewrite Hid.
      subst f. cbn. rewrite Hw. cbn. by eexists. }
    assert (Hf1 : up_files st1 = up_files st)
      by (unfold st1; by rewrite updateFile_files).
    apply pushTo_lookup in Hids as [[Hne Hids]|[-> ->]].
    + rewrite <- Hf1 in Hids. exact (Hl1 field ids j Hids Hj).
    + apply elem_of_app in Hj as [Hj|Hj%list_elem_of_singleton].
      * destruct (up_files st !! part_name (c_part c)) as [old|] eqn:Hold;
          [|by apply elem_of_nil in Hj].
        rewrite <- Hf1 in Hold. exact (Hl1 _ old j Hold Hj).
      * by subst j.
Qed.

Lemma step_Inv st ev : enabled st ev = true -> Inv st -> Inv (stepU st ev).
Proof.
  intros Hen H. destruct ev as [part|buf| | |rerr|id|id err|id]; cbn [step].
  - by apply handlePart_Inv.
  - by apply onData_Inv.
  - by apply onEnd_Inv.
  - apply maybeEnd_Inv. by eapply Inv_frame; [..|exact H].
  - by apply formError_Inv.
  - cbn in Hen. unfold writerOf in Hen.
    destruct (up_parts st !! id) as [[d|c]|] eqn:Hid; try done.
    destruct (c_writer c) as [w|] eqn:Hw; [|done].
    eapply endFunc_Inv; try done.
    destruct (w_stream w); [done|]. by destruct (w_ended w).
  - destruct (writerOf st id); [|done]. by apply emitError_Inv.
  - done.
Qed.

Lemma init_Inv store : Inv (init store).
Proof. split; intros ? ? ? H; cbn in H; by rewrite ?lookup_nil, ?lookup_empty in H. Qed.

Lemma run_Inv st evs st' : Inv st -> runU st evs = Some st' -> Inv st'.
Proof.
  revert st. induction evs as [|ev evs IH]; intros st H Hrun; cbn in Hrun.
  - by injection Hrun as <-.
  - destruct (enabled st ev) eqn:Hen; [|done].
    eapply IH; [|exact Hrun]. by apply step_Inv.
Qed.

Lemma run_listed st evs st' id :
  runU st evs = Some st' -> listed st' id ->
  listed st id ∨ EvWriterSuccess id ∈ evs.
Proof.
  revert st. induction evs as [|ev evs IH]; intros st Hrun Hl; cbn in Hrun.
  - injection Hrun as <-. by left.
  - destruct (enabled st ev) eqn:Hen; [|done].
    destruct (IH _ Hrun Hl) as [Hl'|Hin]; [|right; by apply elem_of_cons; right].
    destruct ev as [part|buf| | |rerr|j|j err|j];
      try (left; destruct Hl' as (field & ids & Hids & Hj);
           rewrite step_files_same in Hids by done; by exists field, ids).
    destruct (decide (j = id)) as [->|Hne];
      [right; by apply elem_of_cons; left|].
    (* the success of another writer *)
    left. destruct Hl' as (field & ids & Hids & Hj). cbn [step] in Hids.
    destruct (up_parts st !! j) as [[d|c]|]; try by exists field, ids.
    destruct (c_writer c); [|by exists field, ids].
    unfold endFunc in Hids. rewrite maybeEnd_files in Hids. cbn in Hids.
    rewrite updateFile_files in Hids. cbn in Hids.
    apply pushTo_lookup in Hids as [[_ Hids]|[-> ->]]; [by exists field, ids|].
    apply elem_of_app in Hj as [Hj|Hj%list_elem_of_singleton]; [|congruence].
    destruct (up_files st !! part_name (c_part c)) as [old|] eqn:Hold;
      [|by apply elem_of_nil in Hj].
    by exists (part_name (c_part c)), old.
Qed.

(** *** What a step does to the existing parts *)

Lemma keeps_refl st : keeps st st.
Proof. intros id p Hp. exists p. repeat split; eauto. Qed.

Lemma keeps_size st st' id p :
  keeps st st' -> up_parts st !! id = Some p ->
  exists p', up_parts st' !! id = Some p' ∧ static p' = static p ∧
             hashedOf p' = hashedOf p ∧ sizeOf p' = sizeOf p.
Proof.
  intros Hk Hp. destruct (Hk id p Hp) as (p' & ? & ? & ? & ? & _). by exists p'.
Qed.

Lemma keeps_trans st1 st2 st3 : keeps st1 st2 -> keeps st2 st3 -> keeps st1 st3.
Proof.
  intros H1 H2 id p Hp.
  destruct (H1 id p Hp) as (p2 & Hp2 & Hs2 & Hh2 & Hz2 & Hf2).
  destruct (H2 id p2 Hp2) as (p3 & Hp3 & Hs3 & Hh3 & Hz3 & Hf3).
  exists p3. repeat split; [done|congruence|congruence|congruence|].
  intros d ->. destruct (Hf2 d eq_refl) as [d' ->]. by eapply Hf3.
Qed.

Lemma keeps_frame st st' : up_parts st' = up_parts st -> keeps st st'.
Proof. intros Hp id p. rewrite Hp. intros H. exists p. repeat split; eauto. Qed.

Lemma keeps_append st st' p :
  up_parts st' = up_parts st ++ [p] -> keeps st st'.
Proof.
  intros Hp id q Hq. exists q. rewrite Hp.
  repeat split; eauto. by apply lookup_app_l_Some.
Qed.

Lemma updateFile_keeps id f st :
  (forall c, static (IsFile (f c)) = static (IsFile c) ∧
             c_hashed (f c) = c_hashed c ∧ c_fileSize (f c) = c_fileSize c) ->
  keeps st (updateFile id f st).
Proof.
  intros Hf j p Hp. destruct (decide (j = id)) as [->|Hne].
  - rewrite updateFile_lookup_eq, Hp. destruct p as [d|c].
    + exists (IsField d). repeat split; eauto.
    + exists (IsFile (f c)). destruct (Hf c) as (Hs & Hh & Hz).
      repeat split; [done|done|done|]. intros d [=].
  - rewrite updateFile_lookup_ne by done. exists p. repeat split; eauto.
Qed.

Lemma destroyWriter_keeps id st : keeps st (destroyWriter id st).
Proof.
  unfold destroyWriter. destruct (writerOf st id) as [w|]; [|apply keeps_refl].
  destruct (w_destroyed w); [apply keeps_refl|].
  apply updateFile_keeps. intros c. cbn. split; [|done].
  by destruct (c_writer c).
Qed.

Lemma onFormError_keeps st : keeps st (onFormErrorU st).
Proof.
  unfold onFormError.
  set (st1 := match up_writer st with Some id => destroyWriter id st | None => st end).
  assert (keeps st st1) as H1
    by (subst st1; destruct (up_writer st);
        [apply destroyWriter_keeps|apply keeps_refl]).
  destruct (truthyStr (up_filename st1)); [|done].
  destruct (removeFile _ _ _ _) as [tr [e|u]]; exact H1.
Qed.

Lemma emitError_keeps err st : keeps st (emitErrorU err st).
Proof. unfold emitError. exact (onFormError_keeps st). Qed.

Lemma formError_keeps err st : keeps st (formErrorU err st).
Proof.
  unfold formError. destruct (up_error st); [apply keeps_refl|].
  destruct (up_ended st); [apply keeps_refl|].
  exact (emitError_keeps err (set_error (Some err) st)).
Qed.

(** The metering listener adds the length of the chunk to the byte count
    of its part, when the part has a limit, and keeps all the rest. *)
Lemma meterData_parts id buf st :
  forall j p,
    up_parts st !! j = Some p ->
    exists p', up_parts (meterDataU id buf st) !! j = Some p' ∧
               static p' = static p ∧ hashedOf p' = hashedOf p ∧
               sizeOf p' =
                 sizeOf p +
                 match p with
                 | IsFile c =>
                     if bool_decide (j = id) && negb (c_maxFileSize c =? 0)
                     then Z.of_nat (length buf) else 0
                 | IsField _ => 0
                 end.
Proof.
  intros j p Hp.
  assert (Hsame : forall st', keeps st st' ->
            match p with
            | IsFile c => bool_decide (j = id) && negb (c_maxFileSize c =? 0)
            | IsField _ => false
            end = false ->
            exists p', up_parts st' !! j = Some p' ∧ static p' = static p ∧
              hashedOf p' = hashedOf p ∧
              sizeOf p' = sizeOf p +
                match p with
                | IsFile c =>
                    if bool_decide (j = id) && negb (c_maxFileSize c =? 0)
                    then Z.of_nat (length buf) else 0
                | IsField _ => 0
                end).
  { intros st' Hk Hno. destruct (keeps_size _ _ _ _ Hk Hp) as (p' & ? & ? & ? & Hz).
    exists p'. repeat split; try done. rewrite Hz.
    destruct p as [d|c]; [lia|]. rewrite Hno. lia. }
  unfold meterData. destruct (up_parts st !! id) as [[d|c]|] eqn:Hid.
  - apply Hsame; [apply keeps_refl|]. destruct p as [d'|c']; [done|].
    case_bool_decide as Hj; [|done]. subst j. congruence.
  - destruct (c_maxFileSize c =? 0) eqn:Hmax.
    { apply Hsame; [apply keeps_refl|]. destruct p as [d'|c']; [done|].
      case_bool_decide as Hj; [|done]. subst j.
      rewrite Hid in Hp. injection Hp as <-. by rewrite Hmax. }
    set (f := fun c0 : FileCtx => _).
    assert (exists p1, up_parts (updateFile id f st) !! j = Some p1 ∧
              static p1 = static p ∧ hashedOf p1 = hashedOf p ∧
              sizeOf p1 = sizeOf p +
                match p with
                | IsFile c0 =>
                    if bool_decide (j = id) && negb (c_maxFileSize c0 =? 0)
                    then Z.of_nat (length buf) else 0
                | IsField _ => 0
                end) as (p1 & Hp1 & Hs1 & Hh1 & Hz1).
    { destruct (decide (j = id)) as [->|Hne].
      - rewrite updateFile_lookup_eq, Hid. rewrite Hid in Hp. injection Hp as <-.
        exists (IsFile (f c)). rewrite bool_decide_true, Hmax by done.
        subst f. by cbn.
      - rewrite updateFile_lookup_ne by done. exists p.
        repeat split; try done. destruct p as [d'|c']; [lia|].
        rewrite bool_decide_false by done. cbn. lia. }
    destruct (_ <? _).
    + destruct (keeps_size _ _ _ _ (formError_keeps
                  (sizeError (c_fileSize c + Z.of_nat (length buf)) (c_maxFileSize c))
                  (updateFile id f st)) Hp1) as (p' & Hp' & Hs' & Hh' & Hz').
      exists p'. repeat split; [done|congruence|congruence|congruence].
    + exists p1. by repeat split.
  - apply Hsame; [apply keeps_refl|]. destruct p as [d'|c']; [done|].
    case_bool_decide as Hj; [|done]. subst j. congruence.
Qed.

Lemma maybeEnd_keeps st : keeps st (maybeEnd st).
Proof. apply keeps_frame. by destruct (maybeEnd_same st). Qed.

Lemma opened_new st st' p :
  up_parts st' = up_parts st ++ [p] ->
  up_current st' = Some (length (up_parts st)) ->
  hashedOf p = [] -> sizeOf p = 0 ->
  opened st st'.
Proof.
  intros Hp Hc Hh Hz. split; [|split; [|split]].
  - exists p. split; [|done]. rewrite Hp, lookup_app_r by lia.
    by rewrite Nat.sub_diag.
  - rewrite Hp, length_app. cbn. lia.
  - done.
  - by eapply keeps_append.
Qed.

Lemma opened_formError err st s0 :
  opened st s0 -> opened st (formErrorU err s0).
Proof.
  intros ([p (Hp & Hh & Hz)] & Hlen & Hcur & Hk).
  pose proof (formError_keeps err s0) as Hk'.
  destruct (Hk' _ p Hp) as (p' & Hp' & _ & Hh' & Hz' & _).
  split; [|split; [|split]].
  - exists p'. split; [done|]. split; congruence.
  - destruct (formError_sameForm err s0)
      as (_ & _ & _ & _ & _ & _ & _ & _ & _ & _ & ->). done.
  - by rewrite formError_current.
  - by eapply keeps_trans.
Qed.

Lemma handlePart_opened part st : opened st (handlePartU part st).
Proof.
  unfold handlePart, beginField, beginFile, rejectPart.
  assert (Hfield : opened st
            (set_current (Some (length (up_parts st)))
               (set_parts (up_parts st ++
                  [IsField {| d_part := part; d_value := ""; d_decoder := [] |}])
                  st))) by (by eapply opened_new).
  destruct (part_filename part) as [fn|]; [|exact Hfield].
  destruct (String.eqb fn ""); [exact Hfield|].
  destruct (nameFile _ _ _ _) as [file uu].
  destruct (checkExtname _ _) as [err|];
    [apply opened_formError; by eapply opened_new|].
  destruct (checkContentType _ _) as [err|];
    [apply opened_formError; by eapply opened_new|].
  destruct (upload _ _ _ _) as [tr wr]. by eapply opened_new.
Qed.

Lemma hasWriter_static p p' :
  static p' = static p -> hasWriter p' = hasWriter p.
Proof.
  destruct p as [d|c], p' as [d'|c']; cbn; try done.
  intros [= _ _ H]. destruct (c_writer c), (c_writer c'); done.
Qed.

Lemma onData_parts buf st :
  length (up_parts (onDataU buf st)) = length (up_parts st) ∧
  up_current (onDataU buf st) = up_current st ∧
  forall id p,
    up_parts st !! id = Some p ->
    exists p', up_parts (onDataU buf st) !! id = Some p' ∧
               static p' = static p ∧
               hashedOf p' =
                 hashedOf p ++
                 (if bool_decide (up_current st = Some id) && hasWriter p
                  then buf else []) ∧
               sizeOf p' =
                 sizeOf p +
                 match p with
                 | IsFile c =>
                     if bool_decide (up_current st = Some id) && hasWriter p
                        && negb (c_maxFileSize c =? 0)
                     then Z.of_nat (length buf) else 0
                 | IsField _ => 0
                 end.
Proof.
  assert (Hkeep : forall st', keeps st st' ->
            (forall j p, up_parts st !! j = Some p ->
               bool_decide (up_current st = Some j) && hasWriter p = false) ->
            forall id p, up_parts st !! id = Some p ->
            exists p', up_parts st' !! id = Some p' ∧ static p' = static p ∧
               hashedOf p' = hashedOf p ++
                 (if bool_decide (up_current st = Some id) && hasWriter p
                  then buf else []) ∧
               sizeOf p' =
                 sizeOf p +
                 match p with
                 | IsFile c =>
                     if bool_decide (up_current st = Some id) && hasWriter p
                        && negb (c_maxFileSize c =? 0)
                     then Z.of_nat (length buf) else 0
                 | IsField _ => 0
                 end).
  { intros st' Hk Hno id p Hp.
    destruct (keeps_size _ _ _ _ Hk Hp) as (p' & Hp' & Hs & Hh & Hz).
    exists p'. rewrite (Hno id p Hp), app_nil_r, Hz.
    repeat split; try done. destruct p; cbn; lia. }
  unfold onData. destruct (up_current st) as [cur|] eqn:Hcur.
  2: { repeat split; try done. apply Hkeep; [apply keeps_refl|done]. }
  destruct (up_parts st !! cur) as [[d|c]|] eqn:Hid.
  - (* a field part *)
    assert (Hno : forall j p, up_parts st !! j = Some p ->
              bool_decide (Some cur = Some j) && hasWriter p = false).
    { intros j p Hp. case_bool_decide as Hj; [|done].
      injection Hj as <-. rewrite Hid in Hp. by injection Hp as <-. }
    unfold fieldData. cbn. destruct (maxFieldsSize <? _).
    + split; [|split].
      * by destruct (formError_sameForm
                       (fieldsSizeError (up_fieldsSize st + Z.of_nat (length buf)))
                       (set_fieldsSize (up_fieldsSize st + Z.of_nat (length buf)) st))
          as (_ & _ & _ & _ & _ & _ & _ & _ & _ & _ & ->).
      * by rewrite formError_current.
      * apply Hkeep; [|done].
        eapply keeps_trans; [|apply formError_keeps]. by apply keeps_frame.
    + destruct (decoder_write _ _ _) as [dec text].
      split; [cbn; apply length_insert|]. split; [done|].
      apply Hkeep; [|done]. intros j p Hp. cbn.
      destruct (decide (j = cur)) as [->|Hne].
      * rewrite list_lookup_insert_eq by (by eapply lookup_lt_Some).
        rewrite Hid in Hp. injection Hp as <-.
        eexists. repeat split; eauto.
      * rewrite list_lookup_insert_ne by done. exists p. repeat split; eauto.
  - destruct (c_writer c) as [w0|] eqn:Hw0.
    + (* a file part with its listeners *)
      pose proof (meterData_parts cur buf st) as Hm.
      pose proof (meterData_sameForm cur buf st)
        as (_ & Hmc & _ & _ & _ & _ & _ & _ & _ & _ & Hml).
      set (st1 := meterDataU cur buf st) in *.
      destruct (pipeData_store cur buf (hashData cur buf st1)) as [s ->].
      unfold hashData. cbn. rewrite updateFile_length, updateFile_current.
      split; [done|]. split; [congruence|]. intros j p Hp.
      destruct (Hm j p Hp) as (p1 & Hp1 & Hs1 & Hh1 & Hz1).
      destruct (decide (j = cur)) as [->|Hne].
      * rewrite updateFile_lookup_eq, Hp1.
        rewrite Hid in Hp. injection Hp as <-.
        destruct p1 as [d1|c1]; [done|].
        eexists. split; [done|]. split; [exact Hs1|]. cbn in *.
        rewrite Hh1, Hz1, !bool_decide_true by done. done.
      * rewrite updateFile_lookup_ne by done. exists p1.
        split; [done|]. split; [done|].
        rewrite Hz1, !bool_decide_false by congruence. cbn.
        rewrite app_nil_r. by destruct p.
    + repeat split; try done. apply Hkeep; [apply keeps_refl|].
      intros j p Hp. case_bool_decide as Hj; [|done].
      injection Hj as <-. rewrite Hid in Hp. injection Hp as <-. cbn.
      by rewrite Hw0.
  - repeat split; try done. apply Hkeep; [apply keeps_refl|].
    intros j p Hp. case_bool_decide as Hj; [|done].
    injection Hj as <-. congruence.
Qed.

Lemma step_keeps st ev :
  match ev with
  | EvPart _ | EvData _ => True
  | _ =>
      keeps st (stepU st ev) ∧
      length (up_parts (stepU st ev)) = length (up_parts st) ∧
      up_current (stepU st ev) =
        match ev with
        | EvEnd => None
        | _ => up_current st
        end
  end.
Proof.
  destruct ev as [part|buf| | |rerr|id|id err|id]; try done; cbn [step].
  - unfold onEnd. destruct (up_current st) as [cur|] eqn:Hcur;
      [|repeat split; [apply keeps_refl|done..]].
    destruct (up_parts st !! cur) as [[d|c]|] eqn:Hid;
      try (repeat split; [by apply keeps_frame|done..]).
    destruct (c_writer c) as [w0|];
      [|repeat split; [by apply keeps_frame|done..]].
    cbn. unfold fileEnd. rewrite updateFile_length. repeat split.
    eapply keeps_trans; [|by apply keeps_frame].
    apply updateFile_keeps. intros c0. cbn. split; [|done].
    by destruct (c_writer c0).
  - destruct (maybeEnd_same (set_ended true st)) as (Hp & Hc & _).
    rewrite Hp, Hc. repeat split. by apply keeps_frame.
  - repeat split; [apply formError_keeps| |apply formError_current].
    by destruct (formError_sameForm rerr st)
      as (_ & _ & _ & _ & _ & _ & _ & _ & _ & _ & ->).
  - destruct (up_parts st !! id) as [[d|c]|] eqn:Hid;
      try (repeat split; [apply keeps_refl|done..]).
    destruct (c_writer c) as [w0|];
      [|repeat split; [apply keeps_refl|done..]].
    unfold endFunc.
    match goal with |- context [maybeEnd ?s] =>
      destruct (maybeEnd_same s) as (Hp & Hc & _); rewrite Hp, Hc end.
    cbn. rewrite updateFile_length, updateFile_current. repeat split.
    eapply keeps_trans; [|by apply keeps_frame].
    eapply keeps_trans; [|apply updateFile_keeps].
    + by apply keeps_frame.
    + intros c0. cbn. split; [|done]. by destruct (c_writer c0).
  - destruct (writerOf st id); [|repeat split; [apply keeps_refl|done..]].
    repeat split; [apply emitError_keeps| |apply emitError_current].
    by destruct (emitError_sameForm err st)
      as (_ & _ & _ & _ & _ & _ & _ & _ & _ & _ & ->).
  - repeat split. apply keeps_refl.
Qed.

Lemma step_curOK st ev : enabled st ev = true -> curOK st -> curOK (stepU st ev).
Proof.
  intros Hen H id. destruct ev as [part|buf| | |rerr|j|j err|j].
  - destruct (handlePart_opened part st) as (_ & Hl & Hc & _).
    cbn [step]. rewrite Hl, Hc. intros [= <-]. lia.
  - destruct (onData_parts buf st) as (Hl & Hc & _).
    cbn [step]. rewrite Hl, Hc. apply H.
  - pose proof (step_keeps st EvEnd) as (_ & _ & Hc). by rewrite Hc.
  - pose proof (step_keeps st EvRequestEnd) as (_ & Hl & Hc).
    rewrite Hl, Hc. apply H.
  - pose proof (step_keeps st (EvRequestError rerr)) as (_ & Hl & Hc).
    rewrite Hl, Hc. apply H.
  - pose proof (step_keeps st (EvWriterSuccess j)) as (_ & Hl & Hc).
    rewrite Hl, Hc. apply H.
  - pose proof (step_keeps st (EvWriterError j err)) as (_ & Hl & Hc).
    rewrite Hl, Hc. apply H.
  - apply H.
Qed.

(** One step keeps the static data of every part. *)
Lemma step_static st ev id p :
  up_parts st !! id = Some p ->
  exists p', up_parts (stepU st ev) !! id = Some p' ∧ static p' = static p.
Proof.
  intros Hp. destruct ev as [part|buf| | |rerr|j|j err|j].
  - destruct (handlePart_opened part st) as (_ & _ & _ & Hk).
    destruct (Hk id p Hp) as (p' & ? & ? & _). by exists p'.
  - destruct (onData_parts buf st) as (_ & _ & Hk).
    destruct (Hk id p Hp) as (p' & ? & ? & _). by exists p'.
  - pose proof (step_keeps st EvEnd) as (Hk & _).
    destruct (Hk id p Hp) as (p' & ? & ? & _). by exists p'.
  - pose proof (step_keeps st EvRequestEnd) as (Hk & _).
    destruct (Hk id p Hp) as (p' & ? & ? & _). by exists p'.
  - pose proof (step_keeps st (EvRequestError rerr)) as (Hk & _).
    destruct (Hk id p Hp) as (p' & ? & ? & _). by exists p'.
  - pose proof (step_keeps st (EvWriterSuccess j)) as (Hk & _).
    destruct (Hk id p Hp) as (p' & ? & ? & _). by exists p'.
  - pose proof (step_keeps st (EvWriterError j err)) as (Hk & _).
    destruct (Hk id p Hp) as (p' & ? & ? & _). by exists p'.
  - by exists p.
Qed.

Lemma run_static st evs st' id p :
  runU st evs = Some st' -> up_parts st !! id = Some p ->
  exists p', up_parts st' !! id = Some p' ∧ static p' = static p.
Proof.
  revert st p. induction evs as [|ev evs IH]; intros st p Hrun Hp; cbn in Hrun.
  - injection Hrun as <-. by exists p.
  - destruct (enabled st ev); [|done].
    destruct (step_static st ev id p Hp) as (p1 & Hp1 & Hs1).
    destruct (IH _ p1 Hrun Hp1) as (p' & Hp' & Hs'). exists p'.
    split; [done|congruence].
Qed.

(** The bytes hashed for a part with a writer are exactly the bytes the
    parser delivered for it. *)
Lemma run_hashed st evs st' id p' :
  curOK st ->
  runU st evs = Some st' ->
  up_parts st' !! id = Some p' -> hasWriter p' = true ->
  hashedOf p' =
    match up_parts st !! id with
    | Some p => hashedOf p
    | None => []
    end ++ receivedFrom id (length (up_parts st)) (up_current st) evs.
Proof.
  revert st. induction evs as [|ev evs IH]; intros st Hcur Hrun Hp' Hw;
    cbn in Hrun.
  - injection Hrun as <-. rewrite Hp'. cbn. by rewrite app_nil_r.
  - destruct (enabled st ev) eqn:Hen; [|done].
    rewrite (IH _ (step_curOK _ _ Hen Hcur) Hrun Hp' Hw).
    destruct ev as [part|buf| | |rerr|j|j err|j]; cbn [receivedFrom].
    + destruct (handlePart_opened part st) as ([q (Hq & Hqh & _)] & Hl & Hc & Hk).
      cbn [step]. rewrite Hl, Hc. f_equal.
      destruct (up_parts st !! id) as [p|] eqn:Hp.
      * destruct (Hk id p Hp) as (p1 & -> & _ & Hh & _). done.
      * apply lookup_ge_None in Hp.
        destruct (decide (id = length (up_parts st))) as [->|Hne];
          [by rewrite Hq|].
        rewrite (proj2 (lookup_ge_None _ _)); [done|]. lia.
    + destruct (onData_parts buf st) as (Hl & Hc & Hk).
      cbn [step]. rewrite Hl, Hc, app_assoc. f_equal.
      destruct (up_parts st !! id) as [p|] eqn:Hp.
      * destruct (Hk id p Hp) as (p1 & Hp1 & Hs1 & Hh1 & _). rewrite Hp1, Hh1.
        f_equal.
        destruct (run_static _ _ _ id p1 Hrun Hp1) as (p2 & Hp2 & Hs2).
        rewrite Hp' in Hp2. injection Hp2 as <-.
        rewrite <- (hasWriter_static p p1 Hs1), <- (hasWriter_static p1 p' Hs2), Hw.
        by rewrite andb_true_r.
      * pose proof Hp as Hge. apply lookup_ge_None in Hge.
        rewrite (proj2 (lookup_ge_None _ _)) by lia. cbn.
        case_bool_decide as Hc'; [|done].
        apply Hcur in Hc'. lia.
    + pose proof (step_keeps st EvEnd) as (Hk & Hl & Hc).
      rewrite Hl, Hc. f_equal.
      destruct (up_parts st !! id) as [p|] eqn:Hp.
      * destruct (Hk id p Hp) as (p1 & -> & _ & Hh & _). done.
      * apply lookup_ge_None in Hp. rewrite (proj2 (lookup_ge_None _ _)); [done|]. lia.
    + pose proof (step_keeps st EvRequestEnd) as (Hk & Hl & Hc).
      rewrite Hl, Hc. f_equal.
      destruct (up_parts st !! id) as [p|] eqn:Hp.
      * destruct (Hk id p Hp) as (p1 & -> & _ & Hh & _). done.
      * apply lookup_ge_None in Hp. rewrite (proj2 (lookup_ge_None _ _)); [done|]. lia.
    + pose proof (step_keeps st (EvRequestError rerr)) as (Hk & Hl & Hc).
      rewrite Hl, Hc. f_equal.
      destruct (up_parts st !! id) as [p|] eqn:Hp.
      * destruct (Hk id p Hp) as (p1 & -> & _ & Hh & _). done.
      * apply lookup_ge_None in Hp. rewrite (proj2 (lookup_ge_None _ _)); [done|]. lia.
    + pose proof (step_keeps st (EvWriterSuccess j)) as (Hk & Hl & Hc).
      rewrite Hl, Hc. f_equal.
      destruct (up_parts st !! id) as [p|] eqn:Hp.
      * destruct (Hk id p Hp) as (p1 & -> & _ & Hh & _). done.
      * apply lookup_ge_None in Hp. rewrite (proj2 (lookup_ge_None _ _)); [done|]. lia.
    + pose proof (step_keeps st (EvWriterError j err)) as (Hk & Hl & Hc).
      rewrite Hl, Hc. f_equal.
      destruct (up_parts st !! id) as [p|] eqn:Hp.
      * destruct (Hk id p Hp) as (p1 & -> & _ & Hh & _). done.
      * apply lookup_ge_None in Hp. rewrite (proj2 (lookup_ge_None _ _)); [done|]. lia.
    + done.
Qed.

(** C4. In every state an upload can reach, each file listed under a field
    belongs to a part whose writer has signalled [success] (an event that
    cannot happen before [end()] was called on the writer, and the only one
    that adds to the list: the [close] of a writer has no listener); the
    part is no longer being parsed, and its [md5] and [sha256] are the
    digests of all the bytes received for it. *)
Theorem listed_only_after_success
        (store : gmap string (list Byte.byte)) (evs : list Event) (st : State)
        (field : string) (ids : list nat) (id : nat) :
  runU (init store) evs = Some st ->
  up_files st !! field = Some ids -> id ∈ ids ->
  EvWriterSuccess id ∈ evs ∧
  (forall j, stepU st (EvWriterClose j) = st) ∧
  exists c w,
    up_parts st !! id = Some (IsFile c) ∧ c_writer c = Some w ∧
    w_ended w = true ∧ w_finished w = true ∧
    up_current st <> Some id ∧
    f_md5 (c_file c) = Some (md5hex env (received evs id)) ∧
    f_sha256 (c_file c) = Some (sha256hex env (received evs id)).
Proof.
  intros Hrun Hids Hid.
  assert (Hl : listed st id) by (by exists field, ids).
  destruct (run_listed _ _ _ _ Hrun Hl) as [(f0 & i0 & H0 & _)|Hin];
    [cbn in H0; by rewrite lookup_empty in H0|].
  split; [done|]. split; [done|].
  destruct (run_Inv _ _ _ (init_Inv store) Hrun) as [H1 H2].
  destruct (H2 field ids id Hids Hid) as (c & w & Hc & Hw & Hfin & Hend).
  destruct (H1 id c w Hc Hw Hend) as [[Hmd5 Hsha] Hcur].
  assert (Hrec : c_hashed c = received evs id).
  { assert (curOK (init store)) as Hok by (intros ? [=]).
    pose proof (run_hashed _ _ _ id (IsFile c) Hok Hrun Hc) as Hh.
    cbn in Hh. rewrite Hw in Hh. by apply Hh. }
  rewrite Hrec in Hmd5, Hsha. by exists c, w.
Qed.

(** *** Field parts *)



(** A part with a file name that is not empty is a file part. *)
Lemma named_part_is_file part filename st :
  part_filename part = Some filename -> filename <> "" ->
  up_flushing (handlePartU part st) = S (up_flushing st) ∧
  exists c, up_parts (handlePartU part st) !! length (up_parts st) = Some (IsFile c).
Proof.
  intros Hfn Hne. unfold handlePart. rewrite Hfn.
  destruct (String.eqb_spec filename ""); [done|].
  unfold beginFile, rejectPart.
  assert (Hnew : forall (l : list PartCtx) p, (l ++ [p]) !! length l = Some p).
  { intros l p. rewrite lookup_app_r by lia. by rewrite Nat.sub_diag. }
  assert (Hrej : forall err s0 c,
            up_flushing s0 = S (up_flushing st) ->
            up_parts s0 !! length (up_parts st) = Some (IsFile c) ->
            up_flushing (formErrorU err s0) = S (up_flushing st) ∧
            exists c', up_parts (formErrorU err s0) !! length (up_parts st)
                       = Some (IsFile c')).
  { intros err s0 c Hfl Hp.
    destruct (formError_sameForm err s0) as (_ & _ & _ & -> & _).
    split; [done|].
    destruct (formError_keeps err s0 _ _ Hp) as ([d|c'] & Hp' & Hs & _);
      [done|by exists c']. }
  destruct (nameFile _ _ _ _) as [file uu].
  destruct (checkExtname _ _) as [err|];
    [eapply Hrej; [done|cbn; apply Hnew]|].
  destruct (checkContentType _ _) as [err|];
    [eapply Hrej; [done|cbn; apply Hnew]|].
  destruct (upload _ _ _ _) as [tr wr]. cbn. split; [done|].
  rewrite Hnew. by eexists.
Qed.


(** *** Rejections before a writer exists *)

Lemma removeFile_trace fs c f :
  (forall p, Fs (CreateWriteStream p) ∉ fst (removeFile root fs c f)) ∧
  (forall (s : gmap string (list Byte.byte)) p data,
     applyFs (fst (removeFile root fs c f)) s !! p = Some data ->
     s !! p = Some data).
Proof.
  unfold removeFile. destruct (validName host c); [destruct (validName host f)|].
  - cbn. split.
    + intros p Hin. repeat (apply elem_of_cons in Hin as [Hin|Hin]; [done|]).
      by apply elem_of_nil in Hin.
    + intros s p data H. by apply lookup_delete_Some in H as [_ H].
  - cbn. split; [|done].
    intros p Hin. repeat (apply elem_of_cons in Hin as [Hin|Hin]; [done|]).
    by apply elem_of_nil in Hin.
  - cbn. split; [|done].
    intros p Hin. repeat (apply elem_of_cons in Hin as [Hin|Hin]; [done|]).
    by apply elem_of_nil in Hin.
Qed.

Lemma onFormError_backend st :
  (exists tr, up_backend (onFormErrorU st) = up_backend st ++ tr ∧
              forall p, Fs (CreateWriteStream p) ∉ tr) ∧
  (forall p data, up_store (onFormErrorU st) !! p = Some data ->
                  up_store st !! p = Some data).
Proof.
  unfold onFormError.
  set (st1 := match up_writer st with Some id => destroyWriter id st | None => st end).
  assert (up_store st1 = up_store st ∧ up_backend st1 = up_backend st) as [Hs Hb].
  { subst st1. destruct (up_writer st) as [id|]; [|done].
    unfold destroyWriter. destruct (writerOf st id) as [w|]; [|done].
    destruct (w_destroyed w); [done|]. unfold updateFile.
    by destruct (up_parts st !! id) as [[|]|]. }
  destruct (truthyStr (up_filename st1)).
  - pose proof (removeFile_trace (storeOracle (up_store st1)) containerU
                  (default "" (up_filename st1))) as [Hno Hsub].
    destruct (removeFile _ _ _ _) as [tr [e|u]]; cbn in *; rewrite Hs, Hb.
    + split; [by exists tr|]. intros p data. apply Hsub.
    + split; [by exists tr|]. intros p data. apply Hsub.
  - rewrite Hs, Hb. split; [|done]. exists []. rewrite app_nil_r.
    split; [done|]. intros p Hin. by apply elem_of_nil in Hin.
Qed.

Lemma nameFile_type file uu :
  f_type (nameFile env options file uu).1 = f_type file.
Proof.
  unfold nameFile. destruct (o_getFilename options); [done|].
  by case_bool_decide.
Qed.

Lemma formError_fires err s :
  up_error s = None -> up_ended s = false ->
  formErrorU err s = emitErrorU err (set_error (Some err) s).
Proof. intros He Hn. unfold formError. by rewrite He, Hn. Qed.

Lemma formError_noop err s : is_Some (up_error s) -> formErrorU err s = s.
Proof. intros [e He]. unfold formError. by rewrite He. Qed.

Lemma formError_backend err st :
  (exists tr, up_backend (formErrorU err st) = up_backend st ++ tr ∧
              forall p, Fs (CreateWriteStream p) ∉ tr) ∧
  (forall p data, up_store (formErrorU err st) !! p = Some data ->
                  up_store st !! p = Some data).
Proof.
  assert (Hsame : (exists tr : list action, up_backend st = up_backend st ++ tr ∧
                     forall p, Fs (CreateWriteStream p) ∉ tr) ∧
                  (forall p data, up_store st !! p = Some data ->
                                  up_store st !! p = Some data)).
  { split; [|done]. exists []. rewrite app_nil_r. split; [done|].
    intros p Hin. by apply elem_of_nil in Hin. }
  unfold formError. destruct (up_error st); [done|].
  destruct (up_ended st); [done|].
  unfold emitError. cbn. apply (onFormError_backend (set_error (Some err) st)).
Qed.

(** C8. When [allowedContentTypes] resolves, for this file, to an array
    that is not empty and does not contain the declared content type of a
    file part (whose extension is not forbidden), [handlePart] returns
    before a writer is opened: the part has no writer, no write stream is
    created and nothing is added to what the backend stores. The
    content-type error goes to the callback, unless an error was recorded
    before, which stays the only one. *)
Theorem disallowed_content_type_is_rejected
        (st : State) (part : Part) (filename : string)
        (d : dyn arrayish) (allowed : list string) :
  part_filename part = Some filename -> filename <> "" ->
  checkExtname options (Path.extname filename) = None ->
  o_allowedContentTypes options = Some d ->
  resolve d (nameFile env options
               (newFileInfo options reqContainer part filename)
               (up_uuids st)).1 = Arr allowed ->
  allowed <> [] -> inList (part_mime part) allowed = false ->
  let st' := handlePartU part st in
  let err := contentTypeError (part_mime part) allowed in
  writerOf st' (length (up_parts st)) = None ∧
  (exists tr, up_backend st' = up_backend st ++ tr ∧
              forall p, Fs (CreateWriteStream p) ∉ tr) ∧
  (forall p data, up_store st' !! p = Some data -> up_store st !! p = Some data) ∧
  (up_error st = None -> up_ended st = false ->
   up_error st' = Some err ∧ up_callbacks st' = up_callbacks st ++ [CbErr err]) ∧
  (is_Some (up_error st) ->
   up_error st' = up_error st ∧ up_callbacks st' = up_callbacks st).
Proof.
  intros Hfn Hne Hext Hopt Hres Hnonempty Hnot. cbv zeta.
  unfold handlePart. rewrite Hfn.
  destruct (String.eqb_spec filename ""); [done|].
  unfold beginFile. cbn [up_uuids set_flushing].
  pose proof (nameFile_type (newFileInfo options reqContainer part filename)
                (up_uuids st)) as Htype.
  destruct (nameFile _ _ _ _) as [file uu]. cbn [fst] in *.
  rewrite Hext.
  assert (Hct : checkContentType options file =
                Some (contentTypeError (part_mime part) allowed)).
  { unfold checkContentType. rewrite Hopt, Hres, Htype. cbn [f_type newFileInfo].
    rewrite Hnot. by destruct allowed. }
  rewrite Hct. unfold rejectPart.
  set (err := contentTypeError (part_mime part) allowed).
  match goal with |- context [formErrorU err ?s] => set (s0 := s) end.
  split; [|split; [|split; [|split]]].
  - destruct (formError_keeps err s0 (length (up_parts st))
                (IsFile {| c_part := part; c_file := file; c_maxFileSize := 0;
                           c_fileSize := 0; c_hashed := []; c_writer := None |}))
      as (p' & Hp' & Hs & _).
    { subst s0. cbn. rewrite lookup_app_r by lia. by rewrite Nat.sub_diag. }
    unfold writerOf. rewrite Hp'. destruct p' as [d'|c']; [done|].
    cbn in Hs. injection Hs as _ _ Hs. by destruct (c_writer c').
  - exact (proj1 (formError_backend err s0)).
  - exact (proj2 (formError_backend err s0)).
  - intros Herr Hend. rewrite (formError_fires err s0 Herr Hend).
    destruct (emitError_callbacks err (set_error (Some err) s0)) as [Hcb He].
    by rewrite Hcb, He.
  - intros Herr. by rewrite (formError_noop err s0 Herr).
Qed.

(** *** Exactly one result *)

Lemma updateFile_outside id f st : sameOutside st (updateFile id f st).
Proof.
  unfold updateFile. destruct (up_parts st !! id) as [[|]|];
    by repeat split.
Qed.






Lemma maybeEnd_form st :
  up_ended (maybeEnd st) = up_ended st ∧
  up_error (maybeEnd st) = up_error st ∧
  up_store (maybeEnd st) = up_store st ∧
  (up_ended st = false ∨ is_Some (up_error st) -> maybeEnd st = st).
Proof.
  unfold maybeEnd, emitEnd.
  destruct (up_ended st) eqn:Hn; cbn [negb orb].
  - destruct (negb (Nat.eqb _ 0)); cbn [orb];
      [by repeat split|].
    case_bool_decide as He; [by repeat split|].
    destruct (isEmpty _); repeat split; try done; by intros [?|?].
  - by repeat split.
Qed.

Lemma endFunc_form id c st :
  up_ended (endFunc id c st) = up_ended st ∧
  up_error (endFunc id c st) = up_error st ∧
  up_store (endFunc id c st) = up_store st ∧
  (up_ended st = false ∨ is_Some (up_error st) ->
   up_callbacks (endFunc id c st) = up_callbacks st).
Proof.
  unfold endFunc.
  match goal with |- context [maybeEnd ?s] =>
    destruct (maybeEnd_form s) as (Hn & He & Hs & Hq);
    set (s1 := s) in * end.
  match goal with
  | s1 := context [updateFile id ?f ?s0] |- _ =>
      destruct (updateFile_outside id f s0)
        as (He0 & Hn0 & _ & _ & _ & _ & _ & _ & _ & _ & Hcb0 & _ & _ & Hs0)
  end.
  assert (up_ended s1 = up_ended st) as Hn1 by (subst s1; cbn; by rewrite Hn0).
  assert (up_error s1 = up_error st) as He1 by (subst s1; cbn; by rewrite He0).
  assert (up_store s1 = up_store st) as Hs1 by (subst s1; cbn; by rewrite Hs0).
  assert (up_callbacks s1 = up_callbacks st) as Hcb1
    by (subst s1; cbn; by rewrite Hcb0).
  rewrite Hn, He, Hs, Hn1, He1, Hs1. repeat split.
  intros H. rewrite Hq; [done|]. by rewrite Hn1, He1.
Qed.







(** *** The writer and the file name the error listener uses *)

Lemma withAcl_name file : f_name (withAcl options file) = f_name file.
Proof. unfold withAcl. by destruct (truthyDynStr _). Qed.

Lemma handlePart_new part st c w :
  up_parts (handlePartU part st) !! length (up_parts st) = Some (IsFile c) ->
  c_writer c = Some w ->
  w_stream w = snd (upload root containerU (f_name (c_file c)) None) ∧
  up_writer (handlePartU part st) = Some (length (up_parts st)) ∧
  up_filename (handlePartU part st) = Some (f_name (c_file c)).
Proof.
  assert (Hnew : forall (l : list PartCtx) p, (l ++ [p]) !! length l = Some p).
  { intros l p. rewrite lookup_app_r by lia. by rewrite Nat.sub_diag. }
  assert (Hrej : forall err s0 file,
            up_parts s0 !! length (up_parts st) =
              Some (IsFile {| c_part := part; c_file := file; c_maxFileSize := 0;
                              c_fileSize := 0; c_hashed := []; c_writer := None |}) ->
            up_parts (formErrorU err s0) !! length (up_parts st) = Some (IsFile c) ->
            c_writer c = Some w -> False).
  { intros err s0 file Hp0 Hp Hw.
    destruct (formError_keeps err s0 _ _ Hp0) as (p' & Hp' & Hs & _).
    rewrite Hp in Hp'. injection Hp' as <-. cbn in Hs.
    injection Hs as _ _ Hs. by rewrite Hw in Hs. }
  unfold handlePart, beginField, beginFile, rejectPart.
  destruct (part_filename part) as [fn|];
    [|cbn; rewrite Hnew; intros [=]].
  destruct (String.eqb fn ""); [cbn; rewrite Hnew; intros [=]|].
  destruct (nameFile _ _ _ _) as [file uu].
  destruct (checkExtname _ _) as [err|].
  { intros Hp Hw. exfalso. eapply Hrej; [|exact Hp|exact Hw]. cbn. apply Hnew. }
  destruct (checkContentType _ _) as [err|].
  { intros Hp Hw. exfalso. eapply Hrej; [|exact Hp|exact Hw]. cbn. apply Hnew. }
  destruct (upload _ _ _ _) as [tr wr] eqn:Hup. cbn. rewrite Hnew.
  intros [= <-] [= <-]. cbn. rewrite Hup. by rewrite withAcl_name.
Qed.

Lemma step_sameWriter st ev :
  match ev with
  | EvPart _ => True
  | _ => up_writer (stepU st ev) = up_writer st ∧
         up_filename (stepU st ev) = up_filename st
  end.
Proof.
  destruct ev as [part|buf| | |rerr|id|id err|id]; try done; cbn [step].
  - unfold onData. destruct (up_current st) as [cur|]; [|done].
    destruct (up_parts st !! cur) as [[d|c]|]; [| |done].
    + unfold fieldData. cbn. destruct (maxFieldsSize <? _).
      * match goal with |- context [formErrorU ?e ?s] =>
          destruct (formError_sameForm e s)
            as (_ & _ & _ & _ & _ & _ & -> & -> & _) end. done.
      * by destruct (decoder_write _ _ _).
    + destruct (c_writer c); [|done].
      destruct (meterData_sameForm cur buf st)
        as (_ & _ & _ & _ & _ & _ & Hf & Hw & _).
      set (st1 := meterDataU cur buf st) in *.
      destruct (pipeData_store cur buf (hashData cur buf st1)) as [s ->].
      cbn. unfold hashData.
      match goal with |- context [updateFile cur ?f st1] =>
        destruct (updateFile_sameForm cur f st1)
          as (_ & _ & _ & _ & _ & _ & -> & -> & _) end. done.
  - unfold onEnd. destruct (up_current st) as [cur|]; [|done]. cbn.
    destruct (up_parts st !! cur) as [[d|c]|]; try done.
    destruct (c_writer c); [|done]. unfold fileEnd.
    match goal with |- context [updateFile cur ?f st] =>
      destruct (updateFile_sameForm cur f st)
        as (_ & _ & _ & _ & _ & _ & -> & -> & _) end. done.
  - unfold maybeEnd, emitEnd. destruct (_ || _); [done|].
    by destruct (isEmpty _).
  - by destruct (formError_sameForm rerr st)
      as (_ & _ & _ & _ & _ & _ & -> & -> & _).
  - destruct (up_parts st !! id) as [[d|c]|]; try done.
    destruct (c_writer c); [|done]. unfold endFunc, maybeEnd, emitEnd.
    match goal with |- context [updateFile id ?f ?s] =>
      destruct (updateFile_sameForm id f s)
        as (_ & _ & _ & _ & _ & _ & Hf & Hw & _);
      set (s1 := updateFile id f s) in * end.
    destruct (_ || _); [cbn; by rewrite Hf, Hw|].
    destruct (isEmpty _); cbn; by rewrite Hf, Hw.
  - destruct (writerOf st id); [|done].
    by destruct (emitError_sameForm err st)
      as (_ & _ & _ & _ & _ & _ & -> & -> & _).
Qed.

Lemma step_length st ev :
  length (up_parts (stepU st ev)) =
  match ev with
  | EvPart _ => S (length (up_parts st))
  | _ => length (up_parts st)
  end.
Proof.
  destruct ev as [part|buf| | |rerr|id|id err|id].
  - cbn [step]. by destruct (handlePart_opened part st) as (_ & -> & _).
  - cbn [step]. by destruct (onData_parts buf st) as (-> & _).
  - by pose proof (step_keeps st EvEnd) as (_ & -> & _).
  - by pose proof (step_keeps st EvRequestEnd) as (_ & -> & _).
  - by pose proof (step_keeps st (EvRequestError rerr)) as (_ & -> & _).
  - by pose proof (step_keeps st (EvWriterSuccess id)) as (_ & -> & _).
  - by pose proof (step_keeps st (EvWriterError id err)) as (_ & -> & _).
  - done.
Qed.

Lemma step_current st ev id :
  up_current (stepU st ev) = Some id ->
  match ev with
  | EvPart _ => id = length (up_parts st)
  | EvEnd => False
  | _ => up_current st = Some id
  end.
Proof.
  destruct ev as [part|buf| | |rerr|j|j err|j].
  - destruct (handlePart_opened part st) as (_ & _ & Hc & _).
    cbn [step]. rewrite Hc. by intros [= <-].
  - destruct (onData_parts buf st) as (_ & Hc & _). cbn [step]. by rewrite Hc.
  - pose proof (step_keeps st EvEnd) as (_ & _ & Hc). by rewrite Hc.
  - pose proof (step_keeps st EvRequestEnd) as (_ & _ & Hc). by rewrite Hc.
  - pose proof (step_keeps st (EvRequestError rerr)) as (_ & _ & Hc). by rewrite Hc.
  - pose proof (step_keeps st (EvWriterSuccess j)) as (_ & _ & Hc). by rewrite Hc.
  - pose proof (step_keeps st (EvWriterError j err)) as (_ & _ & Hc). by rewrite Hc.
  - done.
Qed.

Local Abbreviation writersOKU := (writersOK root options reqContainer).

Lemma step_writersOK st ev : writersOKU st -> writersOKU (stepU st ev).
Proof.
  intros H id c' w' Hid' Hw'.
  destruct (decide (id < length (up_parts st))%nat) as [Hlt|Hge].
  - destruct (lookup_lt_is_Some_2 _ _ Hlt) as [p Hp].
    destruct (step_static st ev id p Hp) as (p'' & Hp'' & Hs).
    rewrite Hid' in Hp''. injection Hp'' as <-.
    destruct p as [d|c]; [done|]. cbn in Hs. injection Hs as Hname _ Hstream.
    rewrite Hw' in Hstream. destruct (c_writer c) as [w|] eqn:Hw; [|done].
    cbn in Hstream. injection Hstream as Hstream.
    destruct (H id c w Hp Hw) as [Hup Hcur]. rewrite Hname, Hstream.
    split; [done|]. intros Hc. apply step_current in Hc.
    pose proof (step_sameWriter st ev) as Hsw.
    destruct ev as [part|buf| | |rerr|j|j err|j]; [lia|..]; try done;
      destruct Hsw as [-> ->]; by apply Hcur.
  - assert (Hlt' : (id < length (up_parts (stepU st ev)))%nat)
      by (by eapply lookup_lt_Some).
    rewrite step_length in Hlt'.
    destruct ev as [part|buf| | |rerr|j|j err|j]; try lia.
    assert (id = length (up_parts st)) as -> by lia.
    cbn [step] in *. destruct (handlePart_new part st c' w' Hid' Hw') as (? & ? & ?).
    done.
Qed.


(** *** The byte count of a part *)

Local Abbreviation sizesOKU := (sizesOK options).





(** *** A file past its size limit *)

Lemma upload_file_stream c n path flags :
  snd (upload root c n None) = WFileStream path flags ->
  validName host c = true ∧ validName host n = true ∧
  path = Path.join [root; c; n].
Proof.
  unfold upload. destruct (validName host c); [|done].
  destruct (validName host n); [|done]. cbn. by intros [= <- _].
Qed.





(** *** More on rejected parts *)

Lemma inList_nonempty x (l : list string) : inList x l = true -> l <> [].
Proof. by destruct l. Qed.

(** X14. A file part whose extension, compared without regard to case, is in
    [forbidExtnames] is turned away before a writer is opened: the part has
    no writer, no write stream is created and nothing is added to what the
    backend stores. The extension is that of the name the client sent, not
    of the name a renamer gives the file. The extension error goes to the
    callback, unless an error was recorded before. *)
Theorem forbidden_extension_is_rejected
        (st : State) (part : Part) (filename : string) (forbidden : list string) :
  part_filename part = Some filename -> filename <> "" ->
  o_forbidExtnames options = Some (Arr forbidden) ->
  inList (JS.toLowerCase (Path.extname filename))
         (map JS.toLowerCase forbidden) = true ->
  let st' := handlePartU part st in
  let err := extnameError (Path.extname filename) forbidden in
  writerOf st' (length (up_parts st)) = None ∧
  (exists tr, up_backend st' = up_backend st ++ tr ∧
              forall p, Fs (CreateWriteStream p) ∉ tr) ∧
  (forall p data, up_store st' !! p = Some data -> up_store st !! p = Some data) ∧
  (up_error st = None -> up_ended st = false ->
   up_error st' = Some err ∧ up_callbacks st' = up_callbacks st ++ [CbErr err]) ∧
  (is_Some (up_error st) ->
   up_error st' = up_error st ∧ up_callbacks st' = up_callbacks st).
Proof.
  intros Hfn Hne Hopt Hin. cbv zeta.
  unfold handlePart. rewrite Hfn.
  destruct (String.eqb_spec filename ""); [done|].
  unfold beginFile. cbn [up_uuids set_flushing].
  destruct (nameFile _ _ _ _) as [file uu].
  assert (Hext : checkExtname options (Path.extname filename) =
                 Some (extnameError (Path.extname filename) forbidden)).
  { unfold checkExtname. rewrite Hopt, Hin.
    assert (forbidden <> []) as Hnil.
    { intros ->. discriminate. }
    by destruct forbidden. }
  rewrite Hext. unfold rejectPart.
  set (err := extnameError (Path.extname filename) forbidden).
  match goal with |- context [formErrorU err ?s] => set (s0 := s) end.
  split; [|split; [|split; [|split]]].
  - destruct (formError_keeps err s0 (length (up_parts st))
                (IsFile {| c_part := part; c_file := file; c_maxFileSize := 0;
                           c_fileSize := 0; c_hashed := []; c_writer := None |}))
      as (p' & Hp' & Hs & _).
    { subst s0. cbn. rewrite lookup_app_r by lia. by rewrite Nat.sub_diag. }
    unfold writerOf. rewrite Hp'. destruct p' as [d'|c']; [done|].
    cbn in Hs. injection Hs as _ _ Hs. by destruct (c_writer c').
  - exact (proj1 (formError_backend err s0)).
  - exact (proj2 (formError_backend err s0)).
  - intros Herr Hend. rewrite (formError_fires err s0 Herr Hend).
    destruct (emitError_callbacks err (set_error (Some err) s0)) as [Hcb He].
    by rewrite Hcb, He.
  - intros Herr. by rewrite (formError_noop err s0 Herr).
Qed.


(** *** Which paths an upload acts on *)

Local Abbreviation managedU := (managed root options reqContainer).
Local Abbreviation managedCallsU := (managedCalls root options reqContainer).
Local Abbreviation tameU := (tame root options reqContainer).

Lemma managedCalls_nil : managedCallsU [].
Proof. intros a Ha. by apply elem_of_nil in Ha. Qed.

Lemma managedCalls_app tr1 tr2 :
  managedCallsU tr1 -> managedCallsU tr2 -> managedCallsU (tr1 ++ tr2).
Proof.
  intros H1 H2 a Ha. apply elem_of_app in Ha as [Ha|Ha]; [by apply H1|by apply H2].
Qed.

Lemma tame_refl st : tameU st st.
Proof.
  split; [done|]. exists []. split; [by rewrite app_nil_r|apply managedCalls_nil].
Qed.

Lemma tame_trans st1 st2 st3 : tameU st1 st2 -> tameU st2 st3 -> tameU st1 st3.
Proof.
  intros [Hs1 (tr1 & Hb1 & Hc1)] [Hs2 (tr2 & Hb2 & Hc2)]. split.
  - intros p Hp. by rewrite Hs2, Hs1.
  - exists (tr1 ++ tr2). split; [by rewrite Hb2, Hb1, app_assoc|].
    by apply managedCalls_app.
Qed.

Lemma tame_frame st st' :
  up_store st' = up_store st -> up_backend st' = up_backend st -> tameU st st'.
Proof.
  intros Hs Hb. split; [by rewrite Hs|].
  exists []. split; [by rewrite Hb, app_nil_r|apply managedCalls_nil].
Qed.

Lemma updateFile_tame id f st : tameU st (updateFile id f st).
Proof.
  destruct (updateFile_outside id f st)
    as (_ & _ & _ & _ & _ & _ & _ & _ & _ & _ & _ & _ & Hb & Hs).
  by apply tame_frame.
Qed.

Lemma removeFile_managed (fs : FsOracle) f (s : gmap string (list Byte.byte)) :
  (forall p, ¬ managedU p ->
     applyFs (fst (removeFile root fs containerU f)) s !! p = s !! p) ∧
  managedCallsU (fst (removeFile root fs containerU f)).
Proof.
  unfold removeFile.
  destruct (validName host containerU) eqn:Hc;
    [destruct (validName host f) eqn:Hf|]; cbn [fst applyFs].
  - assert (managedU (Path.join [root; containerU; f])) as Hm
      by (split; [done|by exists f]).
    split.
    + intros p Hp. apply lookup_delete_ne. by intros <-.
    + intros a Ha. repeat (apply elem_of_cons in Ha as [Ha|Ha]; [try done|]).
      * injection Ha as ->. eexists. split; [exact Hm|by right].
      * by apply elem_of_nil in Ha.
  - split; [done|]. intros a Ha.
    repeat (apply elem_of_cons in Ha as [Ha|Ha]; [done|]).
    by apply elem_of_nil in Ha.
  - split; [done|]. intros a Ha.
    repeat (apply elem_of_cons in Ha as [Ha|Ha]; [done|]).
    by apply elem_of_nil in Ha.
Qed.

Lemma upload_managed n flags (s : gmap string (list Byte.byte)) :
  (forall p, ¬ managedU p ->
     applyFs (fst (upload root containerU n flags)) s !! p = s !! p) ∧
  managedCallsU (fst (upload root containerU n flags)).
Proof.
  unfold upload.
  destruct (validName host containerU) eqn:Hc;
    [destruct (validName host n) eqn:Hf|]; cbn [fst applyFs].
  - assert (managedU (Path.join [root; containerU; n])) as Hm
      by (split; [done|by exists n]).
    split.
    + intros p Hp. apply lookup_insert_ne. by intros <-.
    + intros a Ha. repeat (apply elem_of_cons in Ha as [Ha|Ha]; [try done|]).
      * injection Ha as ->. eexists. split; [exact Hm|by left].
      * by apply elem_of_nil in Ha.
  - split; [done|]. intros a Ha.
    repeat (apply elem_of_cons in Ha as [Ha|Ha]; [done|]).
    by apply elem_of_nil in Ha.
  - split; [done|]. intros a Ha.
    repeat (apply elem_of_cons in Ha as [Ha|Ha]; [done|]).
    by apply elem_of_nil in Ha.
Qed.

Lemma onFormError_tame st : tameU st (onFormErrorU st).
Proof.
  unfold onFormError.
  set (st1 := match up_writer st with Some id => destroyWriter id st | None => st end).
  assert (up_store st1 = up_store st ∧ up_backend st1 = up_backend st) as [Hs Hb].
  { subst st1. destruct (up_writer st) as [id|]; [|done].
    unfold destroyWriter. destruct (writerOf st id) as [w|]; [|done].
    destruct (w_destroyed w); [done|]. unfold updateFile.
    by destruct (up_parts st !! id) as [[|]|]. }
  destruct (truthyStr (up_filename st1)); [|by apply tame_frame].
  destruct (removeFile_managed (storeOracle (up_store st1))
              (default "" (up_filename st1)) (up_store st1)) as [Hst Hcalls].
  destruct (removeFile _ _ _ _) as [tr [e|u]]; cbn [fst] in *;
    (split; [intros p Hp; cbn; rewrite <- Hs; by apply Hst|]);
    exists tr; cbn; by rewrite Hb.
Qed.

Lemma emitError_tame err st : tameU st (emitErrorU err st).
Proof.
  destruct (onFormError_tame st) as [Hs (tr & Hb & Hc)].
  unfold emitError. split; [exact Hs|]. by exists tr.
Qed.

Lemma formError_tame err st : tameU st (formErrorU err st).
Proof.
  unfold formError. destruct (up_error st); [apply tame_refl|].
  destruct (up_ended st); [apply tame_refl|].
  exact (emitError_tame err (set_error (Some err) st)).
Qed.

Lemma handlePart_tame part st : tameU st (handlePartU part st).
Proof.
  unfold handlePart, beginField, beginFile, rejectPart.
  destruct (part_filename part) as [fn|]; [|by apply tame_frame].
  destruct (String.eqb fn ""); [by apply tame_frame|].
  destruct (nameFile _ _ _ _) as [file uu].
  destruct (checkExtname _ _) as [err|];
    [match goal with |- context [formErrorU ?e ?s] =>
       exact (formError_tame e s) end|].
  destruct (checkContentType _ _) as [err|];
    [match goal with |- context [formErrorU ?e ?s] =>
       exact (formError_tame e s) end|].
  destruct (upload_managed (f_name (withAcl options file)) None (up_store st))
    as [Hst Hcalls].
  destruct (upload _ _ _ _) as [tr wr]. cbn [fst] in *.
  split; [exact Hst|]. by exists tr.
Qed.

Lemma meterData_tame id buf st : tameU st (meterDataU id buf st).
Proof.
  unfold meterData. destruct (up_parts st !! id) as [[|c]|]; try apply tame_refl.
  destruct (c_maxFileSize c =? 0); [apply tame_refl|].
  destruct (_ <? _); [|apply updateFile_tame].
  eapply tame_trans; [apply updateFile_tame|apply formError_tame].
Qed.

Lemma pipeData_tame id buf st :
  (forall c w path flags,
     up_parts st !! id = Some (IsFile c) -> c_writer c = Some w ->
     w_stream w = WFileStream path flags -> managedU path) ->
  tameU st (pipeData id buf st).
Proof.
  intros Hm. unfold pipeData.
  destruct (up_parts st !! id) as [[|c]|]; try apply tame_refl.
  destruct (c_writer c) as [w|] eqn:Hcw; [|apply tame_refl].
  destruct (w_stream w) as [|path flags] eqn:Hw; [apply tame_refl|].
  destruct (_ || _); [apply tame_refl|].
  split.
  - intros p Hp. cbn. apply lookup_alter_ne. intros <-. apply Hp.
    by apply (Hm c w path flags).
  - exists []. split; [cbn; by rewrite app_nil_r|apply managedCalls_nil].
Qed.

Lemma writersOK_managed st id c w path flags :
  writersOKU st ->
  up_parts st !! id = Some (IsFile c) -> c_writer c = Some w ->
  w_stream w = WFileStream path flags -> managedU path.
Proof.
  intros Hok Hid Hw Hs. destruct (Hok id c w Hid Hw) as [Hup _].
  rewrite Hs in Hup. symmetry in Hup.
  apply upload_file_stream in Hup as (Hc & Hn & ->).
  split; [done|]. by eexists.
Qed.

Lemma onData_tame buf st : writersOKU st -> tameU st (onDataU buf st).
Proof.
  intros Hok. unfold onData. destruct (up_current st) as [id|]; [|apply tame_refl].
  destruct (up_parts st !! id) as [[d|c]|] eqn:Hid; [| |apply tame_refl].
  - unfold fieldData. cbn. destruct (maxFieldsSize <? _).
    + match goal with |- context [formErrorU ?e ?s] =>
        exact (tame_trans st s _ (tame_frame st s eq_refl eq_refl)
                 (formError_tame e s)) end.
    + destruct (decoder_write _ _ _). by apply tame_frame.
  - destruct (c_writer c) as [w|] eqn:Hw; [|apply tame_refl].
    eapply tame_trans; [apply meterData_tame|].
    eapply tame_trans; [apply updateFile_tame|].
    apply pipeData_tame. intros c2 w2 path flags Hid2 Hw2 Hs2.
    destruct (meterData_parts id buf st id (IsFile c) Hid)
      as (p1 & Hid1 & Hst1 & _).
    unfold hashData in Hid2. rewrite updateFile_lookup_eq, Hid1 in Hid2.
    destruct p1 as [d1|c1]; [done|]. injection Hid2 as <-. cbn in Hw2, Hst1.
    injection Hst1 as _ _ Hst1. rewrite Hw2, Hw in Hst1. cbn in Hst1.
    injection Hst1 as Hst1.
    eapply (writersOK_managed st id c w path flags); try done. congruence.
Qed.

Lemma step_tame st ev : writersOKU st -> tameU st (stepU st ev).
Proof.
  intros Hok. destruct ev as [part|buf| | |rerr|id|id err|id]; cbn [step].
  - apply handlePart_tame.
  - by apply onData_tame.
  - unfold onEnd. destruct (up_current st) as [id|]; [|apply tame_refl].
    match goal with |- tame _ _ _ st (set_current None ?s) =>
      apply (tame_trans st s); [|by apply tame_frame] end.
    destruct (up_parts st !! id) as [[d|c]|]; try apply tame_refl.
    + by apply tame_frame.
    + destruct (c_writer c); [apply updateFile_tame|apply tame_refl].
  - destruct (maybeEnd_form (set_ended true st)) as (_ & _ & Hs & _).
    apply tame_frame; [exact Hs|].
    unfold maybeEnd, emitEnd. destruct (_ || _); [done|]. by destruct (isEmpty _).
  - apply formError_tame.
  - destruct (up_parts st !! id) as [[d|c]|]; try apply tame_refl.
    destruct (c_writer c); [|apply tame_refl].
    destruct (endFunc_form id c st) as (_ & _ & Hs & _).
    apply tame_frame; [exact Hs|].
    unfold endFunc, maybeEnd, emitEnd.
    match goal with |- context [updateFile id ?f ?s] =>
      destruct (updateFile_outside id f s)
        as (_ & _ & _ & _ & _ & _ & _ & _ & _ & _ & _ & _ & Hb & _);
      set (s1 := updateFile id f s) in * end.
    destruct (_ || _); [exact Hb|]. destruct (isEmpty _); exact Hb.
  - destruct (writerOf st id); [apply emitError_tame|apply tame_refl].
  - apply tame_refl.
Qed.

Lemma run_tame st evs st' :
  writersOKU st -> runU st evs = Some st' -> tameU st st'.
Proof.
  revert st. induction evs as [|ev evs IH]; intros st Hok Hrun; cbn in Hrun.
  - injection Hrun as <-. apply tame_refl.
  - destruct (enabled st ev); [|done].
    eapply tame_trans; [by apply step_tame|].
    apply IH; [by apply step_writersOK|done].
Qed.

(** X16. Whatever the client sends, in every run of an upload the store changes
    only at paths of the form root/container/name where container and name
    both pass the name validator, and every call made on the backend
    creates a write stream on such a path or unlinks one: a part whose file
    name is a path ([a/b], [../x]) reaches no file. *)
Theorem upload_acts_on_validated_paths_only
        (store : gmap string (list Byte.byte)) (evs : list Event) (st : State) :
  runU (init store) evs = Some st ->
  (forall p, ¬ managedU p -> up_store st !! p = store !! p) ∧
  managedCallsU (up_backend st).
Proof.
  intros Hrun.
  destruct (run_tame (init store) evs st) as [Hs (tr & Hb & Hc)]; [|done|].
  { intros j c0 w0 H0. by cbn in H0. }
  split; [exact Hs|]. cbn in Hb. by rewrite Hb.
Qed.

(** *** A form without file parts *)







(** *** A file stored whole *)








(** *** The callback receives a result only when every file is stored *)

Lemma isPending_progress p p' :
  progress p' = progress p -> isPending p' = isPending p.
Proof.
  destruct p as [d|c], p' as [d'|c']; cbn; try done.
  intros [= _ H]. destruct (c_writer c), (c_writer c'); cbn in H; try done.
  by injection H as ->.
Qed.

Lemma pending_cons p l :
  pending (p :: l) = ((if isPending p then 1 else 0) + pending l)%nat.
Proof.
  unfold pending. destruct (isPending p) eqn:E.
  - by rewrite filter_cons_True.
  - rewrite filter_cons_False; [done|]. congruence.
Qed.

Lemma pending_progress l l' :
  progress <$> l' = progress <$> l -> pending l' = pending l.
Proof.
  revert l'. induction l as [|p l IH]; intros [|p' l'] H; try done.
  cbn in H. injection H as Hp Hl.
  by rewrite !pending_cons, (isPending_progress _ _ Hp), (IH _ Hl).
Qed.

Lemma pending_app l p :
  pending (l ++ [p]) = (pending l + (if isPending p then 1 else 0))%nat.
Proof.
  induction l as [|q l IH]; cbn [app].
  - rewrite pending_cons. unfold pending. rewrite filter_nil. cbn. lia.
  - rewrite !pending_cons, IH. lia.
Qed.

Lemma pending_insert l id p p' :
  l !! id = Some p -> isPending p = true -> isPending p' = false ->
  (0 < pending l)%nat ∧ pending (<[id := p']> l) = pred (pending l).
Proof.
  revert id. induction l as [|q l IH]; intros [|id] Hl Hp Hp'; try done;
    cbn in Hl.
  - injection Hl as ->. change (<[0%nat := p']> (p :: l)) with (p' :: l).
    rewrite !pending_cons, Hp, Hp'. lia.
  - destruct (IH id Hl Hp Hp') as [Hpos Heq].
    change (<[S id := p']> (q :: l)) with (q :: <[id := p']> l).
    rewrite !pending_cons, Heq. destruct (isPending q); lia.
Qed.

Lemma pending_none l id p :
  pending l = 0%nat -> l !! id = Some p -> isPending p = false.
Proof.
  revert id. induction l as [|q l IH]; intros [|id] H0 Hl; try done;
    rewrite pending_cons in H0; cbn in Hl.
  - injection Hl as ->. destruct (isPending p); [lia|done].
  - apply (IH id); [|done]. destruct (isPending q); lia.
Qed.

Lemma pushTo_mem {A} key (v : A) (m : gmap string (list A)) :
  exists l, pushTo key v m !! key = Some l ∧ v ∈ l.
Proof.
  unfold pushTo. destruct (m !! key) as [values|].
  - exists (values ++ [v]). rewrite lookup_insert_eq. split; [done|].
    apply elem_of_app. right. by apply list_elem_of_singleton.
  - exists [v]. rewrite lookup_insert_eq. split; [done|].
    by apply list_elem_of_singleton.
Qed.

Lemma pushTo_keeps {A} key (v : A) (m : gmap string (list A)) k l x :
  m !! k = Some l -> x ∈ l ->
  exists l', pushTo key v m !! k = Some l' ∧ x ∈ l'.
Proof.
  intros Hk Hx. unfold pushTo. destruct (decide (key = k)) as [->|Hne].
  - rewrite Hk. exists (l ++ [v]). rewrite lookup_insert_eq. split; [done|].
    apply elem_of_app. by left.
  - exists l. destruct (m !! key); by rewrite lookup_insert_ne.
Qed.

Lemma calm_refl st : calm st st.
Proof. unfold calm. by split_and!. Qed.

Lemma calm_trans st1 st2 st3 : calm st1 st2 -> calm st2 st3 -> calm st1 st3.
Proof.
  intros (Hp & Hf & Hl & Hn & Hc) (Hp' & Hf' & Hl' & Hn' & Hc').
  unfold calm. split_and!; try congruence.
  intros files fields H. by apply Hc, Hc'.
Qed.

Lemma calm_frame st st' :
  up_parts st' = up_parts st -> up_flushing st' = up_flushing st ->
  up_files st' = up_files st -> up_ended st' = up_ended st ->
  up_callbacks st' = up_callbacks st -> calm st st'.
Proof.
  intros Hp Hf Hl Hn Hc. unfold calm. rewrite Hp, Hf, Hl, Hn, Hc.
  by split_and!.
Qed.

Lemma updateFile_calm id f st :
  (forall c, progress (IsFile (f c)) = progress (IsFile c)) ->
  calm st (updateFile id f st).
Proof.
  intros Hf. unfold updateFile.
  destruct (up_parts st !! id) as [[d|c]|] eqn:E; try apply calm_refl.
  unfold calm. split_and!; try done. cbn.
  rewrite list_fmap_insert, Hf. apply list_insert_id.
  by rewrite list_lookup_fmap, E.
Qed.

Lemma destroyWriter_calm id st : calm st (destroyWriter id st).
Proof.
  unfold destroyWriter. destruct (writerOf st id) as [w|]; [|apply calm_refl].
  destruct (w_destroyed w); [apply calm_refl|].
  apply updateFile_calm. intros c. cbn. by destruct (c_writer c).
Qed.

Lemma onFormError_calm st : calm st (onFormErrorU st).
Proof.
  unfold onFormError.
  set (st1 := match up_writer st with Some id => destroyWriter id st | None => st end).
  assert (calm st st1) as H1
    by (subst st1; destruct (up_writer st);
        [apply destroyWriter_calm|apply calm_refl]).
  destruct (truthyStr (up_filename st1)); [|done].
  destruct (removeFile _ _ _ _) as [tr [e|u]]; exact H1.
Qed.

Lemma emitError_calm err st : calm st (emitErrorU err st).
Proof.
  destruct (onFormError_calm st) as (Hp & _).
  destruct (emitError_sameForm err st) as (Hl & _ & Hn & Hf & _).
  destruct (emitError_callbacks err st) as [Hc _].
  unfold calm. split_and!; try done.
  intros files fields H. rewrite Hc in H.
  apply elem_of_app in H as [H|H]; [done|].
  by apply list_elem_of_singleton in H.
Qed.

Lemma formError_calm err st : calm st (formErrorU err st).
Proof.
  unfold formError. destruct (up_error st); [apply calm_refl|].
  destruct (up_ended st) eqn:Hn; [apply calm_refl|].
  apply (calm_trans st (set_error (Some err) st)); [by apply calm_frame|].
  apply emitError_calm.
Qed.

Lemma meterData_calm id buf st : calm st (meterDataU id buf st).
Proof.
  unfold meterData. destruct (up_parts st !! id) as [[|c]|]; try apply calm_refl.
  destruct (c_maxFileSize c =? 0); [apply calm_refl|].
  match goal with
  | |- context [updateFile id ?f st] =>
      pose proof (updateFile_calm id f st (fun _ => eq_refl)) as H1
  end.
  destruct (_ <? _); [|exact H1].
  eapply calm_trans; [exact H1|apply formError_calm].
Qed.

Lemma onData_calm buf st : calm st (onDataU buf st).
Proof.
  unfold onData. destruct (up_current st) as [id|]; [|apply calm_refl].
  destruct (up_parts st !! id) as [[d|c]|] eqn:E; [| |apply calm_refl].
  - unfold fieldData.
    set (s1 := set_fieldsSize (up_fieldsSize st + Z.of_nat (length buf)) st).
    destruct (maxFieldsSize <? up_fieldsSize s1).
    + apply (calm_trans st s1); [by apply calm_frame|apply formError_calm].
    + destruct (decoder_write _ _ _) as [dec text].
      unfold calm. split_and!; try done. cbn.
      rewrite list_fmap_insert. apply list_insert_id.
      by rewrite list_lookup_fmap, E.
  - destruct (c_writer c); [|apply calm_refl].
    apply (calm_trans st (meterDataU id buf st)); [apply meterData_calm|].
    set (s1 := meterDataU id buf st).
    apply (calm_trans s1 (hashData id buf s1));
      [apply updateFile_calm; by intros c0|].
    destruct (pipeData_store id buf (hashData id buf s1)) as [s ->].
    by apply calm_frame.
Qed.

Lemma onEnd_calm st : calm st (onEnd env st).
Proof.
  unfold onEnd. destruct (up_current st) as [id|]; [|apply calm_refl].
  match goal with |- calm st (set_current None ?s) =>
    apply (calm_trans st s); [|by apply calm_frame] end.
  destruct (up_parts st !! id) as [[d|c]|]; try apply calm_refl.
  - by apply calm_frame.
  - destruct (c_writer c); [|apply calm_refl].
    apply updateFile_calm. intros c0. cbn. by destruct (c_writer c0).
Qed.

Lemma calm_settled st st' : calm st st' -> settled st -> settled st'.
Proof.
  intros (Hp & Hf & Hl & Hn & Hc) (H1 & H2 & H3). unfold settled. split_and!.
  - by rewrite Hf, H1, (pending_progress _ _ Hp).
  - intros j c' w' Hj Hw Hfin.
    assert ((progress <$> up_parts st') !! j = (progress <$> up_parts st) !! j)
      as Hpj by (by rewrite Hp).
    rewrite !list_lookup_fmap, Hj in Hpj. cbn in Hpj.
    destruct (up_parts st !! j) as [[d|c]|] eqn:Ej; try done.
    cbn in Hpj. rewrite Hw in Hpj. cbn in Hpj.
    destruct (c_writer c) as [w|] eqn:Ew; [|done]. cbn in Hpj.
    injection Hpj as Hname Hfin'.
    destruct (H2 j c w Ej Ew) as (ids & Hids & Hin); [congruence|].
    exists ids. by rewrite Hl, Hname.
  - intros files fields H. rewrite Hn, Hf. by apply (H3 files fields), Hc.
Qed.

Lemma append_settled st s1 p :
  up_ended st = false -> settled st ->
  up_parts s1 = up_parts st ++ [p] ->
  up_flushing s1 = (up_flushing st + (if isPending p then 1 else 0))%nat ->
  (forall c w, p = IsFile c -> c_writer c = Some w -> w_finished w = false) ->
  up_files s1 = up_files st -> up_callbacks s1 = up_callbacks st ->
  settled s1.
Proof.
  intros Hn (H1 & H2 & H3) Hparts Hfl Hnew Hfiles Hcb. unfold settled. split_and!.
  - by rewrite Hfl, Hparts, pending_app, H1.
  - intros j c w Hj Hw Hfin. rewrite Hparts in Hj. rewrite Hfiles.
    apply lookup_app_Some in Hj as [Hj|[_ Hj]]; [by apply (H2 j c w)|].
    destruct (j - length (up_parts st))%nat; [|done].
    injection Hj as Hp. rewrite (Hnew c w Hp Hw) in Hfin. done.
  - intros files fields H. rewrite Hcb in H.
    destruct (H3 files fields H) as [Hn' _]. congruence.
Qed.

Lemma handlePart_settled part st :
  up_ended st = false -> settled st -> settled (handlePartU part st).
Proof.
  intros Hn Hs. unfold handlePart, beginField, beginFile, rejectPart.
  assert (forall d, settled (set_current (Some (length (up_parts st)))
                      (set_parts (up_parts st ++ [IsField d]) st))) as Hfield.
  { intros d. apply (append_settled st _ (IsField d)); try done; cbn; lia. }
  destruct (part_filename part) as [fn|]; [|apply Hfield].
  destruct (String.eqb fn ""); [apply Hfield|].
  destruct (nameFile _ _ _ _) as [file uu].
  destruct (checkExtname _ _) as [err|];
    [match goal with |- settled (formErrorU ?e ?s) =>
       apply (calm_settled s _ (formError_calm e s)) end;
     eapply (append_settled st); [exact Hn|exact Hs|reflexivity|cbn; lia|
                                  by intros c w [= <-]|done|done]|].
  destruct (checkContentType _ _) as [err|];
    [match goal with |- settled (formErrorU ?e ?s) =>
       apply (calm_settled s _ (formError_calm e s)) end;
     eapply (append_settled st); [exact Hn|exact Hs|reflexivity|cbn; lia|
                                  by intros c w [= <-]|done|done]|].
  destruct (upload _ _ _ _) as [tr writer].
  eapply (append_settled st); [exact Hn|exact Hs|reflexivity|cbn; lia| |done|done].
  intros c w [= <-] [= <-]. done.
Qed.

Lemma maybeEnd_settled st : settled st -> settled (maybeEnd st).
Proof.
  intros (H1 & H2 & H3). unfold maybeEnd, emitEnd.
  destruct (negb (up_ended st) || negb (Nat.eqb (up_flushing st) 0)
            || bool_decide (is_Some (up_error st))) eqn:E; [done|].
  apply orb_false_iff in E as [E _]. apply orb_false_iff in E as [En Ef].
  apply negb_false_iff in En. apply negb_false_iff, Nat.eqb_eq in Ef.
  destruct (isEmpty _); unfold settled; by split_and!.
Qed.

Lemma endFunc_settled id c w st :
  up_parts st !! id = Some (IsFile c) -> c_writer c = Some w ->
  w_finished w = false -> settled st -> settled (endFunc id c st).
Proof.
  intros Hid Hw Hfin (H1 & H2 & H3). unfold endFunc. apply maybeEnd_settled.
  unfold updateFile. cbn. rewrite Hid. unfold settled. cbn. split_and!.
  - match goal with |- _ = length (filter _ (<[id := ?p']> ?l)) =>
      change (length (filter (fun p => isPending p = true) (<[id := p']> l)))
        with (pending (<[id := p']> l));
      destruct (pending_insert (up_parts st) id (IsFile c) p' Hid) as [_ ->] end;
      [cbn; by rewrite Hw, Hfin|cbn; by rewrite Hw|by rewrite H1].
  - intros j cj wj Hj Hwj Hfj. destruct (decide (j = id)) as [->|Hne].
    + rewrite list_lookup_insert_eq in Hj by (by eapply lookup_lt_Some).
      injection Hj as <-. cbn. apply pushTo_mem.
    + rewrite list_lookup_insert_ne in Hj by done.
      destruct (H2 j cj wj Hj Hwj Hfj) as (ids & Hids & Hin).
      by eapply pushTo_keeps.
  - intros files fields H. destruct (H3 files fields H) as [-> ->]. done.
Qed.

Lemma step_settled st ev :
  enabled st ev = true -> settled st -> settled (stepU st ev).
Proof.
  intros Hen Hs. destruct ev as [part|buf| | |rerr|id|id err|id]; cbn [step].
  - cbn in Hen. apply andb_prop in Hen as [Hn _]. apply negb_true_iff in Hn.
    by apply handlePart_settled.
  - exact (calm_settled _ _ (onData_calm buf st) Hs).
  - exact (calm_settled _ _ (onEnd_calm st) Hs).
  - apply maybeEnd_settled. destruct Hs as (H1 & H2 & H3).
    unfold settled. split_and!; try done.
    intros files fields H. split; [done|]. by apply (H3 files fields).
  - exact (calm_settled _ _ (formError_calm rerr st) Hs).
  - cbn in Hen. unfold writerOf in Hen.
    destruct (up_parts st !! id) as [[d|c]|] eqn:Hid; try done.
    destruct (c_writer c) as [w|] eqn:Hw; [|done].
    destruct (w_stream w); try done.
    apply andb_prop in Hen as [_ Hfin]. apply negb_true_iff in Hfin.
    by apply (endFunc_settled id c w).
  - destruct (writerOf st id); [|done].
    exact (calm_settled _ _ (emitError_calm err st) Hs).
  - done.
Qed.

Lemma run_settled st evs st' :
  settled st -> runU st evs = Some st' -> settled st'.
Proof.
  revert st. induction evs as [|ev evs IH]; intros st Hs Hrun; cbn [run] in Hrun.
  - by injection Hrun as <-.
  - destruct (enabled st ev) eqn:Hen; [|done].
    eapply IH; [|exact Hrun]. by apply step_settled.
Qed.

(** X19. The callback receives a result only when the upload is complete: the
    request has ended, and every file part that arrived has a writer that
    signalled success and is listed in [files] under the name of its
    field. A part that was rejected has no writer, so after such a part no
    result is delivered. *)
Theorem result_only_when_every_file_is_stored store evs st files fields :
  runU (init store) evs = Some st ->
  CbOk files fields ∈ up_callbacks st ->
  up_ended st = true ∧
  forall id c,
    up_parts st !! id = Some (IsFile c) ->
    (exists w, c_writer c = Some w ∧ w_finished w = true) ∧
    exists ids, up_files st !! part_name (c_part c) = Some ids ∧ id ∈ ids.
Proof.
  intros Hrun Hcb.
  assert (settled (init store)) as H0.
  { unfold settled. split_and!; try done.
    intros files' fields' H. cbn in H. by apply elem_of_nil in H. }
  destruct (run_settled _ _ _ H0 Hrun) as (H1 & H2 & H3).
  destruct (H3 files fields Hcb) as [Hn Hf]. split; [done|].
  intros id c Hid. rewrite Hf in H1.
  pose proof (pending_none _ _ _ (eq_sym H1) Hid) as Hp. cbn in Hp.
  destruct (c_writer c) as [w|] eqn:Hw; [|done].
  apply negb_false_iff in Hp. split; [by exists w|]. by apply (H2 id c w).
Qed.

End Handler.


Example size_exceeded_sample :
  up_callbacks exceedFinal =
    [CbErr (newError
              "maxFileSize exceeded, received 4 bytes of field data (max is 3)")] ∧
  up_store exceedState !! "/srv/storage/album1/test.jpg" = Some [Byte.x41; Byte.x42] ∧
  up_store exceedFinal !! "/srv/storage/album1/test.jpg" = None ∧
  up_backend exceedFinal =
    [Validate "album1" true; Validate "test.jpg" true;
     Join ["/srv/storage"; "album1"; "test.jpg"];
     Fs (CreateWriteStream "/srv/storage/album1/test.jpg");
     Validate "album1" true; Validate "test.jpg" true;
     Join ["/srv/storage"; "album1"; "test.jpg"];
     Fs (Unlink "/srv/storage/album1/test.jpg")].
Proof. repeat split; vm_compute; reflexivity. Qed.

(** A part that begins after the error is still handled: under the same
    stored name its file is opened anew, and the callback stays spent. *)
Example part_after_error_reopens :
  length (up_parts exceedReopened) = 2%nat ∧
  length (up_callbacks exceedReopened) = 1%nat ∧
  up_store exceedReopened !! "/srv/storage/album1/test.jpg" = Some [].
Proof. repeat split; vm_compute; reflexivity. Qed.


(** C8 as stated fails for the empty list: the part is accepted, a
    write stream is opened and the upload succeeds with the bytes stored. *)
Lemma empty_allowed_list_accepts_any_type :
  o_allowedContentTypes emptyAllowList = Some (Fixed (Arr [])) ∧
  inList (part_mime textPart) [] = false ∧
  (let st := handlePart sampleEnv "/srv/storage" emptyAllowList "album1"
                        textPart (init ∅) in
   up_error st = None ∧ up_callbacks st = [] ∧
   Fs (CreateWriteStream "/srv/storage/album1/notes.txt") ∈ up_backend st ∧
   is_Some (writerOf st 0)) ∧
  exists st files,
    run sampleEnv "/srv/storage" emptyAllowList defaultMaxFieldsSize "album1"
        (init ∅)
        [EvPart textPart; EvData [Byte.x68; Byte.x69]; EvEnd; EvRequestEnd;
         EvWriterSuccess 0] = Some st ∧
    up_store st !! "/srv/storage/album1/notes.txt" = Some [Byte.x68; Byte.x69] ∧
    up_callbacks st = [CbOk files ∅].
Proof.
  split; [reflexivity|]. split; [reflexivity|]. split.
  - cbv zeta. split; [reflexivity|]. split; [reflexivity|]. split.
    + vm_compute. apply list_elem_of_In. cbn. tauto.
    + vm_compute. by eexists.
  - eexists. eexists. split; [vm_compute; reflexivity|].
    split; vm_compute; reflexivity.
Qed.

Lemma disallowed_content_type_is_rejected_witness :
  let st' := handlePart sampleEnv "/srv/storage" imagesOnly "album1"
                        textPart (init ∅) in
  let err := contentTypeError "text/plain" ["image/png"; "image/jpeg"] in
  writerOf st' 0 = None ∧
  (exists tr, up_backend st' = [] ++ tr ∧
              forall p, Fs (CreateWriteStream p) ∉ tr) ∧
  (forall p data, up_store st' !! p = Some data ->
                  (∅ : gmap string (list Byte.byte)) !! p = Some data) ∧
  ((None : option JsError) = None -> false = false ->
   up_error st' = Some err ∧ up_callbacks st' = [] ++ [CbErr err]) ∧
  (is_Some (None : option JsError) ->
   up_error st' = None ∧ up_callbacks st' = []).
Proof.
  apply (disallowed_content_type_is_rejected sampleEnv "/srv/storage" imagesOnly
           "album1" (init ∅) textPart "notes.txt"
           (Computed (fun _ => Arr ["image/png"; "image/jpeg"]))
           ["image/png"; "image/jpeg"]).
  - reflexivity.
  - discriminate.
  - reflexivity.
  - reflexivity.
  - reflexivity.
  - discriminate.
  - reflexivity.
Defined.


Example default_limit :
  effectiveMaxFileSize noOptions = Fixed (10 * 1024 * 1024) ∧
  effectiveMaxFileSize threeBytes = Fixed 3.
Proof. split; reflexivity. Qed.

(** A whole upload of one small file to the sample storage. *)
Example upload_sample :
  exists st,
    run sampleEnv "/srv/storage" noOptions defaultMaxFieldsSize "album1"
        (init ∅)
        [EvPart samplePart; EvData [Byte.x41; Byte.x42]; EvEnd; EvRequestEnd;
         EvWriterSuccess 0] = Some st ∧
    up_store st !! "/srv/storage/album1/test.jpg" = Some [Byte.x41; Byte.x42] ∧
    up_files st !! "image" = Some [0%nat] ∧
    (exists files, up_callbacks st =
       [CbOk files ∅] ∧
       files !! "image" =
         Some [{| f_container := "album1"; f_name := "test.jpg";
                  f_type := "image/jpeg"; f_field := "image";
                  f_originalFilename := None; f_acl := None;
                  f_size := Some 2; f_md5 := Some "md5-of-2-bytes";
                  f_sha256 := Some "sha256-of-2-bytes";
                  f_providerResponse := Some VUndef |}]).
Proof.
  eexists. split; [vm_compute; reflexivity|].
  split; [vm_compute; reflexivity|]. split; [vm_compute; reflexivity|].
  eexists. split; vm_compute; reflexivity.
Qed.

Lemma listed_only_after_success_witness :
  EvWriterSuccess 0 ∈ sampleUpload ∧
  (forall j, step sampleEnv "/srv/storage" noOptions defaultMaxFieldsSize "album1"
                  sampleFinal (EvWriterClose j) = sampleFinal) ∧
  exists c w,
    up_parts sampleFinal !! 0%nat = Some (IsFile c) ∧ c_writer c = Some w ∧
    w_ended w = true ∧ w_finished w = true ∧
    up_current sampleFinal <> Some 0%nat ∧
    f_md5 (c_file c) = Some (md5hex sampleEnv (received sampleUpload 0)) ∧
    f_sha256 (c_file c) = Some (sha256hex sampleEnv (received sampleUpload 0)).
Proof.
  apply (listed_only_after_success sampleEnv "/srv/storage" noOptions
           defaultMaxFieldsSize "album1" ∅ sampleUpload sampleFinal
           "image" [0%nat] 0%nat).
  - vm_compute. reflexivity.
  - vm_compute. reflexivity.
  - apply list_elem_of_singleton. reflexivity.
Defined.

Lemma forbidden_extension_is_rejected_witness :
  let st' := handlePart sampleEnv "/srv/storage" noExecutables "album1"
                        exePart (init ∅) in
  let err := extnameError (Path.extname "Setup.EXE") [".exe"; ".bat"] in
  writerOf st' (length (up_parts (init ∅))) = None ∧
  (exists tr, up_backend st' = up_backend (init ∅) ++ tr ∧
              forall p, Fs (CreateWriteStream p) ∉ tr) ∧
  (forall p data, up_store st' !! p = Some data ->
                  up_store (init ∅) !! p = Some data) ∧
  (up_error (init ∅) = None -> up_ended (init ∅) = false ->
   up_error st' = Some err ∧
   up_callbacks st' = up_callbacks (init ∅) ++ [CbErr err]) ∧
  (is_Some (up_error (init ∅)) ->
   up_error st' = up_error (init ∅) ∧ up_callbacks st' = up_callbacks (init ∅)).
Proof.
  exact (forbidden_extension_is_rejected sampleEnv "/srv/storage" noExecutables
           "album1" (init ∅) exePart "Setup.EXE" [".exe"; ".bat"]
           eq_refl ltac:(discriminate) eq_refl eq_refl).
Defined.


Lemma upload_acts_on_validated_paths_only_witness :
  (forall p, ¬ managed "/srv/storage" noOptions "album1" p ->
             up_store sampleFinal !! p = (∅ : gmap string (list Byte.byte)) !! p) ∧
  managedCalls "/srv/storage" noOptions "album1" (up_backend sampleFinal).
Proof.
  apply (upload_acts_on_validated_paths_only sampleEnv "/srv/storage" noOptions
           defaultMaxFieldsSize "album1" ∅ sampleUpload sampleFinal).
  vm_compute. reflexivity.
Defined.



Lemma result_only_when_every_file_is_stored_witness :
  up_ended twoFilesFinal = true ∧
  forall id c,
    up_parts twoFilesFinal !! id = Some (IsFile c) ->
    (exists w, c_writer c = Some w ∧ w_finished w = true) ∧
    exists ids,
      up_files twoFilesFinal !! part_name (c_part c) = Some ids ∧ id ∈ ids.
Proof.
  apply (result_only_when_every_file_is_stored sampleEnv "/srv/storage"
           noOptions defaultMaxFieldsSize "album1" ∅ twoFiles twoFilesFinal
           (filesView twoFilesFinal) (up_fields twoFilesFinal)).
  - vm_compute. reflexivity.
  - vm_compute. left.
Defined.

End UploadFacts.

(** ** The connector *)

Module ConnectorFacts.
Import FileSystemProvider Connector.

Lemma bound_fold (l : list (string * JsVal)) (f : gmap string JsVal) k :
  NoDup l.*1 ->
  foldl (fun f kv => <[kv.1 := kv.2]> f) f l !! k =
    match (list_to_map l : gmap string JsVal) !! k with
    | Some v => Some v
    | None => f !! k
    end.
Proof.
  revert f. induction l as [|[p w] l IH]; intros f Hnd.
  - cbn. by rewrite lookup_empty.
  - apply NoDup_cons in Hnd as [Hp Hnd]. cbn [foldl fst snd].
    rewrite (IH _ Hnd). cbn [list_to_map foldr uncurry]. cbn [fst snd] in *.
    destruct (decide (p = k)) as [->|Hne].
    + by rewrite !lookup_insert_eq, (not_elem_of_list_to_map_1 _ _ Hp).
    + by rewrite !(lookup_insert_ne _ p k) by done.
Qed.

Lemma bound_props method : bound method = m_props method.
Proof.
  apply map_eq. intros k. unfold bound.
  rewrite bound_fold by apply NoDup_fst_map_to_list.
  rewrite list_to_map_to_list, lookup_empty. by destruct (m_props method !! k).
Qed.

Lemma dataAccessObject_fold (l : list (string * Member))
      (dao : gmap string (gmap string JsVal)) k :
  NoDup l.*1 ->
  foldl (fun dao mm =>
           if isFunction (m_value mm.2) then <[mm.1 := bound mm.2]> dao
           else dao) dao l !! k =
    match (list_to_map l : gmap string Member) !! k with
    | Some method =>
        if isFunction (m_value method) then Some (m_props method) else dao !! k
    | None => dao !! k
    end.
Proof.
  revert dao. induction l as [|[p w] l IH]; intros dao Hnd.
  - cbn. by rewrite lookup_empty.
  - apply NoDup_cons in Hnd as [Hp Hnd]. cbn [foldl fst snd].
    rewrite (IH _ Hnd). cbn [list_to_map foldr uncurry]. cbn [fst snd] in *.
    destruct (decide (p = k)) as [->|Hne].
    + rewrite lookup_insert_eq, (not_elem_of_list_to_map_1 _ _ Hp).
      destruct (isFunction (m_value w)); [|done].
      by rewrite lookup_insert_eq, bound_props.
    + rewrite (lookup_insert_ne _ p k) by done.
      destruct (list_to_map l !! k) as [m|];
        destruct (isFunction (m_value w)); try done; by rewrite lookup_insert_ne.
Qed.

(** X20. [initialize] puts on [DataAccessObject] exactly the members of
    [StorageService.prototype] that are functions, each under its own name
    and carrying every property of the method it binds; a member that is
    not a function is not exposed. *)
Theorem dataAccessObject_exposes_the_methods
        (prototype : gmap string Member) (m : string) :
  dataAccessObject prototype !! m =
    match prototype !! m with
    | Some method =>
        if isFunction (m_value method) then Some (m_props method) else None
    | None => None
    end.
Proof.
  unfold dataAccessObject.
  rewrite dataAccessObject_fold by apply NoDup_fst_map_to_list.
  rewrite list_to_map_to_list, lookup_empty.
  destruct (prototype !! m) as [method|]; [|done].
  by destruct (isFunction (m_value method)).
Qed.

Example dataAccessObject_sample :
  dataAccessObject samplePrototype !! "upload" =
    Some {[ "http" := VObj "post /:container/upload"; "shared" := VNum 1 ]} ∧
  dataAccessObject samplePrototype !! "version" = None.
Proof. split; vm_compute; reflexivity. Qed.

End ConnectorFacts.
